(** * Excel workbook merger: sheet naming policy, folder scan and merge worker

    A shallow embedding of [excels_analytics/excel_merger_gui.py] and the
    properties of it that the specification states.

    Conventions of the embedding.
    - A Python [str] is a sequence of Unicode code points: [str := list N].
      String literals of the source are written [lit "..."].
    - A Python [set[str]] is a [gset str]; only membership is ever used.
    - Python [int] is [Z].
    - A raised exception is the [Raise] case of [result].
    - The worker thread is a state-and-exception monad [M] over the state
      of one run ([wstate]); what the run depends on from outside (the host
      application, the script process, the cancellation flag, the clock) is
      a [world].
    - Library functions whose tables are not in the repository
      ([str.lower], [pathlib], [int]) are the methods of [PyRuntime].

    Part I is the embedding, Part II the vocabulary of the statements and
    the scenarios they are tried on, Part III the proofs. *)

From Stdlib Require Import ZArith NArith List Ascii String Decimal DecimalZ.
From stdpp Require Import base decidable option list sorting gmap.

Set Default Proof Using "Type".
Local Open Scope Z_scope.

(* ================================================================= *)
(** * Part I: the embedding *)

(** ** Python strings *)

(** Abbreviations, so that list lemmas apply without unfolding. *)
Abbreviation char := N (only parsing).
Abbreviation str := (list N) (only parsing).

(** The code points of an ASCII literal of the source. *)
Definition lit (s : string) : str :=
  N_of_ascii <$> list_ascii_of_string s.

(** [str.isspace] on one code point: the code points CPython's
    [_PyUnicode_IsWhitespace] accepts; [str.strip()] removes exactly these. *)
Definition is_space (c : char) : bool :=
  ((9 <=? c) && (c <=? 13) || (28 <=? c) && (c <=? 32)
   || (c =? 133) || (c =? 160) || (c =? 5760)
   || (8192 <=? c) && (c <=? 8202)
   || (c =? 8232) || (c =? 8233) || (c =? 8239) || (c =? 8287)
   || (c =? 12288))%N.

(** [s.lstrip()] *)
Fixpoint lstrip (s : str) : str :=
  match s with
  | [] => []
  | c :: t => if is_space c then lstrip t else s
  end.

(** [s.rstrip()] *)
Definition rstrip (s : str) : str := reverse (lstrip (reverse s)).

(** [s.strip()] *)
Definition strip (s : str) : str := rstrip (lstrip s).

(** A string that neither starts nor ends with whitespace. *)
Definition trimmed (s : str) : Prop :=
  (∀ c : char, head s = Some c → is_space c = false) ∧
  (∀ c : char, last s = Some c → is_space c = false).

(** [s[:k]] for a Python integer [k]: a negative bound counts from the end. *)
Definition slice_to (s : str) (k : Z) : str :=
  if 0 <=? k then take (Z.to_nat k) s
  else take (length s - Z.to_nat (- k)) s.

(** [s.startswith(p)] *)
Fixpoint startswith (s p : str) : bool :=
  match p, s with
  | [], _ => true
  | _ :: _, [] => false
  | a :: p', b :: s' => (a =? b)%N && startswith s' p'
  end.

(** Decimal digits of an unsigned decimal numeral. *)
Fixpoint digits_of_uint (u : Decimal.uint) : str :=
  match u with
  | Decimal.Nil => []
  | Decimal.D0 u => 48%N :: digits_of_uint u
  | Decimal.D1 u => 49%N :: digits_of_uint u
  | Decimal.D2 u => 50%N :: digits_of_uint u
  | Decimal.D3 u => 51%N :: digits_of_uint u
  | Decimal.D4 u => 52%N :: digits_of_uint u
  | Decimal.D5 u => 53%N :: digits_of_uint u
  | Decimal.D6 u => 54%N :: digits_of_uint u
  | Decimal.D7 u => 55%N :: digits_of_uint u
  | Decimal.D8 u => 56%N :: digits_of_uint u
  | Decimal.D9 u => 57%N :: digits_of_uint u
  end.

(** [str(n)], i.e. the [{n}] of an f-string, for an integer [n]. *)
Definition str_of_int (n : Z) : str :=
  match Z.to_int n with
  | Decimal.Pos u => digits_of_uint u
  | Decimal.Neg u => 45%N :: digits_of_uint u
  end.

(** [range(lo, hi)] *)
Definition py_range (lo hi : Z) : list Z := seqZ lo (hi - lo).

(** ** Exceptions and results *)

Inductive runtime_error :=
  | FailedUniqueName                (* "Failed to generate a unique sheet name." *)
  | ScriptNotFound                  (* the PowerShell script is missing *)
  | ScriptFailed (rc : Z).          (* the PowerShell process failed, exit=rc *)

Inductive exn :=
  | RuntimeError (e : runtime_error)
  | HostError                       (* an exception raised by the automation host *)
  | OSError.                        (* an exception raised by the operating system *)

(** The specification's name for the exhaustion error of [makeUnique]. *)
Definition NameSpaceExhausted : exn := RuntimeError FailedUniqueName.

Inductive result (A : Type) :=
  | Ok (a : A)
  | Raise (e : exn).
Arguments Ok {A} a.
Arguments Raise {A} e.

(** ** Sheet naming policy *)

Module Naming.

Definition illegal : list char := lit ":\/?*[]".

Definition underscore : char := 95%N.

(** ["_" if ch in illegal else ch] *)
Definition replace_illegal (ch : char) : char :=
  if bool_decide (ch ∈ illegal) then underscore else ch.

Definition default_label : str := lit "Sheet".

Definition sanitize_sheet_name (name : str) : str :=
  let cleaned := strip (replace_illegal <$> name) in
  match cleaned with
  | [] => default_label
  | _ :: _ => cleaned
  end.

Definition truncate_sheet_name (name : str) (max_len : Z) : str :=
  slice_to name max_len.

(** One iteration of the probing loop: the candidate built for [n]. *)
Definition candidate (base : str) (n : Z) : str :=
  let suffix := lit "_" ++ str_of_int n in
  let max_base := 31 - Z.of_nat (length suffix) in
  truncate_sheet_name base max_base ++ suffix.

(** The [for n in range(2, 10000)] loop, over the numbers still to try. *)
Fixpoint probe (existing_names : gset str) (base : str) (ns : list Z)
  : option str :=
  match ns with
  | [] => None
  | n :: ns' =>
      let c := candidate base n in
      if bool_decide (c ∈ existing_names) then probe existing_names base ns'
      else Some c
  end.

Definition make_unique_sheet_name (existing_names : gset str) (desired : str)
  : result str :=
  let base := truncate_sheet_name (sanitize_sheet_name desired) 31 in
  if bool_decide (base ∈ existing_names) then
    match probe existing_names base (py_range 2 10000) with
    | Some c => Ok c
    | None => Raise (RuntimeError FailedUniqueName)
    end
  else Ok base.

End Naming.

(** ** The Python runtime

    Library functions of the Python runtime whose tables or platform rules
    are not part of the repository.  Every property below holds for any
    implementation of them; [ascii_runtime] is an executable instance used
    in the examples.  A [pathlib.Path] is represented by its string form. *)

Class PyRuntime := {
  (** [s.lower()] *)
  lower : str → str;
  (** [Path(p).name], the final component of a path *)
  path_name : str → str;
  (** [Path(p).suffix], the extension of the final component, dot included *)
  path_suffix : str → str;
  (** [int(s)]; [None] when Python raises [ValueError] *)
  py_int : str → option Z;
}.

(** [a < b] on Python strings: lexicographic on code points. *)
Fixpoint str_ltb (a b : str) : bool :=
  match a, b with
  | _, [] => false
  | [], _ :: _ => true
  | x :: a', y :: b' =>
      if (x <? y)%N then true
      else if (y <? x)%N then false
      else str_ltb a' b'
  end.

(** [sorted(l, key=key)] for string keys.  Python's sort is stable and
    compares keys with [<]; insertion from the right, placing an element
    before the first one that is not smaller, computes the same list. *)
Section Sorted.
Context {A : Type} (key : A → str).

Fixpoint insert_by (x : A) (l : list A) : list A :=
  match l with
  | [] => [x]
  | y :: l' =>
      if str_ltb (key y) (key x) then y :: insert_by x l' else x :: l
  end.

Definition sorted_by (l : list A) : list A := foldr insert_by [] l.
End Sorted.

(** ** Folder scan and file formats *)

(** One entry yielded by [folder.iterdir()]: the path, whether the file
    system reports a directory there ([p.is_dir()]), and its size
    ([p.stat().st_size]). *)
Record dir_entry := {
  entry_path : str;
  entry_is_dir : bool;
  entry_size : Z;
}.

Global Instance dir_entry_eq_dec : EqDecision dir_entry.
Proof. solve_decision. Defined.

Section Files.
Context {rt : PyRuntime}.

Definition EXCEL_EXTS : gset str :=
  {[ lit ".xls"; lit ".xlsx"; lit ".xlsm"; lit ".xlsb" ]}.

Definition is_excel_file (p : dir_entry) : bool :=
  if entry_is_dir p then false
  else if startswith (path_name (entry_path p)) (lit "~$") then false
  else bool_decide (lower (path_suffix (entry_path p)) ∈ EXCEL_EXTS).

(** The list built by [App._refresh_list] (and again by
    [App._start_merge]) from the entries of the folder. *)
Definition scan_folder (listing : list dir_entry) : list dir_entry :=
  sorted_by (λ p, lower (path_name (entry_path p)))
            (filter (λ p, is_excel_file p = true) listing).

Definition fileformat_for_path (path : str) : Z :=
  let ext := lower (path_suffix path) in
  if bool_decide (ext = lit ".xlsx") then 51
  else if bool_decide (ext = lit ".xlsm") then 52
  else if bool_decide (ext = lit ".xlsb") then 50
  else if bool_decide (ext = lit ".xls") then 56
  else 51.

(** [safe_default_filename]; [ts] is the clock reading
    [time.strftime("%Y%m%d_%H%M%S")] at the call. *)
Definition safe_default_filename (folder ts : str) : str :=
  lit "merged_" ++ path_name folder ++ lit "_" ++ ts ++ lit ".xlsx".
End Files.

(** *** An executable runtime for ASCII input *)

Module AsciiRuntime.

Definition lower_char (c : char) : char :=
  if ((65 <=? c) && (c <=? 90))%N then (c + 32)%N else c.

Definition is_sep (c : char) : bool := ((c =? 47) || (c =? 92))%N.

(** The part after the last separator. *)
Fixpoint last_component (s : str) : str :=
  match s with
  | [] => []
  | c :: t =>
      if existsb is_sep t then last_component t
      else if is_sep c then t else s
  end.

(** The part from the last dot on, when that dot is neither the first nor
    the last character of the name. *)
Fixpoint from_last_dot (s : str) : option str :=
  match s with
  | [] => None
  | c :: t =>
      match from_last_dot t with
      | Some r => Some r
      | None => if (c =? 46)%N then Some s else None
      end
  end.

Definition suffix_of_name (name : str) : str :=
  match name with
  | [] => []
  | c :: t =>
      match from_last_dot t with
      | Some (d :: e :: r) => d :: e :: r
      | _ => []
      end
  end.

Definition digit (c : char) : option Z :=
  if ((48 <=? c) && (c <=? 57))%N then Some (Z.of_N c - 48) else None.

Fixpoint digits (acc : Z) (s : str) : option Z :=
  match s with
  | [] => Some acc
  | c :: t => d ← digit c; digits (10 * acc + d) t
  end.

Definition int_of_str (s : str) : option Z :=
  match strip s with
  | [] => None
  | 45%N :: ((_ :: _) as t) => Z.opp <$> digits 0 t
  | 43%N :: ((_ :: _) as t) => digits 0 t
  | t => digits 0 t
  end.

End AsciiRuntime.

Definition ascii_runtime : PyRuntime := {|
  lower := fmap AsciiRuntime.lower_char;
  path_name := AsciiRuntime.last_component;
  path_suffix := λ p, AsciiRuntime.suffix_of_name (AsciiRuntime.last_component p);
  py_int := AsciiRuntime.int_of_str;
|}.

(** ** The merge worker: events, host and state *)

(** The status carried by a ["done"] message. *)
Inductive status := Saved | NoSave | Cancelled | Error.

(** The texts handed to [ExcelMergeWorker.log], by the place that builds
    them; the fields are the values interpolated into the text. *)
Inductive log_msg :=
  | MsgFileCount (n : Z)                  (* number of files, primary *)
  | MsgPsFileCount (n : Z)                (* number of files, PowerShell *)
  | MsgCancelling                         (* cancelled, cleaning up *)
  | MsgOpen (name : str)                  (* opening a source workbook *)
  | MsgCopy (desired actual : str)        (* a sheet was copied *)
  | MsgWarn (name : str) (e : exn)        (* [WARN] a file cannot be processed *)
  | MsgMerged                             (* merge complete, choose a path *)
  | MsgSaveCancelled                      (* leaving without saving *)
  | MsgSaved (path : str)                 (* saved *)
  | MsgSaveFailed (e : exn)               (* [ERROR] the save failed *)
  | MsgText (text : str)                  (* a line forwarded from the script *)
  | MsgError (e : exn).                   (* [ERROR] in [run] *)

(** The messages put on [ui_queue]. *)
Inductive event :=
  | Log (m : log_msg)
  | Progress (current total : Z) (filename : str)
  | RequestSave (suggested_name : str)
  | ErrorEvent (e : exn)
  | Done (st : status).

(** A worksheet of the destination workbook: the identity of the COM object
    and its current name. *)
Record sheet := { sid : nat; sheet_name : str }.

(** What the worker did to the host application, in order, with the
    worksheets of the destination before and after each step. *)
Inductive host_op :=
  | OpCopy (sh : sheet)
  | OpRename (id : nat) (new_name : str)
  | OpDelete (sh : sheet)
  | OpCloseSource (path : str)
  | OpSaveAs (path : str) (fmt : Z)
  | OpCloseDest
  | OpQuit.

Record host_step := {
  step_op : host_op;
  sheets_before : list sheet;
  sheets_after : list sheet;
}.

(** How far the primary strategy gets before the loop over the files. *)
Inductive acquired :=
  | NoCom        (* [pythoncom.CoInitialize()] raises *)
  | NoExcel      (* [DispatchEx("Excel.Application")] raises: [excel] is [None] *)
  | NoWorkbook   (* one of the four unguarded settings or [Workbooks.Add()]
                    raises: [excel] is there, [dest_wb] is [None] *)
  | Acquired.    (* [dest_wb = excel.Workbooks.Add()] has returned *)

Global Instance acquired_eq_dec : EqDecision acquired.
Proof. solve_decision. Defined.

(** Everything outside the worker that one run depends on.  Every call on
    the host, the file system or the process may fail; [None] or [false] is
    the failing case. *)
Record world := {
  (** [import pythoncom, win32com.client] succeeds *)
  com_available : bool;
  (** the calls of lines 126-144 *)
  acquisition : acquired;
  (** [dest_wb.Close(SaveChanges=False)] succeeds, by the number of calls
      of [Close] and [Quit] made before *)
  close_dest_ok : nat → bool;
  (** [excel.Quit()] succeeds, by the same number *)
  quit_ok : nat → bool;
  (** [cancel_event.is_set()] at its k-th call of the run, k from 0 *)
  cancel_event : nat → bool;
  (** [time.strftime(...)] when the default file name is built *)
  clock : str;
  (** [excel.Workbooks.Open(path, ...)] and the names of its worksheets *)
  open_workbook : str → option (list str);
  (** reading worksheet [sidx] of [path] and copying it succeeds *)
  copy_ok : str → nat → bool;
  (** the name the host gives to a fresh copy *)
  auto_name : list sheet → str → str;
  (** the host accepts [Name = n] for the sheet with this identity *)
  rename_ok : list sheet → nat → str → bool;
  (** [sh.Delete()] succeeds *)
  delete_ok : list sheet → sheet → bool;
  (** [src_wb.Close(SaveChanges=False)] succeeds *)
  close_source_ok : str → bool;
  (** the k-th [dest_wb.SaveAs(path, FileFormat=fmt)] of the run succeeds *)
  save_ok : nat → str → Z → bool;
  (** the initial worksheets of the destination can be enumerated *)
  initial_sheets_ok : bool;
  (** [merge_excel_sheets.ps1] exists next to the program *)
  script_exists : bool;
  (** lines 277-288: the temporary directory is found and made and the
      file list is written *)
  filelist_ok : bool;
  (** [subprocess.Popen] starts the process *)
  popen_ok : bool;
  (** [proc.stdin.write] and [flush] succeed, by the number of lines
      written before *)
  stdin_write_ok : nat → bool;
  (** the sentinel file can be written, by the number of the cancellation
      test that asks for it *)
  flag_write_ok : nat → bool;
  (** the sentinel file can be removed at the end *)
  flag_unlink_ok : bool;
  (** the lines the PowerShell process writes, as [readline] returns them *)
  stdout_lines : list str;
  (** the exit code of the PowerShell process *)
  exit_code : Z;
}.

(** The state of one run of the worker. *)
Record wstate := {
  (** worksheets of the destination workbook, in tab order *)
  dest : list sheet;
  (** identity of the next worksheet object the host creates *)
  next_sid : nat;
  (** the local variable [copied_any] *)
  copied_any : bool;
  (** messages put on [ui_queue] so far, oldest first *)
  ui_queue : list event;
  (** answers on [save_queue] not yet taken; [None] is the abort signal *)
  save_queue : list (option str);
  (** number of calls of [cancel_event.is_set()] so far *)
  cancel_checks : nat;
  (** number of calls of [SaveAs] so far *)
  save_attempts : nat;
  (** number of calls of [dest_wb.Close] and [excel.Quit] so far *)
  teardown_calls : nat;
  (** the host steps so far, oldest first *)
  trace : list host_step;
  (** lines written to the standard input of the PowerShell process *)
  proc_stdin : list str;
  (** the cancellation sentinel file exists *)
  cancel_flag_file : bool;
}.

Definition set_dest (d : list sheet) (s : wstate) : wstate :=
  {| dest := d; next_sid := next_sid s; copied_any := copied_any s;
     ui_queue := ui_queue s; save_queue := save_queue s;
     cancel_checks := cancel_checks s; save_attempts := save_attempts s;
     teardown_calls := teardown_calls s;
     trace := trace s; proc_stdin := proc_stdin s;
     cancel_flag_file := cancel_flag_file s |}.

Definition set_next_sid (n : nat) (s : wstate) : wstate :=
  {| dest := dest s; next_sid := n; copied_any := copied_any s;
     ui_queue := ui_queue s; save_queue := save_queue s;
     cancel_checks := cancel_checks s; save_attempts := save_attempts s;
     teardown_calls := teardown_calls s;
     trace := trace s; proc_stdin := proc_stdin s;
     cancel_flag_file := cancel_flag_file s |}.

Definition set_copied_any (b : bool) (s : wstate) : wstate :=
  {| dest := dest s; next_sid := next_sid s; copied_any := b;
     ui_queue := ui_queue s; save_queue := save_queue s;
     cancel_checks := cancel_checks s; save_attempts := save_attempts s;
     teardown_calls := teardown_calls s;
     trace := trace s; proc_stdin := proc_stdin s;
     cancel_flag_file := cancel_flag_file s |}.

Definition set_ui_queue (q : list event) (s : wstate) : wstate :=
  {| dest := dest s; next_sid := next_sid s; copied_any := copied_any s;
     ui_queue := q; save_queue := save_queue s;
     cancel_checks := cancel_checks s; save_attempts := save_attempts s;
     teardown_calls := teardown_calls s;
     trace := trace s; proc_stdin := proc_stdin s;
     cancel_flag_file := cancel_flag_file s |}.

Definition set_save_queue (q : list (option str)) (s : wstate) : wstate :=
  {| dest := dest s; next_sid := next_sid s; copied_any := copied_any s;
     ui_queue := ui_queue s; save_queue := q;
     cancel_checks := cancel_checks s; save_attempts := save_attempts s;
     teardown_calls := teardown_calls s;
     trace := trace s; proc_stdin := proc_stdin s;
     cancel_flag_file := cancel_flag_file s |}.

Definition set_cancel_checks (n : nat) (s : wstate) : wstate :=
  {| dest := dest s; next_sid := next_sid s; copied_any := copied_any s;
     ui_queue := ui_queue s; save_queue := save_queue s;
     cancel_checks := n; save_attempts := save_attempts s;
     teardown_calls := teardown_calls s;
     trace := trace s; proc_stdin := proc_stdin s;
     cancel_flag_file := cancel_flag_file s |}.

Definition set_save_attempts (n : nat) (s : wstate) : wstate :=
  {| dest := dest s; next_sid := next_sid s; copied_any := copied_any s;
     ui_queue := ui_queue s; save_queue := save_queue s;
     cancel_checks := cancel_checks s; save_attempts := n;
     teardown_calls := teardown_calls s;
     trace := trace s; proc_stdin := proc_stdin s;
     cancel_flag_file := cancel_flag_file s |}.

Definition set_trace (t : list host_step) (s : wstate) : wstate :=
  {| dest := dest s; next_sid := next_sid s; copied_any := copied_any s;
     ui_queue := ui_queue s; save_queue := save_queue s;
     cancel_checks := cancel_checks s; save_attempts := save_attempts s;
     teardown_calls := teardown_calls s;
     trace := t; proc_stdin := proc_stdin s;
     cancel_flag_file := cancel_flag_file s |}.

Definition set_proc_stdin (l : list str) (s : wstate) : wstate :=
  {| dest := dest s; next_sid := next_sid s; copied_any := copied_any s;
     ui_queue := ui_queue s; save_queue := save_queue s;
     cancel_checks := cancel_checks s; save_attempts := save_attempts s;
     teardown_calls := teardown_calls s;
     trace := trace s; proc_stdin := l;
     cancel_flag_file := cancel_flag_file s |}.

Definition set_cancel_flag_file (b : bool) (s : wstate) : wstate :=
  {| dest := dest s; next_sid := next_sid s; copied_any := copied_any s;
     ui_queue := ui_queue s; save_queue := save_queue s;
     cancel_checks := cancel_checks s; save_attempts := save_attempts s;
     teardown_calls := teardown_calls s;
     trace := trace s; proc_stdin := proc_stdin s;
     cancel_flag_file := b |}.

Definition set_teardown_calls (n : nat) (s : wstate) : wstate :=
  {| dest := dest s; next_sid := next_sid s; copied_any := copied_any s;
     ui_queue := ui_queue s; save_queue := save_queue s;
     cancel_checks := cancel_checks s; save_attempts := save_attempts s;
     teardown_calls := n;
     trace := trace s; proc_stdin := proc_stdin s;
     cancel_flag_file := cancel_flag_file s |}.

(** ** The worker monad

    A computation of the worker thread takes the state and gives the new
    state together with its outcome: a value, a raised exception, or [None]
    when the thread is suspended for good in [save_queue.get()]. *)
Definition M (A : Type) : Type := wstate → option (result A) * wstate.

Global Instance M_ret : MRet M := λ A a s, (Some (Ok a), s).

Global Instance M_bind : MBind M := λ A B f m s,
  match m s with
  | (Some (Ok a), s') => f a s'
  | (Some (Raise e), s') => (Some (Raise e), s')
  | (None, s') => (None, s')
  end.

(** [raise e] *)
Definition raise {A} (e : exn) : M A := λ s, (Some (Raise e), s).

(** [try: m  except Exception as e: h e] *)
Definition try_except {A} (m : M A) (h : exn → M A) : M A := λ s,
  match m s with
  | (Some (Raise e), s') => h e s'
  | r => r
  end.

(** [try: m  finally: fin]; an exception of [fin] replaces the outcome. *)
Definition try_finally {A} (m : M A) (fin : M unit) : M A := λ s,
  match m s with
  | (None, s') => (None, s')
  | (Some r, s') =>
      match fin s' with
      | (Some (Ok _), s'') => (Some r, s'')
      | (Some (Raise e), s'') => (Some (Raise e), s'')
      | (None, s'') => (None, s'')
      end
  end.

(** Reading and changing the state. *)
Definition gets {A} (f : wstate → A) : M A := λ s, (Some (Ok (f s)), s).
Definition get_state : M wstate := gets (λ s, s).
Definition modify (f : wstate → wstate) : M unit := λ s, (Some (Ok ()), f s).

(** The thread waits for ever. *)
Definition suspended {A} : M A := λ s, (None, s).

(** A pure computation that may raise. *)
Definition lift {A} (r : result A) : M A := λ s, (Some r, s).

(** The state a computation ends in, and its outcome. *)
Definition exec {A} (m : M A) (s : wstate) : wstate := (m s).2.
Definition outcome {A} (m : M A) (s : wstate) : option (result A) := (m s).1.

(** [s.split(sep, maxsplit)] for a one-character separator. *)
Fixpoint break_at (sep : char) (s : str) : option (str * str) :=
  match s with
  | [] => None
  | c :: t =>
      if (c =? sep)%N then Some ([], t)
      else match break_at sep t with
           | Some (pre, post) => Some (c :: pre, post)
           | None => None
           end
  end.

Fixpoint split_max (sep : char) (maxsplit : nat) (s : str) : list str :=
  match maxsplit with
  | O => [s]
  | S n =>
      match break_at sep s with
      | Some (pre, post) => pre :: split_max sep n post
      | None => [s]
      end
  end.

Definition bar : char := 124%N.
Definition newline : char := 10%N.

(** ** The worker: operations shared by both strategies *)

Section Worker.
Context {rt : PyRuntime} (w : world).

(** [self.ui_queue.put(e)] *)
Definition put_event (e : event) : M unit :=
  modify (λ s, set_ui_queue (ui_queue s ++ [e]) s).

Definition log (m : log_msg) : M unit := put_event (Log m).

Definition progress (current total : Z) (filename : str) : M unit :=
  put_event (Progress current total filename).

(** [self.save_queue.get()]: takes the next answer, or waits for ever. *)
Definition save_queue_get : M (option str) :=
  q ← gets save_queue;
  match q with
  | [] => suspended
  | a :: q' => modify (set_save_queue q');; mret a
  end.

Definition request_save_path (suggested_name : str) : M (option str) :=
  put_event (RequestSave suggested_name);; save_queue_get.

(** [self.cancel_event.is_set()] *)
Definition is_set : M bool :=
  k ← gets cancel_checks;
  modify (set_cancel_checks (S k));;
  mret (cancel_event w k).

(** [ExcelMergeWorker.run] around an implementation. *)
Definition run_with (impl : M unit) : M unit :=
  try_except impl
    (λ e, log (MsgError e);; put_event (ErrorEvent e);; put_event (Done Error)).

(** ** The primary strategy: host calls *)

Definition apply_step (op : host_op) (after : list sheet) (s : wstate)
  : wstate :=
  set_dest after
    (set_trace (trace s ++ [{| step_op := op; sheets_before := dest s;
                               sheets_after := after |}]) s).

Definition record_step (op : host_op) (after : list sheet) : M unit :=
  modify (apply_step op after).

(** [dest_wb.Worksheets.Count] *)
Definition sheet_count : M nat := gets (λ s, length (dest s)).

(** The set [existing] of the names of the destination's worksheets. *)
Definition existing_names : M (gset str) :=
  gets (λ s, list_to_set (sheet_name <$> dest s)).

(** [excel.Workbooks.Open(str(src_path), ReadOnly=True, ...)] *)
Definition host_open (path : str) : M (list str) :=
  match open_workbook w path with
  | Some names => mret names
  | None => raise HostError
  end.

(** [src_ws.Copy(After=dest_wb.Worksheets(dest_ws_count))] followed by
    [excel.ActiveSheet]: the copy becomes the last worksheet. *)
Definition host_copy (path : str) (sidx : nat) (desired : str) : M sheet :=
  if copy_ok w path sidx then
    s ← get_state;
    let sh := {| sid := next_sid s; sheet_name := auto_name w (dest s) desired |} in
    modify (set_next_sid (S (next_sid s)));;
    record_step (OpCopy sh) (dest s ++ [sh]);;
    mret sh
  else raise HostError.

Definition rename_in (id : nat) (n : str) (l : list sheet) : list sheet :=
  (λ sh, if bool_decide (sid sh = id)
         then {| sid := id; sheet_name := n |} else sh) <$> l.

(** [copied.Name = n] *)
Definition host_rename (id : nat) (n : str) : M unit :=
  s ← get_state;
  if rename_ok w (dest s) id n
  then record_step (OpRename id n) (rename_in id n (dest s))
  else raise HostError.

(** [copied.Name], read back for the log *)
Definition name_of (id : nat) : M str :=
  gets (λ s, default [] (sheet_name <$> head (filter (λ sh, sid sh = id) (dest s)))).

(** [sh.Delete()] *)
Definition host_delete (sh : sheet) : M unit :=
  s ← get_state;
  if delete_ok w (dest s) sh
  then record_step (OpDelete sh) (filter (λ x, sid x ≠ sid sh) (dest s))
  else raise HostError.

(** [src_wb.Close(SaveChanges=False)] *)
Definition host_close_source (path : str) : M unit :=
  if close_source_ok w path
  then s ← get_state; record_step (OpCloseSource path) (dest s)
  else raise HostError.

(** [dest_wb.SaveAs(save_path, FileFormat=fmt)] *)
Definition host_save_as (path : str) (fmt : Z) : M unit :=
  s ← get_state;
  modify (set_save_attempts (S (save_attempts s)));;
  if save_ok w (save_attempts s) path fmt
  then record_step (OpSaveAs path fmt) (dest s)
  else raise HostError.

(** [dest_wb.Close(SaveChanges=False)] *)
Definition host_close_dest : M unit :=
  s ← get_state;
  modify (set_teardown_calls (S (teardown_calls s)));;
  if close_dest_ok w (teardown_calls s)
  then record_step OpCloseDest (dest s)
  else raise HostError.

(** [excel.Quit()] *)
Definition host_quit : M unit :=
  s ← get_state;
  modify (set_teardown_calls (S (teardown_calls s)));;
  if quit_ok w (teardown_calls s)
  then record_step OpQuit (dest s)
  else raise HostError.

(** ** The primary strategy: [_run_impl]

    The state holds the worksheets of the workbook that
    [excel.Workbooks.Add()] returns; they are not touched when the
    acquisition fails. *)

(** The body of the loop over the worksheets of one source workbook. *)
Definition copy_sheet (path : str) (sidx : nat) (desired : str) : M unit :=
  existing ← existing_names;
  copied ← host_copy path sidx desired;
  unique ← lift (Naming.make_unique_sheet_name existing desired);
  try_except (host_rename (sid copied) unique)
    (λ _, fallback ← lift (Naming.make_unique_sheet_name existing
                             (desired ++ lit "_copy"));
          host_rename (sid copied) fallback);;
  modify (set_copied_any true);;
  actual ← name_of (sid copied);
  log (MsgCopy desired actual).

(** [for sidx in range(1, src_wb.Worksheets.Count + 1)] *)
Fixpoint sheet_loop (path : str) (sidx : nat) (names : list str) : M unit :=
  match names with
  | [] => mret ()
  | desired :: rest =>
      c ← is_set;
      if c : bool then mret ()
      else copy_sheet path sidx desired;; sheet_loop path (S sidx) rest
  end.

(** The [finally] clause of one file: close the source if it was opened;
    a failure to close is swallowed. *)
Definition close_source (path : str) : M unit :=
  match open_workbook w path with
  | Some _ => try_except (host_close_source path) (λ _, mret ())
  | None => mret ()
  end.

(** One iteration of the loop over the files, after the cancellation test. *)
Definition process_file (total idx : Z) (src_path : str) : M unit :=
  progress idx total (path_name src_path);;
  log (MsgOpen (path_name src_path));;
  try_finally
    (try_except
       (names ← host_open src_path; sheet_loop src_path 1 names)
       (λ e, log (MsgWarn (path_name src_path) e)))
    (close_source src_path).

(** [for idx, src_path in enumerate(self.files, start=1)] *)
Fixpoint file_loop (total idx : Z) (files : list str) : M unit :=
  match files with
  | [] => mret ()
  | src_path :: rest =>
      c ← is_set;
      if c : bool then log MsgCancelling
      else process_file total idx src_path;; file_loop total (idx + 1) rest
  end.

(** [for sh in initial_sheets]: delete the placeholders. *)
Fixpoint delete_initial (initial : list sheet) : M unit :=
  match initial with
  | [] => mret ()
  | sh :: rest =>
      n ← sheet_count;
      if bool_decide (n ≤ 1)%nat then mret ()
      else try_except (host_delete sh) (λ _, mret ());; delete_initial rest
  end.

Definition remove_placeholders (initial : list sheet) : M unit :=
  any ← gets copied_any;
  if any && negb (bool_decide (initial = [])) then delete_initial initial
  else mret ().

(** The [while True] loop of the save handshake.  Every iteration takes one
    answer from [save_queue], so [fuel] iterations suffice when [fuel]
    exceeds the number of answers present. *)
Fixpoint save_loop (suggested : str) (fuel : nat) : M unit :=
  match fuel with
  | O => suspended
  | S fuel' =>
      save_path ← request_save_path suggested;
      match save_path with
      | None =>
          log MsgSaveCancelled;;
          host_close_dest;; host_quit;;
          put_event (Done NoSave)
      | Some p =>
          let fmt := fileformat_for_path p in
          saved ← try_except
                    (host_save_as p fmt;; log (MsgSaved p);; mret true)
                    (λ e, log (MsgSaveFailed e);; mret false);
          if saved : bool
          then host_close_dest;; host_quit;; put_event (Done Saved)
          else save_loop suggested fuel'
      end
  end.

Definition save_handshake (suggested : str) : M unit := λ s,
  save_loop suggested (S (length (save_queue s))) s.

(** The body of the outer [try], from the enumeration of the initial
    worksheets on. *)
Definition merge_workbooks (folder : str) (files : list str) : M unit :=
  initial_sheets ← gets (λ s, if initial_sheets_ok w then dest s else []);
  let total_files := Z.of_nat (length files) in
  log (MsgFileCount total_files);;
  modify (set_copied_any false);;
  file_loop total_files 1 files;;
  c ← is_set;
  if c : bool then
    host_close_dest;; host_quit;; put_event (Done Cancelled)
  else
    remove_placeholders initial_sheets;;
    log MsgMerged;;
    save_handshake (safe_default_filename folder (clock w)).

(** The outer [finally] clause: [Close] when [dest_wb] is not [None], [Quit]
    when [excel] is not [None], each with its failure swallowed.
    ([CoUninitialize], guarded as well, leaves no trace in the state.) *)
Definition release (a : acquired) : M unit :=
  match a with
  | Acquired => try_except host_close_dest (λ _, mret ())
  | _ => mret ()
  end;;
  match a with
  | Acquired | NoWorkbook => try_except host_quit (λ _, mret ())
  | _ => mret ()
  end.

(** [_run_impl] when the automation modules can be imported: lines
    126-270. *)
Definition run_impl_primary (folder : str) (files : list str) : M unit :=
  match acquisition w with
  | NoCom => raise HostError
  | a =>
      try_finally
        (match a with
         | Acquired => merge_workbooks folder files
         | _ => raise HostError
         end)
        (release a)
  end.

(** ** The fallback strategy: [_run_impl_powershell]

    The process is represented by what the worker sees of it: whether it
    starts, the lines it writes, whether it takes the lines written to it,
    and its exit code. *)

(** The test at the head of the reading loop: create the sentinel file once
    cancellation is requested; a failure to write it is swallowed. *)
Definition signal_cancel : M unit :=
  k ← gets cancel_checks;
  c ← is_set;
  exists_ ← gets cancel_flag_file;
  if c && negb exists_ then
    if flag_write_ok w k then modify (set_cancel_flag_file true) else mret ()
  else mret ().

(** The body of the reading loop for one line read from the process. *)
Definition handle_line (folder : str) (raw : str) : M unit :=
  let line := strip raw in
  if bool_decide (line = []) then mret ()
  else if startswith line (lit "LOG|") then log (MsgText (drop 4 line))
  else if startswith line (lit "PROGRESS|") then
    match split_max bar 3 line with
    | [_; p1; p2; filename] =>
        match py_int p1, py_int p2 with
        | Some current, Some total => progress current total filename
        | _, _ => mret ()
        end
    | _ => mret ()
    end
  else if startswith line (lit "REQUEST_SAVE|") then
    let suggested :=
      match split_max bar 1 line with
      | [_; name] => name
      | _ => safe_default_filename folder (clock w)
      end in
    save_path ← request_save_path suggested;
    written ← gets (λ s, length (proc_stdin s));
    if stdin_write_ok w written then
      modify (λ s, set_proc_stdin
                     (proc_stdin s ++ [default [] save_path ++ [newline]]) s)
    else raise OSError
  else log (MsgText line).

(** [while True]: one iteration per line, and a last one that meets the end
    of the stream of a process that has exited. *)
Fixpoint read_loop (folder : str) (lines : list str) : M unit :=
  signal_cancel;;
  match lines with
  | [] => mret ()
  | raw :: rest => handle_line folder raw;; read_loop folder rest
  end.

(** From [rc = proc.wait()] on. *)
Definition report_exit (rc : Z) : M unit :=
  c ← is_set;
  if c : bool then put_event (Done Cancelled)
  else if bool_decide (rc = 0) then put_event (Done Saved)
  else if bool_decide (rc = 3) then put_event (Done NoSave)
  else if bool_decide (rc = 2) then put_event (Done Cancelled)
  else raise (RuntimeError (ScriptFailed rc)).

(** The [finally] clause of the fallback strategy, as far as the state
    goes: the sentinel file is removed if it exists; a failure is
    swallowed. *)
Definition remove_sentinel : M unit :=
  exists_ ← gets cancel_flag_file;
  if exists_ && flag_unlink_ok w then modify (set_cancel_flag_file false)
  else mret ().

(** [_run_impl_powershell]: the test for the script, the temporary directory
    and the list of files, the log line, the process, and the reading loop
    with its [finally] clause.  The calls before [try] are not guarded. *)
Definition run_impl_powershell (folder : str) (files : list str) : M unit :=
  if script_exists w then
    if filelist_ok w then
      log (MsgPsFileCount (Z.of_nat (length files)));;
      if popen_ok w then
        try_finally
          (read_loop folder (stdout_lines w);; report_exit (exit_code w))
          remove_sentinel
      else raise OSError
    else raise OSError
  else raise (RuntimeError ScriptNotFound).

(** [_run_impl]: the primary strategy when the automation modules can be
    imported, the fallback otherwise. *)
Definition run_impl (folder : str) (files : list str) : M unit :=
  if com_available w then run_impl_primary folder files
  else run_impl_powershell folder files.

(** [ExcelMergeWorker.run] *)
Definition run (folder : str) (files : list str) : M unit :=
  run_with (run_impl folder files).

End Worker.

(** ** Reading the message queue *)

(** The payloads of the progress messages, in order. *)
Definition progress_events (q : list event) : list (Z * Z * str) :=
  omap (λ e, match e with Progress c t f => Some (c, t, f) | _ => None end) q.

(** The suggested names of the save requests, in order. *)
Definition save_requests (q : list event) : list str :=
  omap (λ e, match e with RequestSave n => Some n | _ => None end) q.

(** The statuses of the completion messages, in order. *)
Definition done_events (q : list event) : list status :=
  omap (λ e, match e with Done st => Some st | _ => None end) q.

(** The state in which a worker starts on a fresh destination workbook whose
    worksheets are [placeholders]; [answers] are the answers the UI will
    put on [save_queue]. *)
Definition initial_state (placeholders : list sheet)
    (answers : list (option str)) : wstate :=
  {| dest := placeholders;
     next_sid := S (foldr Nat.max 0%nat (sid <$> placeholders));
     copied_any := false; ui_queue := []; save_queue := answers;
     cancel_checks := 0; save_attempts := 0; teardown_calls := 0;
     trace := [];
     proc_stdin := []; cancel_flag_file := false |}.

(** The table of the specification for the fallback strategy: exit code 0
    is [Saved], 3 is [NoSave], 2 is [Cancelled], anything else [Error]. *)
Definition spec_exit_status (rc : Z) : status :=
  if bool_decide (rc = 0) then Saved
  else if bool_decide (rc = 3) then NoSave
  else if bool_decide (rc = 2) then Cancelled
  else Error.

(** ** Reading the host trace *)

(** The steps [t] lead from the worksheets [d0] to the worksheets [d], each
    step starting where the previous one ended. *)
Fixpoint chained (d0 : list sheet) (t : list host_step) (d : list sheet)
  : Prop :=
  match t with
  | [] => d0 = d
  | st :: t' => sheets_before st = d0 ∧ chained (sheets_after st) t' d
  end.

(** Some worksheet was copied during the steps [t]. *)
Definition has_copy (t : list host_step) : Prop :=
  ∃ st c, st ∈ t ∧ step_op st = OpCopy c.

(** ** The window: [App]

    The state of the window as far as its handlers read or write it.  A Tk
    widget is represented by the options the program sets on it; the texts
    the window shows are represented by the place that builds them. *)

Module Window.

(** The texts of the status line. *)
Inductive status_text :=
  | TxtChooseFolder                      (* no folder chosen *)
  | TxtFolderMissing                     (* the folder does not exist *)
  | TxtFound (n : Z)                     (* number of Excel files found *)
  | TxtProgress (current total : Z) (filename : str)
  | TxtSaved
  | TxtCancelled
  | TxtNoSave
  | TxtError.

(** The lines of the log box. *)
Inductive log_line :=
  | LineWorker (m : log_msg)             (* a ["log"] message of the worker *)
  | LineStart                            (* the merge starts *)
  | LineCancelSent                       (* cancellation was requested *)
  | LineSaved
  | LineCancelled
  | LineNoSave
  | LineError.

(** The message boxes. *)
Inductive message_box :=
  | BoxNothingSelected
  | BoxNoExcelFiles
  | BoxError
  | BoxNoParent (parent : str).

(** The arguments an [ExcelMergeWorker] is created with; the queues and the
    event are those of the window. *)
Record worker_args := { folder : str; files : list dir_entry }.

(** What a handler depends on outside the window: the file system at the
    time of the call ([iterdir] is [None] when it raises) and the path
    functions of the platform. *)
Record desktop := {
  path_exists : str → bool;
  iterdir : str → option (list dir_entry);
  normpath : str → str;
  path_parent : str → str;
}.

(** One round of the save dialog: what [asksaveasfilename] returns (the
    empty string when the dialog is dismissed) and what [askyesno] answers
    to the question whether to try again, when it is asked. *)
Record dialog_answer := { chosen_path : str; retry : bool }.

Definition Chosen (path : str) : dialog_answer :=
  {| chosen_path := path; retry := false |}.

Definition Dismissed (retry : bool) : dialog_answer :=
  {| chosen_path := []; retry := retry |}.

(** How a handler ends: it returns, an exception leaves it, or it is still
    waiting for the user in a dialog. *)
Inductive control := Returned | Raised | Waiting.

Record app := {
  (** [self.worker] *)
  worker : option worker_args;
  (** [self.cancel_event] is set *)
  cancel_event : bool;
  folder_var : str;
  selected_only_var : bool;
  (** the rows of [self.tree]: item identifier, name and size *)
  tree : list (nat * str * Z);
  (** the identifier Tk gives to the next row *)
  next_iid : nat;
  item_to_path : gmap nat dir_entry;
  (** the buttons are enabled *)
  start_btn : bool;
  cancel_btn : bool;
  pbar_maximum : Z;
  pbar_value : Z;
  status_var : status_text;
  log_text : list log_line;
  (** the message boxes shown so far *)
  boxes : list message_box;
  (** the answers put on [self.save_queue] so far *)
  save_queue : list (option str);
  (** the workers started so far *)
  started : list worker_args;
}.

Definition set_worker (x : option worker_args) (a : app) : app :=
  {| worker := x; cancel_event := cancel_event a; folder_var := folder_var a;
     selected_only_var := selected_only_var a; tree := tree a;
     next_iid := next_iid a; item_to_path := item_to_path a;
     start_btn := start_btn a; cancel_btn := cancel_btn a;
     pbar_maximum := pbar_maximum a; pbar_value := pbar_value a;
     status_var := status_var a; log_text := log_text a; boxes := boxes a;
     save_queue := save_queue a; started := started a |}.

Definition set_cancel_event (x : bool) (a : app) : app :=
  {| worker := worker a; cancel_event := x; folder_var := folder_var a;
     selected_only_var := selected_only_var a; tree := tree a;
     next_iid := next_iid a; item_to_path := item_to_path a;
     start_btn := start_btn a; cancel_btn := cancel_btn a;
     pbar_maximum := pbar_maximum a; pbar_value := pbar_value a;
     status_var := status_var a; log_text := log_text a; boxes := boxes a;
     save_queue := save_queue a; started := started a |}.

Definition set_folder_var (x : str) (a : app) : app :=
  {| worker := worker a; cancel_event := cancel_event a; folder_var := x;
     selected_only_var := selected_only_var a; tree := tree a;
     next_iid := next_iid a; item_to_path := item_to_path a;
     start_btn := start_btn a; cancel_btn := cancel_btn a;
     pbar_maximum := pbar_maximum a; pbar_value := pbar_value a;
     status_var := status_var a; log_text := log_text a; boxes := boxes a;
     save_queue := save_queue a; started := started a |}.

Definition set_selected_only_var (x : bool) (a : app) : app :=
  {| worker := worker a; cancel_event := cancel_event a;
     folder_var := folder_var a; selected_only_var := x; tree := tree a;
     next_iid := next_iid a; item_to_path := item_to_path a;
     start_btn := start_btn a; cancel_btn := cancel_btn a;
     pbar_maximum := pbar_maximum a; pbar_value := pbar_value a;
     status_var := status_var a; log_text := log_text a; boxes := boxes a;
     save_queue := save_queue a; started := started a |}.

(** The rows of the tree and the map from their identifiers. *)
Definition set_rows (t : list (nat * str * Z)) (n : nat)
    (m : gmap nat dir_entry) (a : app) : app :=
  {| worker := worker a; cancel_event := cancel_event a;
     folder_var := folder_var a; selected_only_var := selected_only_var a;
     tree := t; next_iid := n; item_to_path := m;
     start_btn := start_btn a; cancel_btn := cancel_btn a;
     pbar_maximum := pbar_maximum a; pbar_value := pbar_value a;
     status_var := status_var a; log_text := log_text a; boxes := boxes a;
     save_queue := save_queue a; started := started a |}.

Definition set_start_btn (x : bool) (a : app) : app :=
  {| worker := worker a; cancel_event := cancel_event a;
     folder_var := folder_var a; selected_only_var := selected_only_var a;
     tree := tree a; next_iid := next_iid a; item_to_path := item_to_path a;
     start_btn := x; cancel_btn := cancel_btn a;
     pbar_maximum := pbar_maximum a; pbar_value := pbar_value a;
     status_var := status_var a; log_text := log_text a; boxes := boxes a;
     save_queue := save_queue a; started := started a |}.

Definition set_cancel_btn (x : bool) (a : app) : app :=
  {| worker := worker a; cancel_event := cancel_event a;
     folder_var := folder_var a; selected_only_var := selected_only_var a;
     tree := tree a; next_iid := next_iid a; item_to_path := item_to_path a;
     start_btn := start_btn a; cancel_btn := x;
     pbar_maximum := pbar_maximum a; pbar_value := pbar_value a;
     status_var := status_var a; log_text := log_text a; boxes := boxes a;
     save_queue := save_queue a; started := started a |}.

(** [self.pbar.configure(maximum=m, value=v)] *)
Definition set_pbar (m v : Z) (a : app) : app :=
  {| worker := worker a; cancel_event := cancel_event a;
     folder_var := folder_var a; selected_only_var := selected_only_var a;
     tree := tree a; next_iid := next_iid a; item_to_path := item_to_path a;
     start_btn := start_btn a; cancel_btn := cancel_btn a;
     pbar_maximum := m; pbar_value := v;
     status_var := status_var a; log_text := log_text a; boxes := boxes a;
     save_queue := save_queue a; started := started a |}.

Definition set_status_var (x : status_text) (a : app) : app :=
  {| worker := worker a; cancel_event := cancel_event a;
     folder_var := folder_var a; selected_only_var := selected_only_var a;
     tree := tree a; next_iid := next_iid a; item_to_path := item_to_path a;
     start_btn := start_btn a; cancel_btn := cancel_btn a;
     pbar_maximum := pbar_maximum a; pbar_value := pbar_value a;
     status_var := x; log_text := log_text a; boxes := boxes a;
     save_queue := save_queue a; started := started a |}.

(** [self._log(msg)] *)
Definition log (l : log_line) (a : app) : app :=
  {| worker := worker a; cancel_event := cancel_event a;
     folder_var := folder_var a; selected_only_var := selected_only_var a;
     tree := tree a; next_iid := next_iid a; item_to_path := item_to_path a;
     start_btn := start_btn a; cancel_btn := cancel_btn a;
     pbar_maximum := pbar_maximum a; pbar_value := pbar_value a;
     status_var := status_var a; log_text := log_text a ++ [l];
     boxes := boxes a; save_queue := save_queue a; started := started a |}.

(** [messagebox.showinfo] and [messagebox.showerror] *)
Definition show_box (b : message_box) (a : app) : app :=
  {| worker := worker a; cancel_event := cancel_event a;
     folder_var := folder_var a; selected_only_var := selected_only_var a;
     tree := tree a; next_iid := next_iid a; item_to_path := item_to_path a;
     start_btn := start_btn a; cancel_btn := cancel_btn a;
     pbar_maximum := pbar_maximum a; pbar_value := pbar_value a;
     status_var := status_var a; log_text := log_text a;
     boxes := boxes a ++ [b]; save_queue := save_queue a;
     started := started a |}.

(** [self.save_queue.put(x)] *)
Definition save_queue_put (x : option str) (a : app) : app :=
  {| worker := worker a; cancel_event := cancel_event a;
     folder_var := folder_var a; selected_only_var := selected_only_var a;
     tree := tree a; next_iid := next_iid a; item_to_path := item_to_path a;
     start_btn := start_btn a; cancel_btn := cancel_btn a;
     pbar_maximum := pbar_maximum a; pbar_value := pbar_value a;
     status_var := status_var a; log_text := log_text a; boxes := boxes a;
     save_queue := save_queue a ++ [x]; started := started a |}.

(** [self.worker.start()] *)
Definition worker_start (x : worker_args) (a : app) : app :=
  {| worker := worker a; cancel_event := cancel_event a;
     folder_var := folder_var a; selected_only_var := selected_only_var a;
     tree := tree a; next_iid := next_iid a; item_to_path := item_to_path a;
     start_btn := start_btn a; cancel_btn := cancel_btn a;
     pbar_maximum := pbar_maximum a; pbar_value := pbar_value a;
     status_var := status_var a; log_text := log_text a; boxes := boxes a;
     save_queue := save_queue a; started := started a ++ [x] |}.

(** The window after [App.__init__]; the progress bar has the maximum Tk
    gives it. *)
Definition init : app :=
  {| worker := None; cancel_event := false; folder_var := [];
     selected_only_var := false; tree := []; next_iid := 1;
     item_to_path := ∅; start_btn := false; cancel_btn := false;
     pbar_maximum := 100; pbar_value := 0; status_var := TxtChooseFolder;
     log_text := []; boxes := []; save_queue := []; started := [] |}.

Section Handlers.
Context {rt : PyRuntime} (d : desktop).

(** The key of both sorts: [p.name.lower()]. *)
Definition name_key (p : dir_entry) : str := lower (path_name (entry_path p)).

(** [App._set_busy] *)
Definition set_busy (busy : bool) (total : Z) (a : app) : app :=
  set_pbar (Z.max total 1) 0
    (set_cancel_btn busy (set_start_btn (negb busy) a)).

(** One turn of the loop that fills the tree: [self.tree.insert] and the
    entry of [item_to_path]. *)
Definition insert_row (a : app) (p : dir_entry) : app :=
  let iid := next_iid a in
  set_rows (tree a ++ [(iid, path_name (entry_path p), entry_size p)])
    (S iid) (<[iid := p]> (item_to_path a)) a.

(** [App._refresh_list] *)
Definition refresh_list (a : app) : control * app :=
  let folder_str := strip (folder_var a) in
  let a := set_rows [] (next_iid a) ∅ a in
  if bool_decide (folder_str = []) then
    (Returned, set_start_btn false (set_status_var TxtChooseFolder a))
  else if negb (path_exists d folder_str) then
    (Returned, set_start_btn false (set_status_var TxtFolderMissing a))
  else
    match iterdir d folder_str with
    | None => (Raised, a)
    | Some listing =>
        let files := scan_folder listing in
        let a := foldl insert_row a files in
        (Returned,
         set_start_btn (negb (bool_decide (files = [])))
           (set_status_var (TxtFound (Z.of_nat (length files))) a))
    end.

(** [App._browse_folder]; [chosen] is what [askdirectory] returns. *)
Definition browse_folder (chosen : str) (a : app) : control * app :=
  if bool_decide (chosen = []) then (Returned, a)
  else refresh_list (set_folder_var chosen a).

(** [App._start_merge]; [selected_iids] is what [self.tree.selection()]
    returns. *)
Definition start_merge (selected_iids : list nat) (a : app) : control * app :=
  match worker a with
  | Some _ => (Returned, a)
  | None =>
      let folder := strip (folder_var a) in
      match iterdir d folder with
      | None => (Raised, a)
      | Some listing =>
          let all_files := scan_folder listing in
          let files :=
            if selected_only_var a
            then sorted_by name_key
                   (omap (λ iid, item_to_path a !! iid) selected_iids)
            else all_files in
          if bool_decide (files = []) then
            (Returned,
             show_box (if selected_only_var a then BoxNothingSelected
                       else BoxNoExcelFiles) a)
          else
            let a := log LineStart a in
            let a := set_cancel_event false a in
            let args := {| folder := folder; files := files |} in
            let a := set_worker (Some args) a in
            let a := set_busy true (Z.of_nat (length files)) a in
            (Returned, worker_start args a)
      end
  end.

(** [App._cancel_merge] *)
Definition cancel_merge (a : app) : app :=
  match worker a with
  | None => a
  | Some _ => log LineCancelSent (set_cancel_event true a)
  end.

(** [App._handle_save_request]: one turn of the loop for each round of the
    dialog. *)
Fixpoint handle_save_request (suggested_name : str)
    (answers : list dialog_answer) (a : app)
  : control * app * list dialog_answer :=
  match answers with
  | [] => (Waiting, a, [])
  | r :: rest =>
      let path := chosen_path r in
      if bool_decide (path ≠ []) then
        let normalized := normpath d path in
        let normalized :=
          if bool_decide (path_suffix normalized = [])
          then normalized ++ lit ".xlsx" else normalized in
        let parent := path_parent d normalized in
        if path_exists d parent
        then (Returned, save_queue_put (Some normalized) a, rest)
        else handle_save_request suggested_name rest
               (show_box (BoxNoParent parent) a)
      else if retry r then handle_save_request suggested_name rest a
      else (Returned, save_queue_put None a, rest)
  end.

(** [App._handle_done] *)
Definition handle_done (st : status) (a : app) : control * app :=
  let a := set_worker None a in
  let a := set_busy false 0 a in
  match refresh_list a with
  | (Returned, a) =>
      (Returned,
       match st with
       | Saved => log LineSaved (set_status_var TxtSaved a)
       | Cancelled => log LineCancelled (set_status_var TxtCancelled a)
       | NoSave => log LineNoSave (set_status_var TxtNoSave a)
       | Error =>
           show_box BoxError (log LineError (set_status_var TxtError a))
       end)
  | r => r
  end.

(** One activation of [App._poll_ui_queue]: [msgs] are the messages that
    [get_nowait] returns before the queue is found empty, [answers] what
    the user does in the dialogs opened meanwhile.  An exception that
    leaves a handler leaves the loop. *)
Fixpoint poll_ui_queue (msgs : list event) (answers : list dialog_answer)
    (a : app) : control * app :=
  match msgs with
  | [] => (Returned, a)
  | Log m :: rest => poll_ui_queue rest answers (log (LineWorker m) a)
  | Progress current total filename :: rest =>
      poll_ui_queue rest answers
        (set_status_var (TxtProgress current total filename)
           (set_pbar (Z.max total 1) current a))
  | RequestSave suggested_name :: rest =>
      match handle_save_request suggested_name answers a with
      | (Returned, a, answers) => poll_ui_queue rest answers a
      | (c, a, _) => (c, a)
      end
  | Done st :: rest =>
      match handle_done st a with
      | (Returned, a) => poll_ui_queue rest answers a
      | r => r
      end
  | ErrorEvent _ :: rest => poll_ui_queue rest answers a
  end.

End Handlers.

(** What happens to the window: the user types into the folder field or
    ticks the box, presses a button, or Tk calls the polling handler. *)
Inductive action :=
  | TypeFolder (text : str)
  | TickSelectedOnly (b : bool)
  | BrowseFolder (chosen : str)
  | RefreshList
  | StartMerge (selected_iids : list nat)
  | CancelMerge
  | PollUiQueue (msgs : list event) (answers : list dialog_answer).

(** The window after one action, however its handler ends. *)
Definition step {rt : PyRuntime} (d : desktop) (act : action) (a : app)
  : app :=
  match act with
  | TypeFolder text => set_folder_var text a
  | TickSelectedOnly b => set_selected_only_var b a
  | BrowseFolder chosen => (browse_folder d chosen a).2
  | RefreshList => (refresh_list d a).2
  | StartMerge selected_iids => (start_merge d selected_iids a).2
  | CancelMerge => cancel_merge a
  | PollUiQueue msgs answers => (poll_ui_queue d msgs answers a).2
  end.

(** The window after a sequence of actions, each with the file system of
    its moment. *)
Definition run_actions {rt : PyRuntime} (l : list (desktop * action))
    (a : app) : app :=
  foldl (λ a x, step x.1 x.2 a) a l.

End Window.

(* ================================================================= *)
(** * Part II: the vocabulary of the properties *)

(** ** Orders, judgments on worker computations, invariants *)

(** A registry that holds the base and all 9998 suffixed candidates. *)
Definition crowded (base : str) : gset str :=
  list_to_set (base :: (Naming.candidate base <$> py_range 2 10000)).

(** [a <= b], as the sort tests it: not [b < a]. *)
Definition str_le (a b : str) : Prop := str_ltb b a = false.

(** The order the result of [sorted_by] is sorted in. *)
Definition key_le {A} (key : A → str) (x y : A) : Prop :=
  str_le (key x) (key y).

(** [m] keeps the state property [I], whatever its outcome. *)
Definition preserves {A} (I : wstate → Prop) (m : M A) : Prop :=
  ∀ s, I s → I (exec m s).

(** [m] never suspends the thread. *)
Definition nonblocking {A} (m : M A) : Prop := ∀ s, outcome m s ≠ None.

(** [m] always returns normally. *)
Definition returns {A} (m : M A) : Prop :=
  ∀ s, ∃ a, outcome m s = Some (Ok a).

(** [m] never raises. *)
Definition noraise {A} (m : M A) : Prop :=
  ∀ s e, outcome m s ≠ Some (Raise e).

(** From a state where [P] holds, [m] ends in a state where [Q] holds. *)
Definition hoare {A} (P : wstate → Prop) (m : M A) (Q : wstate → Prop) :=
  ∀ s, P s → Q (exec m s).

(** The progress messages sent so far are [L]. *)
Definition progress_is (L : list (Z * Z * str)) (s : wstate) : Prop :=
  progress_events (ui_queue s) = L.

(** The payloads the loop over the files sends when it starts at [idx]. *)
Definition expected_progress {rt : PyRuntime} (total idx : Z) (files : list str)
  : list (Z * Z * str) :=
  imap (λ i p, (idx + Z.of_nat i, total, path_name p)) files.

(** The messages put on the queue between two states of one run. *)
Definition events_since (s s' : wstate) : list event :=
  drop (length (ui_queue s)) (ui_queue s').

(** The messages of [n] failed attempts. *)
Definition failed_events (suggested : str) (n : nat) : list event :=
  concat (replicate n [RequestSave suggested; Log (MsgSaveFailed HostError)]).

(** [k] cancellation tests were made and the completion messages are [D]. *)
Definition reading (k : nat) (D : list status) (s : wstate) : Prop :=
  cancel_checks s = k ∧ done_events (ui_queue s) = D.

(** The terminal status of a run of the fallback strategy that comes to its
    end: [Cancelled] when the cancellation flag is set at the moment the
    process has exited, the status of the exit code otherwise. *)
Definition fallback_status (flag_set : bool) (rc : Z) : status :=
  if flag_set then Cancelled else spec_exit_status rc.

(** What holds of one host step; [P0] are the placeholders the destination
    started with. *)
Definition step_ok (P0 : list sheet) (st : host_step) : Prop :=
  sheets_before st ≠ [] ∧ sheets_after st ≠ []
  ∧ ∀ sh, step_op st = OpDelete sh →
          (1 < length (sheets_before st))%nat ∧ sh ∈ P0.

(** A deletion comes only after some copy. *)
Definition deletes_after_copy (t : list host_step) : Prop :=
  ∀ t1 st t2 sh, t = t1 ++ st :: t2 → step_op st = OpDelete sh → has_copy t1.

(** The invariant of the run. *)
Definition Inv (P0 : list sheet) (s : wstate) : Prop :=
  dest s ≠ []
  ∧ NoDup (sid <$> dest s)
  ∧ Forall (λ x, (sid x < next_sid s)%nat) (dest s)
  ∧ chained P0 (trace s) (dest s)
  ∧ Forall (step_ok P0) (trace s)
  ∧ deletes_after_copy (trace s)
  ∧ (copied_any s = true → has_copy (trace s)).

(** The invariant once a worksheet has been copied. *)
Definition InvC (P0 : list sheet) (s : wstate) : Prop :=
  Inv P0 s ∧ has_copy (trace s).

(** ** Scenarios

    Concrete folders, hosts and runs on which the properties are tried. *)

Module Demo.
Local Existing Instance ascii_runtime.

Definition file (n : string) : dir_entry :=
  {| entry_path := lit "C:\in\" ++ lit n; entry_is_dir := false;
     entry_size := 1024 |}.

Definition subdir (n : string) : dir_entry :=
  {| entry_path := lit "C:\in\" ++ lit n; entry_is_dir := true;
     entry_size := 0 |}.

Definition fileA : str := lit "C:\in\A.xlsx".
Definition fileB : str := lit "C:\in\B.xlsx".
Definition fileC : str := lit "C:\in\C.xlsx".

(** A host that holds three workbooks, names a fresh copy after its source
    with a mark, rejects a name another worksheet already has, and can save
    from the third attempt on; [got] says how far the acquisition gets and
    [closes] which calls of [Close] succeed. *)
Definition demo_host (got : acquired) (closes : nat → bool) : world := {|
  com_available := true;
  acquisition := got;
  close_dest_ok := closes;
  quit_ok := λ _, true;
  cancel_event := λ _, false;
  clock := lit "20240101_120000";
  open_workbook := λ p,
    if bool_decide (p = fileA) then Some [lit "Jan"; lit "Feb"]
    else if bool_decide (p = fileB) then Some [lit "Jan"; lit "Mar"]
    else None;
  copy_ok := λ _ _, true;
  auto_name := λ _ d, d ++ lit " (2)";
  rename_ok := λ l i n,
    negb (bool_decide (n ∈ sheet_name <$> filter (λ sh, sid sh ≠ i) l));
  delete_ok := λ _ _, true;
  close_source_ok := λ _, true;
  save_ok := λ k _ _, bool_decide (2 ≤ k)%nat;
  initial_sheets_ok := true;
  script_exists := true;
  filelist_ok := true;
  popen_ok := true;
  stdin_write_ok := λ _, true;
  flag_write_ok := λ _, true;
  flag_unlink_ok := true;
  stdout_lines := [];
  exit_code := 0;
|}.

(** The host on which nothing of that fails. *)
Definition demo : world := demo_host Acquired (λ _, true).

(** A machine on which the application cannot be created. *)
Definition no_excel : world := demo_host NoExcel (λ _, true).

(** A host that refuses to close the destination workbook. *)
Definition stuck : world := demo_host Acquired (λ _, false).

Definition sheet1 : sheet := {| sid := 0; sheet_name := lit "Sheet1" |}.

Definition out1 : str := lit "C:\out\locked.xlsx".
Definition out2 : str := lit "C:\out\merged.xlsx".

Definition demo_start : wstate :=
  initial_state [sheet1] [Some out1; Some out1; Some out2].

(** The user dismisses the save dialog for good. *)
Definition abort_start : wstate := initial_state [sheet1] [None].

Definition demo_run : wstate :=
  exec (run demo (lit "C:\in") [fileA; fileB; fileC]) demo_start.

(** A machine without the automation modules: the script reports one file,
    asks for nothing and exits with [rc]; the cancellation flag is set from
    its test number [cancel_from] on (counting from 0). *)
Definition scripted (rc : Z) (cancel_from : nat) : world := {|
  com_available := false;
  acquisition := NoCom;
  close_dest_ok := λ _, false;
  quit_ok := λ _, false;
  cancel_event := λ k, bool_decide (cancel_from ≤ k)%nat;
  clock := lit "20240101_120000";
  open_workbook := λ _, None;
  copy_ok := λ _ _, false;
  auto_name := λ _ d, d;
  rename_ok := λ _ _ _, false;
  delete_ok := λ _ _, false;
  close_source_ok := λ _, false;
  save_ok := λ _ _ _, false;
  initial_sheets_ok := false;
  script_exists := true;
  filelist_ok := true;
  popen_ok := true;
  stdin_write_ok := λ _, true;
  flag_write_ok := λ _, true;
  flag_unlink_ok := true;
  stdout_lines := [lit "LOG|start" ++ [newline];
                   lit "PROGRESS|1|1|A.xlsx" ++ [newline];
                   lit "PROGRESS|one|1|A.xlsx" ++ [newline];
                   lit "LOG|saved" ++ [newline]];
  exit_code := rc;
|}.

Definition scripted_run (rc : Z) (cancel_from : nat) : wstate :=
  exec (run (scripted rc cancel_from) (lit "C:\in") [fileA])
       (initial_state [] []).

End Demo.

(** ** Valid sheet names *)

(** A name the host accepts for a worksheet, as far as the naming policy
    goes: not empty, at most 31 characters, none of the illegal ones. *)
Definition valid_sheet_name (n : str) : Prop :=
  n ≠ [] ∧ (length n ≤ 31)%nat ∧ ∀ c : char, c ∈ n → c ∉ Naming.illegal.

(** ** More vocabulary for the worker *)

(** The saves that succeeded during the steps [t]: path and format code. *)
Definition saved_ops (t : list host_step) : list (str * Z) :=
  omap (λ op, match op with OpSaveAs p f => Some (p, f) | _ => None end)
       (step_op <$> t).

(** So far the save requests are [R], the completion messages [D] and the
    successful saves [T]. *)
Definition unsaved (R : list str) (D : list status) (T : list (str * Z))
    (s : wstate) : Prop :=
  save_requests (ui_queue s) = R
  ∧ done_events (ui_queue s) = D
  ∧ saved_ops (trace s) = T.

(** From a state where [P] holds, [m] ends with an outcome and in a state
    that [Q] relates. *)
Definition triple {A} (P : wstate → Prop) (m : M A)
    (Q : option (result A) → wstate → Prop) : Prop :=
  ∀ s, P s → Q (outcome m s) (exec m s).

(** How the save handshake can end when it starts with the requests [R],
    the completion messages [D] and the saves [T]. *)
Definition save_ending (suggested : str) (R : list str) (D : list status)
    (T : list (str * Z)) {rt : PyRuntime}
    (o : option (result unit)) (s' : wstate) : Prop :=
  (∃ n, save_requests (ui_queue s') = R ++ replicate (S n) suggested)
  ∧ ((o = None
      ∧ done_events (ui_queue s') = D
      ∧ saved_ops (trace s') = T)
     ∨ (o = Some (Ok ())
        ∧ last (ui_queue s') = Some (Done NoSave)
        ∧ done_events (ui_queue s') = D ++ [NoSave]
        ∧ saved_ops (trace s') = T)
     ∨ (o = Some (Ok ())
        ∧ last (ui_queue s') = Some (Done Saved)
        ∧ done_events (ui_queue s') = D ++ [Saved]
        ∧ ∃ p, saved_ops (trace s') = T ++ [(p, fileformat_for_path p)])).

(** How a run of the primary strategy can end, seen from the state [s0] it
    started in: [k] is the number of the last test of the cancellation
    flag, [suggested] the name offered in the save requests. *)
Definition primary_ending {rt : PyRuntime} (w : world) (suggested : str)
    (s0 : wstate) (o : option (result unit)) (s' : wstate) : Prop :=
  ∃ k, cancel_checks s' = S k ∧
    if cancel_event w k then
      o = Some (Ok ())
      ∧ last (ui_queue s') = Some (Done Cancelled)
      ∧ done_events (ui_queue s') = done_events (ui_queue s0) ++ [Cancelled]
      ∧ save_requests (ui_queue s') = save_requests (ui_queue s0)
      ∧ saved_ops (trace s') = saved_ops (trace s0)
    else
      save_ending suggested (save_requests (ui_queue s0))
        (done_events (ui_queue s0)) (saved_ops (trace s0)) o s'.

(** The destination still starts with the worksheets [d0], whose identities
    are below [n0]; what follows them was created since. *)
Definition extends (d0 : list sheet) (n0 : nat) (s : wstate) : Prop :=
  ∃ added, dest s = d0 ++ added
           ∧ Forall (λ x, (n0 ≤ sid x < next_sid s)%nat) added
           ∧ (n0 ≤ next_sid s)%nat.

(** ** More vocabulary for the fallback strategy *)

(** The line written to the script for an answer: the path, or nothing for
    the abort signal, and a line feed. *)
Definition reply (a : option str) : str := default [] a ++ [newline].

(** Of the answers [Q0], the first [n] were taken and written to the script
    in order, after the lines [I0]; [n] requests were sent after the first
    [R0]. *)
Definition relayed (Q0 : list (option str)) (I0 : list str) (R0 : nat)
    (s : wstate) : Prop :=
  ∃ n, (n ≤ length Q0)%nat
       ∧ save_queue s = drop n Q0
       ∧ proc_stdin s = I0 ++ (reply <$> take n Q0)
       ∧ length (save_requests (ui_queue s)) = (R0 + n)%nat.

(** [m] keeps [I] whenever it comes to an end. *)
Definition ended {A} (I : wstate → Prop) (m : M A) : Prop :=
  ∀ s, I s → outcome m s ≠ None → I (exec m s).

(** The three messages by which [run] reports an exception. *)
Definition error_report (e : exn) : list event :=
  [Log (MsgError e); ErrorEvent e; Done Error].

(** ** Vocabulary for the window *)

(** The list of files a worker may be given: not empty, Excel files only,
    sorted by lower-cased name. *)
Definition good_args {rt : PyRuntime} (x : Window.worker_args) : Prop :=
  Window.files x ≠ []
  ∧ Forall (λ p, is_excel_file p = true) (Window.files x)
  ∧ StronglySorted (key_le Window.name_key) (Window.files x).

(** What holds of the window between two handlers. *)
Definition window_ok {rt : PyRuntime} (a : Window.app) : Prop :=
  Window.cancel_btn a = bool_decide (is_Some (Window.worker a))
  ∧ 1 ≤ Window.pbar_maximum a
  ∧ (∀ iid p, Window.item_to_path a !! iid = Some p → is_excel_file p = true)
  ∧ Forall good_args (Window.started a).

(** The row [r] of the file list stands for the file [p]: the map from the
    identifiers has [p] for the identifier of the row, and the row shows the
    name and the size of [p]. *)
Definition row_of {rt : PyRuntime} (a : Window.app) (r : nat * str * Z)
    (p : dir_entry) : Prop :=
  Window.item_to_path a !! r.1.1 = Some p
  ∧ r.1.2 = path_name (entry_path p)
  ∧ r.2 = entry_size p.

(** Every row of the file list stands for an Excel file, and its identifier
    is one that [self.tree.insert] has handed out. *)
Definition rows_ok {rt : PyRuntime} (a : Window.app) : Prop :=
  Forall (λ r, (r.1.1 < Window.next_iid a)%nat
               ∧ ∃ p, row_of a r p ∧ is_excel_file p = true)
    (Window.tree a).

(** The path handed to the worker for the path the dialog returned. *)
Definition save_path_for {rt : PyRuntime} (d : Window.desktop) (raw : str)
  : str :=
  if bool_decide (path_suffix (Window.normpath d raw) = [])
  then Window.normpath d raw ++ lit ".xlsx" else Window.normpath d raw.

(** ** More scenarios *)

Module DemoMore.
Import Demo.
Local Existing Instance ascii_runtime.

(** A destination with its placeholder and one copied worksheet. *)
Definition jan : sheet := {| sid := 1; sheet_name := lit "Jan" |}.

Definition copied_state : wstate :=
  {| dest := [sheet1; jan]; next_sid := 2; copied_any := true;
     ui_queue := []; save_queue := []; cancel_checks := 0;
     save_attempts := 0; teardown_calls := 0; trace := []; proc_stdin := [];
     cancel_flag_file := false |}.

(** A script that asks once where to save, and exits with [rc]; [takes]
    says which lines written to it arrive. *)
Definition asking_pipe (takes : nat → bool) (rc : Z) : world := {|
  com_available := false;
  acquisition := NoCom;
  close_dest_ok := λ _, false;
  quit_ok := λ _, false;
  cancel_event := λ _, false;
  clock := lit "20240101_120000";
  open_workbook := λ _, None;
  copy_ok := λ _ _, false;
  auto_name := λ _ d, d;
  rename_ok := λ _ _ _, false;
  delete_ok := λ _ _, false;
  close_source_ok := λ _, false;
  save_ok := λ _ _ _, false;
  initial_sheets_ok := false;
  script_exists := true;
  filelist_ok := true;
  popen_ok := true;
  stdin_write_ok := takes;
  flag_write_ok := λ _, true;
  flag_unlink_ok := true;
  stdout_lines := [lit "LOG|start" ++ [newline];
                   lit "REQUEST_SAVE|merged.xlsx" ++ [newline]];
  exit_code := rc;
|}.

Definition asking (rc : Z) : world := asking_pipe (λ _, true) rc.

(** The same machine when the process cannot be started. *)
Definition unstarted : world := {|
  com_available := false;
  acquisition := NoCom;
  close_dest_ok := λ _, false;
  quit_ok := λ _, false;
  cancel_event := λ _, false;
  clock := lit "20240101_120000";
  open_workbook := λ _, None;
  copy_ok := λ _ _, false;
  auto_name := λ _ d, d;
  rename_ok := λ _ _ _, false;
  delete_ok := λ _ _, false;
  close_source_ok := λ _, false;
  save_ok := λ _ _ _, false;
  initial_sheets_ok := false;
  script_exists := true;
  filelist_ok := true;
  popen_ok := false;
  stdin_write_ok := λ _, false;
  flag_write_ok := λ _, false;
  flag_unlink_ok := false;
  stdout_lines := [];
  exit_code := 0;
|}.

(** The host of [demo] with a user who asks to cancel while the first
    workbook is copied: the flag is set from the fourth test on.  [closes]
    says which calls of [Close] succeed. *)
Definition interrupted (closes : nat → bool) : world := {|
  com_available := true;
  acquisition := Acquired;
  close_dest_ok := closes;
  quit_ok := λ _, true;
  cancel_event := λ k, bool_decide (3 ≤ k)%nat;
  clock := clock demo;
  open_workbook := open_workbook demo;
  copy_ok := copy_ok demo;
  auto_name := auto_name demo;
  rename_ok := rename_ok demo;
  delete_ok := delete_ok demo;
  close_source_ok := close_source_ok demo;
  save_ok := save_ok demo;
  initial_sheets_ok := true;
  script_exists := true;
  filelist_ok := true;
  popen_ok := true;
  stdin_write_ok := λ _, true;
  flag_write_ok := λ _, true;
  flag_unlink_ok := true;
  stdout_lines := [];
  exit_code := 0;
|}.

Definition asking_start : wstate := initial_state [] [Some out2; None].

(** A desktop on which every folder exists and holds the two workbooks. *)
Definition desk : Window.desktop := {|
  Window.path_exists := λ _, true;
  Window.iterdir := λ _, Some [file "B.xlsx"; subdir "old"; file "a.xls"];
  Window.normpath := λ p, p;
  Window.path_parent := λ _, lit "C:\out";
|}.

(** The window while a merge of one file runs. *)
Definition busy : Window.app :=
  Window.set_cancel_btn true
    (Window.set_worker
       (Some {| Window.folder := lit "C:\in";
                Window.files := [file "a.xls"] |})
       Window.init).

End DemoMore.

(** ** The result of a merge *)

(** All worksheets of the source workbooks, in the order of the files; a
    workbook that cannot be opened has none. *)
Definition source_sheets (w : world) (files : list str) : list str :=
  mjoin ((λ p, default [] (open_workbook w p)) <$> files).

(** The destination holds the placeholders [P0], whose identities are below
    [n0], and after them [n] copies under valid, pairwise different names. *)
Definition merged (P0 : list sheet) (n0 : nat) (n : nat) (s : wstate)
  : Prop :=
  ∃ copies,
    dest s = P0 ++ copies
    ∧ length copies = n
    ∧ NoDup (sheet_name <$> copies)
    ∧ Forall (λ x, valid_sheet_name (sheet_name x)
                   ∧ (n0 ≤ sid x < next_sid s)%nat) copies
    ∧ (n0 ≤ next_sid s)%nat
    ∧ copied_any s = bool_decide (0 < n)%nat.

(** How a computation that may send the completion message has gone, when
    [D] are the completion messages sent before it: if it has returned, it
    has sent one completion message, as its last message; if it waits or
    has raised, it has sent none. *)
Definition completes (D : list status) (o : option (result unit))
    (s' : wstate) : Prop :=
  match o with
  | Some (Ok _) =>
      ∃ st, last (ui_queue s') = Some (Done st)
            ∧ done_events (ui_queue s') = D ++ [st]
  | _ => done_events (ui_queue s') = D
  end.

(* ================================================================= *)
(** * Part III: properties *)

Example sanitize_ex1 :
  Naming.sanitize_sheet_name (lit "  a/b:c  ") = lit "a_b_c".
Proof. reflexivity. Qed.

Example sanitize_ex2 : Naming.sanitize_sheet_name (lit "   ") = lit "Sheet".
Proof. reflexivity. Qed.

Example unique_ex1 :
  Naming.make_unique_sheet_name {[ lit "Jan"; lit "Jan_2" ]} (lit "Jan")
  = Ok (lit "Jan_3").
Proof. vm_compute. reflexivity. Qed.

(** ** Facts about trimming *)

Section Strip.

Implicit Types (s t : str) (c : char).

Lemma lstrip_split s :
  ∃ pre, s = pre ++ lstrip s ∧ Forall (λ c, is_space c = true) pre.
Proof.
  induction s as [|c t [pre [Heq Hpre]]]; simpl.
  - exists []. split; [done | constructor].
  - destruct (is_space c) eqn:Hc.
    + exists (c :: pre). split; [by rewrite Heq at 1 | by constructor].
    + exists []. split; [done | constructor].
Qed.

Lemma lstrip_head s c : head (lstrip s) = Some c → is_space c = false.
Proof.
  induction s as [|a t IH]; simpl; [done|].
  destruct (is_space a) eqn:Ha; [done|].
  simpl. intros [= <-]. done.
Qed.

Lemma lstrip_fix s :
  (∀ c, head s = Some c → is_space c = false) → lstrip s = s.
Proof.
  destruct s as [|a t]; simpl; [done|].
  intros H. by rewrite (H a eq_refl).
Qed.

Lemma rstrip_split s :
  ∃ post, s = rstrip s ++ post ∧ Forall (λ c, is_space c = true) post.
Proof.
  unfold rstrip. destruct (lstrip_split (reverse s)) as [pre [Heq Hpre]].
  exists (reverse pre). split.
  - rewrite <- reverse_app, <- Heq. by rewrite reverse_involutive.
  - by apply Forall_reverse.
Qed.

Lemma rstrip_last s c : last (rstrip s) = Some c → is_space c = false.
Proof.
  unfold rstrip. rewrite last_reverse. apply lstrip_head.
Qed.

Lemma rstrip_fix s :
  (∀ c, last s = Some c → is_space c = false) → rstrip s = s.
Proof.
  intros H. unfold rstrip. rewrite lstrip_fix.
  - apply reverse_involutive.
  - intros c Hc. apply H. by rewrite <- head_reverse.
Qed.

Lemma rstrip_head s c :
  head (rstrip s) = Some c → head s = Some c.
Proof.
  destruct (rstrip_split s) as [post [Heq _]].
  intros Hc. rewrite Heq. destruct (rstrip s); [done|]. done.
Qed.

Lemma strip_trimmed s : trimmed (strip s).
Proof.
  split; intros c Hc; unfold strip in *.
  - apply rstrip_head in Hc. by apply lstrip_head in Hc.
  - by apply rstrip_last in Hc.
Qed.

Lemma strip_fix s : trimmed s → strip s = s.
Proof.
  intros [Hh Hl]. unfold strip. rewrite (lstrip_fix s Hh). by apply rstrip_fix.
Qed.

Lemma strip_split s :
  ∃ pre post, s = pre ++ strip s ++ post ∧
    Forall (λ c, is_space c = true) pre ∧
    Forall (λ c, is_space c = true) post.
Proof.
  destruct (lstrip_split s) as [pre [H1 Hpre]].
  destruct (rstrip_split (lstrip s)) as [post [H2 Hpost]].
  exists pre, post. split; [|done].
  unfold strip. by rewrite <- H2.
Qed.

Lemma strip_idemp s : strip (strip s) = strip s.
Proof. apply strip_fix, strip_trimmed. Qed.

Lemma elem_of_strip s c : c ∈ strip s → c ∈ s.
Proof.
  destruct (strip_split s) as [pre [post [Heq _]]].
  intros Hc. rewrite Heq. set_solver.
Qed.

End Strip.

(** ** Properties of the sheet naming policy *)

Module NamingFacts.
Import Naming.

Implicit Types (s name base : str) (c ch : char) (E : gset str).

Lemma illegal_codes : illegal = [58; 92; 47; 63; 42; 91; 93]%N.
Proof. reflexivity. Qed.

Lemma underscore_legal : underscore ∉ illegal.
Proof. intros H. apply (bool_decide_pack _) in H. by vm_compute in H. Qed.

Lemma replace_illegal_legal ch : replace_illegal ch ∉ illegal.
Proof.
  unfold replace_illegal. case_bool_decide; [apply underscore_legal | done].
Qed.

Lemma replace_illegal_id ch : ch ∉ illegal → replace_illegal ch = ch.
Proof. intros H. unfold replace_illegal. by rewrite bool_decide_eq_false_2. Qed.

Lemma fmap_replace_illegal_id s :
  (∀ c, c ∈ s → c ∉ illegal) → replace_illegal <$> s = s.
Proof.
  induction s as [|a t IH]; intros H; [done|].
  rewrite fmap_cons, replace_illegal_id, IH; [done| |];
    intros; apply H; set_solver.
Qed.

Lemma default_label_legal c : c ∈ default_label → c ∉ illegal.
Proof.
  intros Hc Hi.
  assert (Forall (λ x, x ∉ illegal) default_label) as HF
    by (apply (bool_decide_unpack _); vm_compute; exact I).
  rewrite Forall_forall in HF. by apply (HF c).
Qed.

Lemma default_label_trimmed : trimmed default_label.
Proof. split; intros c [= <-]; reflexivity. Qed.

(** The two cases of [cleaned or "Sheet"]. *)
Lemma sanitize_cases name :
  let cleaned := strip (replace_illegal <$> name) in
  (cleaned = [] ∧ sanitize_sheet_name name = default_label) ∨
  (cleaned ≠ [] ∧ sanitize_sheet_name name = cleaned).
Proof.
  unfold sanitize_sheet_name. simpl.
  destruct (strip (replace_illegal <$> name)); [left | right]; done.
Qed.

Lemma sanitize_legal name c :
  c ∈ sanitize_sheet_name name → c ∉ illegal.
Proof.
  destruct (sanitize_cases name) as [[_ ->] | [_ ->]].
  - apply default_label_legal.
  - intros Hc%elem_of_strip. apply list_elem_of_fmap in Hc as [ch [-> _]].
    apply replace_illegal_legal.
Qed.

Lemma sanitize_nonempty name : sanitize_sheet_name name ≠ [].
Proof. by destruct (sanitize_cases name) as [[_ ->] | [? ->]]. Qed.

Lemma sanitize_trimmed name : trimmed (sanitize_sheet_name name).
Proof.
  destruct (sanitize_cases name) as [[_ ->] | [_ ->]].
  - apply default_label_trimmed.
  - apply strip_trimmed.
Qed.

(** A non-empty, trimmed name without illegal characters is left alone. *)
Lemma sanitize_fix s :
  s ≠ [] → trimmed s → (∀ c, c ∈ s → c ∉ illegal) →
  sanitize_sheet_name s = s.
Proof.
  intros Hne Htr Hleg. unfold sanitize_sheet_name.
  rewrite (fmap_replace_illegal_id s Hleg), (strip_fix s Htr).
  by destruct s.
Qed.

(** *** Truncation and candidates *)

Lemma slice_to_length s k : 0 ≤ k → (length (slice_to s k) ≤ Z.to_nat k)%nat.
Proof.
  intros Hk. unfold slice_to.
  destruct (Z.leb_spec 0 k); [|lia]. rewrite length_take. lia.
Qed.

Lemma slice_to_take s k : 0 ≤ k → slice_to s k = take (Z.to_nat k) s.
Proof. intros Hk. unfold slice_to. by destruct (Z.leb_spec 0 k); [|lia]. Qed.

Lemma elem_of_py_range n lo hi : n ∈ py_range lo hi ↔ lo ≤ n < hi.
Proof. unfold py_range. rewrite elem_of_seqZ. lia. Qed.

Lemma str_of_int_length n :
  2 ≤ n < 10000 → (1 ≤ length (str_of_int n) ≤ 4)%nat.
Proof.
  intros Hn.
  assert (forallb (λ n, (1 <=? length (str_of_int n))%nat
                        && (length (str_of_int n) <=? 4)%nat)
            (py_range 2 10000) = true) as H by (vm_compute; reflexivity).
  rewrite forallb_forall in H.
  specialize (H n). rewrite <- list_elem_of_In, elem_of_py_range in H.
  specialize (H Hn). apply andb_prop in H as [H1 H2].
  apply Nat.leb_le in H1, H2. lia.
Qed.

Lemma candidate_unfold base n :
  2 ≤ n < 10000 →
  candidate base n
  = take (30 - length (str_of_int n)) base ++ lit "_" ++ str_of_int n.
Proof.
  intros Hn. pose proof (str_of_int_length n Hn) as Hl.
  unfold candidate, truncate_sheet_name. cbn zeta.
  rewrite slice_to_take; rewrite length_app; simpl length; [|lia].
  f_equal. f_equal. lia.
Qed.

Lemma candidate_length base n :
  2 ≤ n < 10000 → (length (candidate base n) ≤ 31)%nat.
Proof.
  intros Hn. pose proof (str_of_int_length n Hn) as Hl.
  rewrite candidate_unfold by done.
  rewrite !length_app, length_take. simpl. lia.
Qed.

(** *** The probing loop *)

Lemma probe_Some E base ns (r : str) :
  probe E base ns = Some r →
  (r ∉ E) ∧
  (∃ i n, ns !! i = Some n ∧ r = candidate base n ∧
          ∀ j m, (j < i)%nat → ns !! j = Some m → candidate base m ∈ E).
Proof.
  induction ns as [|n ns IH]; simpl; [done|].
  case_bool_decide as Hin.
  - intros [Hc (i & k & Hi & -> & Hbefore)]%IH. split; [done|].
    exists (S i), k. repeat split; [done|].
    intros [|j] m Hj; simpl.
    + by intros [= <-].
    + apply Hbefore. lia.
  - intros [= <-]. split; [done|].
    exists 0%nat, n. repeat split. intros j m Hj. lia.
Qed.

Lemma probe_None E base ns :
  probe E base ns = None → ∀ n, n ∈ ns → candidate base n ∈ E.
Proof.
  induction ns as [|n ns IH]; simpl; [set_solver|].
  case_bool_decide as Hin; [|done].
  intros Hp m [->|Hm]%elem_of_cons; [done | by apply IH].
Qed.

(** *** Sanitizing *)

(** C2. For every string, [sanitize_sheet_name] (a total function) returns a
    name that contains none of the characters [: \ / ? * [ ]] and has at
    least one character.  It is obtained by replacing each illegal character
    by an underscore, trimming the surrounding whitespace, and substituting
    the fixed label "Sheet" when nothing is left. *)
Theorem sanitize_sheet_name_spec (name : str) :
  let replaced := replace_illegal <$> name in
  let cleaned := strip replaced in
  (∀ c, c ∈ lit ":\/?*[]" → c ∉ sanitize_sheet_name name) ∧
  (1 ≤ length (sanitize_sheet_name name))%nat ∧
  length replaced = length name ∧
  (∀ i ch, name !! i = Some ch →
     replaced !! i = Some (if bool_decide (ch ∈ illegal) then 95%N else ch)) ∧
  (∃ pre post, replaced = pre ++ cleaned ++ post ∧
     Forall (λ c, is_space c = true) pre ∧
     Forall (λ c, is_space c = true) post) ∧
  trimmed cleaned ∧
  sanitize_sheet_name name
  = (if bool_decide (cleaned = []) then lit "Sheet" else cleaned).
Proof.
  cbn zeta. repeat split.
  - intros c Hc Hin. by apply (sanitize_legal name c).
  - pose proof (sanitize_nonempty name).
    destruct (sanitize_sheet_name name); simpl; [done | lia].
  - apply length_fmap.
  - intros i ch Hi. by rewrite list_lookup_fmap, Hi.
  - apply strip_split.
  - by apply strip_trimmed.
  - by apply strip_trimmed.
  - destruct (sanitize_cases name) as [[Hc ->] | [Hc ->]]; cbn zeta in Hc.
    + by rewrite bool_decide_eq_true_2.
    + by rewrite bool_decide_eq_false_2.
Qed.

(** C10. [sanitize_sheet_name] is idempotent; a sanitized name has no
    illegal character and no surrounding whitespace, and the default label
    is a fixed point. *)
Theorem sanitize_sheet_name_idempotent (name : str) :
  sanitize_sheet_name (sanitize_sheet_name name) = sanitize_sheet_name name ∧
  (∀ c, c ∈ sanitize_sheet_name name → c ∉ illegal) ∧
  trimmed (sanitize_sheet_name name) ∧
  sanitize_sheet_name default_label = default_label.
Proof.
  split; [|split; [|split]].
  - apply sanitize_fix.
    + apply sanitize_nonempty.
    + apply sanitize_trimmed.
    + apply sanitize_legal.
  - apply sanitize_legal.
  - apply sanitize_trimmed.
  - reflexivity.
Qed.

(** *** Unique names *)

(** C1. For every set [E] of names and every desired name,
    [make_unique_sheet_name] either returns a name that is not in [E] and
    has at most 31 characters, namely the first free one among the
    sanitized-and-truncated base and the candidates for the suffixes
    [_2 .. _9999] (each the base cut so that base and suffix fit in 31
    characters), or, when the base and all those candidates are taken
    (9999 names in all), raises the exhaustion error.  The outcome depends
    only on the members of [E] and on the desired name. *)
Theorem make_unique_sheet_name_spec (E : gset str) (desired : str) :
  let base := truncate_sheet_name (sanitize_sheet_name desired) 31 in
  Z.of_nat (length (base :: (candidate base <$> py_range 2 10000))) = 9999 ∧
  (∀ n, 2 ≤ n < 10000 →
     candidate base n
     = take (30 - length (str_of_int n)) base ++ lit "_" ++ str_of_int n ∧
     (length (candidate base n) ≤ 31)%nat) ∧
  (∀ E' : gset str, (∀ x, x ∈ E' ↔ x ∈ E) →
     make_unique_sheet_name E' desired = make_unique_sheet_name E desired) ∧
  match make_unique_sheet_name E desired with
  | Ok r =>
      (r ∉ E) ∧ (length r ≤ 31)%nat ∧
      (((base ∉ E) ∧ r = base) ∨
       (base ∈ E ∧ ∃ n, 2 ≤ n < 10000 ∧ r = candidate base n ∧
                       ∀ m, 2 ≤ m < n → candidate base m ∈ E))
  | Raise e =>
      e = NameSpaceExhausted ∧ base ∈ E ∧
      ∀ n, 2 ≤ n < 10000 → candidate base n ∈ E
  end.
Proof.
  cbn zeta. split; [|split; [|split]].
  - rewrite length_cons, length_fmap. unfold py_range.
    rewrite length_seqZ. lia.
  - intros n Hn. split; [by apply candidate_unfold | by apply candidate_length].
  - intros E' HE. assert (E' = E) as -> by (apply set_eq; done). done.
  - unfold make_unique_sheet_name.
    set (base := truncate_sheet_name (sanitize_sheet_name desired) 31).
    assert (length base ≤ 31)%nat as Hbase
      by (pose proof (slice_to_length (sanitize_sheet_name desired) 31
                        ltac:(lia)); unfold base, truncate_sheet_name; lia).
    case_bool_decide as Hin.
    + destruct (probe E base (py_range 2 10000)) as [r|] eqn:Hp.
      * apply probe_Some in Hp as [Hr (i & n & Hi & -> & Hbefore)].
        unfold py_range in Hi. apply lookup_seqZ in Hi as [-> Hi].
        split; [done|]. split; [apply candidate_length; lia|].
        right. split; [done|]. exists (2 + Z.of_nat i).
        split; [lia|]. split; [done|].
        intros m Hm. apply (Hbefore (Z.to_nat (m - 2))); [lia|].
        unfold py_range. apply lookup_seqZ. lia.
      * split; [done|]. split; [done|].
        intros n Hn. apply (probe_None E base _ Hp).
        by apply elem_of_py_range.
    + split; [done|]. split; [done|]. by left.
Qed.

Lemma probe_all_taken E base ns :
  (∀ n, n ∈ ns → candidate base n ∈ E) → probe E base ns = None.
Proof.
  induction ns as [|n ns IH]; simpl; intros H; [done|].
  rewrite bool_decide_eq_true_2 by (apply H; set_solver).
  apply IH. intros m Hm. apply H. set_solver.
Qed.

Lemma make_unique_exhausted (desired : str) :
  let base := truncate_sheet_name (sanitize_sheet_name desired) 31 in
  make_unique_sheet_name (crowded base) desired = Raise NameSpaceExhausted.
Proof.
  cbn zeta. unfold make_unique_sheet_name, crowded.
  generalize (py_range 2 10000). intros ns.
  generalize (truncate_sheet_name (sanitize_sheet_name desired) 31).
  intros base.
  rewrite bool_decide_eq_true_2
    by (apply elem_of_list_to_set, elem_of_cons; by left).
  rewrite probe_all_taken; [reflexivity|].
  intros n Hn. apply elem_of_list_to_set, elem_of_cons. right.
  apply list_elem_of_fmap. eauto.
Qed.

Example make_unique_long :
  make_unique_sheet_name
    {[ lit "abcdefghijklmnopqrstuvwxyz01234" ]}
    (lit "abcdefghijklmnopqrstuvwxyz0123456789")
  = Ok (lit "abcdefghijklmnopqrstuvwxyz012_2").
Proof. vm_compute. reflexivity. Qed.

End NamingFacts.

(** ** The ASCII runtime on a few inputs *)

Module AsciiRuntimeExamples.
Local Existing Instance ascii_runtime.

Example name_ex : path_name (lit "C:\data\Book.One.XLSX") = lit "Book.One.XLSX".
Proof. reflexivity. Qed.

Example suffix_ex : path_suffix (lit "C:\data\Book.One.XLSX") = lit ".XLSX".
Proof. reflexivity. Qed.

Example suffix_hidden : path_suffix (lit "dir/.xlsx") = [].
Proof. reflexivity. Qed.

Example suffix_trailing_dot : path_suffix (lit "dir/book.") = [].
Proof. reflexivity. Qed.

Example int_ex1 : py_int (lit " 12 ") = Some 12.
Proof. reflexivity. Qed.

Example int_ex2 : py_int (lit "-7") = Some (-7).
Proof. reflexivity. Qed.

Example int_ex3 : py_int (lit "1x") = None ∧ py_int (lit "-") = None
                  ∧ py_int [] = None.
Proof. done. Qed.

Example fileformat_ex :
  fileformat_for_path (lit "C:\out\merged.XLSM") = 52
  ∧ fileformat_for_path (lit "C:\out\merged.csv") = 51
  ∧ fileformat_for_path (lit "C:\out\merged.xls") = 56.
Proof. done. Qed.
End AsciiRuntimeExamples.

(** ** String order and sorting *)

Section StrOrder.

Implicit Types a b c : str.

Lemma str_ltb_irrefl a : str_ltb a a = false.
Proof.
  induction a as [|x a IH]; simpl; [done|].
  by rewrite N.ltb_irrefl.
Qed.

Lemma str_ltb_asym a b : str_ltb a b = true → str_ltb b a = false.
Proof.
  revert b. induction a as [|x a IH]; intros [|y b]; simpl; try done.
  destruct (N.ltb_spec x y), (N.ltb_spec y x); try done; try lia.
  apply IH.
Qed.

Lemma str_le_total a b : str_le a b ∨ str_le b a.
Proof.
  unfold str_le. destruct (str_ltb b a) eqn:Hba; [|by left].
  right. by apply str_ltb_asym.
Qed.

Lemma str_le_trans a b c : str_le a b → str_le b c → str_le a c.
Proof.
  unfold str_le. revert b c.
  induction a as [|x a IH]; intros [|y b] [|z c]; simpl; try done.
  destruct (N.ltb_spec y x), (N.ltb_spec x y), (N.ltb_spec z y),
    (N.ltb_spec y z), (N.ltb_spec z x), (N.ltb_spec x z);
    try done; try lia.
  apply IH.
Qed.

Lemma str_le_antisym a b : str_le a b → str_le b a → a = b.
Proof.
  unfold str_le. revert b.
  induction a as [|x a IH]; intros [|y b]; simpl; try done.
  destruct (N.ltb_spec y x), (N.ltb_spec x y); try done; try lia.
  intros H1 H2. f_equal; [lia | by apply IH].
Qed.

Global Instance str_le_antisymm : AntiSymm (=) str_le.
Proof. intros a b. apply str_le_antisym. Qed.

End StrOrder.

Section SortedFacts.
Context {A : Type} (key : A → str).

Implicit Types (x y : A) (l : list A).

Local Abbreviation key_le := (key_le key).

Lemma insert_by_perm x l : insert_by key x l ≡ₚ x :: l.
Proof.
  induction l as [|y l IH]; simpl; [done|].
  destruct (str_ltb (key y) (key x)); [|done].
  rewrite IH. apply Permutation_swap.
Qed.

Lemma sorted_by_perm l : sorted_by key l ≡ₚ l.
Proof.
  induction l as [|x l IH]; simpl; [done|].
  by rewrite insert_by_perm, IH.
Qed.

Lemma insert_by_sorted x l :
  StronglySorted key_le l → StronglySorted key_le (insert_by key x l).
Proof.
  induction 1 as [|y l Hl IH Hy]; simpl.
  - repeat constructor.
  - destruct (str_ltb (key y) (key x)) eqn:Hyx.
    + constructor; [done|].
      rewrite insert_by_perm. constructor; [|done].
      unfold key_le, str_le. by apply str_ltb_asym.
    + constructor; [by constructor|].
      constructor; [done|].
      eapply Forall_impl; [exact Hy|].
      intros z Hz. by apply (str_le_trans _ (key y)).
Qed.

Lemma sorted_by_sorted l : StronglySorted key_le (sorted_by key l).
Proof.
  induction l as [|x l IH]; simpl; [constructor | by apply insert_by_sorted].
Qed.

Lemma sorted_by_fix l : StronglySorted key_le l → sorted_by key l = l.
Proof.
  induction 1 as [|x l Hl IH Hx]; simpl; [done|].
  rewrite IH. destruct Hx as [|y l' Hy _]; simpl; [done|].
  by rewrite Hy.
Qed.

(** Stability: entries with equal keys keep their relative order. *)
Lemma insert_by_stable (k : str) x l :
  filter (λ y, key y = k) (insert_by key x l)
  = filter (λ y, key y = k) (x :: l).
Proof.
  induction l as [|y l IH]; simpl; [done|].
  destruct (str_ltb (key y) (key x)) eqn:Hyx; [|done].
  rewrite !filter_cons in *.
  destruct (decide (key y = k)) as [Hy|Hy].
  - destruct (decide (key x = k)) as [Hx|Hx].
    + rewrite Hy, Hx, str_ltb_irrefl in Hyx. done.
    + by rewrite IH.
  - by rewrite IH.
Qed.

Lemma sorted_by_stable (k : str) l :
  filter (λ y, key y = k) (sorted_by key l) = filter (λ y, key y = k) l.
Proof.
  induction l as [|x l IH]; simpl; [done|].
  rewrite insert_by_stable, !filter_cons. by rewrite IH.
Qed.

Lemma NoDup_fmap_inj_on l x y :
  NoDup (key <$> l) → x ∈ l → y ∈ l → key x = key y → x = y.
Proof.
  induction l as [|z l IH]; [by intros _ ?%elem_of_nil|].
  rewrite fmap_cons, NoDup_cons.
  intros [Hz Hnd] [->|Hx]%elem_of_cons [->|Hy]%elem_of_cons Hk; [done| | |].
  - destruct Hz. rewrite Hk. by apply list_elem_of_fmap_2.
  - destruct Hz. rewrite <- Hk. by apply list_elem_of_fmap_2.
  - by apply IH.
Qed.

(** Without repeated keys the result does not depend on the order in which
    the entries are enumerated. *)
Lemma sorted_by_perm_invariant l1 l2 :
  l1 ≡ₚ l2 → NoDup (key <$> l1) → sorted_by key l1 = sorted_by key l2.
Proof.
  intros Hp Hnd. apply (StronglySorted_unique_strong key_le).
  - intros x y Hx Hy Hxy Hyx. rewrite sorted_by_perm in Hx, Hy.
    apply (NoDup_fmap_inj_on l1); [done | done | by rewrite Hp |].
    by apply str_le_antisym.
  - apply sorted_by_sorted.
  - apply sorted_by_sorted.
  - by rewrite !sorted_by_perm.
Qed.

End SortedFacts.

(** ** Folder scan and file-format selection *)

Lemma filter_all {A} (P : A → Prop) `{∀ x, Decision (P x)} (l : list A) :
  Forall P l → filter P l = l.
Proof.
  induction 1 as [|x l Hx Hl IH]; [done|].
  by rewrite filter_cons, decide_True, IH.
Qed.

Section FilesFacts.
Context {rt : PyRuntime}.

Implicit Types (p : dir_entry) (listing : list dir_entry).

Lemma is_excel_file_true p :
  is_excel_file p = true ↔
    entry_is_dir p = false
    ∧ startswith (path_name (entry_path p)) (lit "~$") = false
    ∧ lower (path_suffix (entry_path p)) ∈ EXCEL_EXTS.
Proof.
  unfold is_excel_file.
  destruct (entry_is_dir p); [split; [done | by intros [? _]]|].
  destruct (startswith _ _); [split; [done | by intros (_ & ? & _)]|].
  rewrite bool_decide_eq_true. tauto.
Qed.

Lemma elem_of_EXCEL_EXTS (e : str) :
  e ∈ EXCEL_EXTS ↔
    e = lit ".xls" ∨ e = lit ".xlsx" ∨ e = lit ".xlsm" ∨ e = lit ".xlsb".
Proof.
  unfold EXCEL_EXTS. rewrite !elem_of_union, !elem_of_singleton. tauto.
Qed.

(** C3. The folder scan keeps exactly the entries that are not
    directories, whose name does not start with the lock-file marker [~$]
    and whose (lower-cased) extension is one of [.xls .xlsx .xlsm .xlsb],
    each as often as the folder lists it; the result is sorted by
    lower-cased name; scanning is a function of the listing, a scan of its
    own result changes nothing, and when no two kept names agree up to
    case the result does not depend on the enumeration order either. *)
Theorem scan_folder_spec listing :
  let key := λ p, lower (path_name (entry_path p)) in
  (∀ p, p ∈ scan_folder listing ↔
     p ∈ listing
     ∧ entry_is_dir p = false
     ∧ startswith (path_name (entry_path p)) (lit "~$") = false
     ∧ (∃ e, e ∈ [lit ".xls"; lit ".xlsx"; lit ".xlsm"; lit ".xlsb"]
             ∧ lower (path_suffix (entry_path p)) = e))
  ∧ scan_folder listing ≡ₚ filter (λ p, is_excel_file p = true) listing
  ∧ StronglySorted (λ p q, str_ltb (key q) (key p) = false)
      (scan_folder listing)
  ∧ (∀ k, filter (λ p, key p = k) (scan_folder listing)
          = filter (λ p, key p = k)
              (filter (λ p, is_excel_file p = true) listing))
  ∧ scan_folder (scan_folder listing) = scan_folder listing
  ∧ (∀ listing',
       listing' ≡ₚ listing →
       NoDup (key <$> filter (λ p, is_excel_file p = true) listing) →
       scan_folder listing' = scan_folder listing).
Proof.
  cbn zeta. unfold scan_folder.
  set (key := λ p, lower (path_name (entry_path p))).
  set (kept := filter (λ p, is_excel_file p = true) listing).
  assert (∀ p, p ∈ kept ↔ p ∈ listing ∧ is_excel_file p = true) as Hkept
    by (intros p; unfold kept; rewrite list_elem_of_filter; tauto).
  split; [|split; [|split; [|split; [|split]]]].
  - intros p. rewrite sorted_by_perm, Hkept.
    rewrite is_excel_file_true, elem_of_EXCEL_EXTS. split.
    + intros (Hin & Hd & Hs & He). repeat split; try done.
      exists (lower (path_suffix (entry_path p))). split; [|done].
      rewrite !elem_of_cons. tauto.
    + intros (Hin & Hd & Hs & e & He & ->). repeat split; try done.
      rewrite !elem_of_cons, elem_of_nil in He. tauto.
  - apply sorted_by_perm.
  - apply (sorted_by_sorted key).
  - intros k. apply sorted_by_stable.
  - assert (filter (λ p, is_excel_file p = true) (sorted_by key kept)
            = sorted_by key kept) as ->.
    { apply filter_all, Forall_forall. intros p.
      rewrite sorted_by_perm, Hkept. tauto. }
    apply sorted_by_fix, sorted_by_sorted.
  - intros listing' Hp Hnd.
    apply sorted_by_perm_invariant; [|by rewrite Hp].
    by rewrite Hp.
Qed.

(** C9. The file-format code follows the (lower-cased) extension of the
    destination path: [.xlsx] gives 51, [.xlsm] 52, [.xlsb] 50, [.xls] 56,
    and every other extension 51. *)
Theorem fileformat_for_path_spec (path : str) :
  let ext := lower (path_suffix path) in
  (ext = lit ".xlsx" → fileformat_for_path path = 51)
  ∧ (ext = lit ".xlsm" → fileformat_for_path path = 52)
  ∧ (ext = lit ".xlsb" → fileformat_for_path path = 50)
  ∧ (ext = lit ".xls" → fileformat_for_path path = 56)
  ∧ (ext ∉ [lit ".xlsx"; lit ".xlsm"; lit ".xlsb"; lit ".xls"] →
     fileformat_for_path path = 51).
Proof.
  cbn zeta. unfold fileformat_for_path.
  repeat split; intros Hext.
  - by rewrite Hext.
  - by rewrite Hext.
  - by rewrite Hext.
  - by rewrite Hext.
  - rewrite !not_elem_of_cons in Hext.
    destruct Hext as (H1 & H2 & H3 & H4 & _).
    by rewrite !bool_decide_eq_false_2.
Qed.

End FilesFacts.

Module ScanExamples.
Import Demo.
Local Existing Instance ascii_runtime.

Example scan_ex :
  scan_folder [file "b.xlsx"; file "~$a.xlsx"; file "notes.txt";
               subdir "old.xlsx"; file "A.XLS"; file "c.xlsb"]
  = [file "A.XLS"; file "b.xlsx"; file "c.xlsb"].
Proof. vm_compute. reflexivity. Qed.

Example scan_nothing :
  scan_folder [file "~$a.xlsx"; file "notes.txt"; file "readme"] = [].
Proof. vm_compute. reflexivity. Qed.
End ScanExamples.

(** ** Reasoning about worker computations *)

Section MonadFacts.
Context {A B : Type}.
Implicit Types (m : M A) (f : A → M B) (h : exn → M A) (I : wstate → Prop).

Lemma bind_eq m f s :
  (m ≫= f) s =
    match m s with
    | (Some (Ok a), s') => f a s'
    | (Some (Raise e), s') => (Some (Raise e), s')
    | (None, s') => (None, s')
    end.
Proof. reflexivity. Qed.

Lemma bind_returns_eq m f s a :
  outcome m s = Some (Ok a) → (m ≫= f) s = f a (exec m s).
Proof.
  unfold outcome, exec. rewrite bind_eq.
  destruct (m s) as [[[x|e]|] s']; simpl; by intros [= ->].
Qed.

Lemma preserves_bind I m f :
  preserves I m → (∀ a, preserves I (f a)) → preserves I (m ≫= f).
Proof.
  intros Hm Hf s Hs. specialize (Hm s Hs). unfold exec in *.
  rewrite bind_eq. destruct (m s) as [[[a|e]|] s']; simpl in *; [|done..].
  by apply Hf.
Qed.

Lemma preserves_try_except I m h :
  preserves I m → (∀ e, preserves I (h e)) → preserves I (try_except m h).
Proof.
  intros Hm Hh s Hs. specialize (Hm s Hs). unfold exec, try_except in *.
  destruct (m s) as [[[a|e]|] s']; simpl in *; [done| |done].
  by apply Hh.
Qed.

Lemma preserves_try_finally I m (fin : M unit) :
  preserves I m → preserves I fin → preserves I (try_finally m fin).
Proof.
  intros Hm Hf s Hs. specialize (Hm s Hs). unfold exec, try_finally in *.
  destruct (m s) as [[r|] s']; simpl in *; [|done].
  specialize (Hf s' Hm). unfold exec in Hf.
  by destruct (fin s') as [[[[]|e]|] s'']; simpl in *.
Qed.

Lemma nonblocking_bind m f :
  nonblocking m → (∀ a, nonblocking (f a)) → nonblocking (m ≫= f).
Proof.
  intros Hm Hf s. specialize (Hm s). unfold outcome in *.
  rewrite bind_eq. destruct (m s) as [[[a|e]|] s']; simpl in *; [|done..].
  apply Hf.
Qed.

Lemma nonblocking_try_except m h :
  nonblocking m → (∀ e, nonblocking (h e)) → nonblocking (try_except m h).
Proof.
  intros Hm Hh s. specialize (Hm s). unfold outcome, try_except in *.
  destruct (m s) as [[[a|e]|] s']; simpl in *; [done| |done].
  apply Hh.
Qed.

Lemma returns_nonblocking m : returns m → nonblocking m.
Proof. intros Hm s. destruct (Hm s) as [a ->]. done. Qed.

Lemma returns_bind m f :
  returns m → (∀ a, returns (f a)) → returns (m ≫= f).
Proof.
  intros Hm Hf s. destruct (Hm s) as [a Ha].
  unfold outcome. rewrite (bind_returns_eq _ _ _ _ Ha). apply Hf.
Qed.

(** A handler that returns turns every exception into a normal return. *)
Lemma returns_try_except m h :
  nonblocking m → (∀ e, returns (h e)) → returns (try_except m h).
Proof.
  intros Hm Hh s. specialize (Hm s). unfold outcome, try_except in *.
  destruct (m s) as [[[a|e]|] s']; simpl in *; [by eexists| |done].
  apply Hh.
Qed.

Lemma returns_try_finally m (fin : M unit) :
  returns m → returns fin → returns (try_finally m fin).
Proof.
  intros Hm Hf s. destruct (Hm s) as [a Ha].
  unfold outcome, try_finally in *.
  destruct (m s) as [[r|] s']; simpl in *; [|done].
  destruct (Hf s') as [[] Hu]. unfold outcome in Hu.
  destruct (fin s') as [[[[]|e]|] s'']; simpl in *; try done.
  by exists a.
Qed.

End MonadFacts.

Section PrimitiveFacts.
Context {A : Type}.
Implicit Types (I : wstate → Prop).

Lemma preserves_ret I (a : A) : preserves I (mret a).
Proof. by intros s Hs. Qed.

Lemma preserves_raise I (e : exn) : preserves I (raise (A:=A) e).
Proof. by intros s Hs. Qed.

Lemma preserves_gets I (f : wstate → A) : preserves I (gets f).
Proof. by intros s Hs. Qed.

Lemma preserves_lift I (r : result A) : preserves I (lift r).
Proof. by intros s Hs. Qed.

Lemma preserves_modify I (f : wstate → wstate) :
  (∀ s, I s → I (f s)) → preserves I (modify f).
Proof. intros Hf s Hs. by apply Hf. Qed.

Lemma returns_ret (a : A) : returns (mret a).
Proof. intros s. by exists a. Qed.

Lemma returns_gets (f : wstate → A) : returns (gets f).
Proof. intros s. by eexists. Qed.

Lemma returns_modify (f : wstate → wstate) : returns (modify f).
Proof. intros s. by exists (). Qed.

Lemma nonblocking_raise (e : exn) : nonblocking (raise (A:=A) e).
Proof. by intros s. Qed.

Lemma nonblocking_lift (r : result A) : nonblocking (lift r).
Proof. by intros s. Qed.

End PrimitiveFacts.

Lemma preserves_suspended {A} (I : wstate → Prop) : preserves I (suspended (A:=A)).
Proof. by intros s Hs. Qed.

Lemma nonblocking_ret {A} (a : A) : nonblocking (mret a).
Proof. apply returns_nonblocking, returns_ret. Qed.

Lemma nonblocking_gets {A} (f : wstate → A) : nonblocking (gets f).
Proof. apply returns_nonblocking, returns_gets. Qed.

Lemma nonblocking_modify (f : wstate → wstate) : nonblocking (modify f).
Proof. apply returns_nonblocking, returns_modify. Qed.

Lemma nonblocking_try_finally {A} (m : M A) (fin : M unit) :
  nonblocking m → nonblocking fin → nonblocking (try_finally m fin).
Proof.
  intros Hm Hf s. specialize (Hm s). unfold outcome, try_finally in *.
  destruct (m s) as [[r|] s']; simpl in *; [|done].
  specialize (Hf s'). unfold outcome in Hf.
  by destruct (fin s') as [[[[]|e]|] s'']; simpl in *.
Qed.

(** When [m] returns, [m ≫= f] continues with [f] in the state [m] ends in. *)
Lemma exec_bind_returns {A B} (m : M A) (f : A → M B) s :
  returns m →
  ∃ a, outcome m s = Some (Ok a) ∧ (m ≫= f) s = f a (exec m s).
Proof.
  intros Hm. destruct (Hm s) as [a Ha]. exists a. split; [done|].
  by apply bind_returns_eq.
Qed.

(** The operations of the worker unfold to the primitives of the monad. *)
Create HintDb worker discriminated.

#[local] Hint Unfold put_event log request_save_path save_queue_get is_set
  record_step sheet_count existing_names host_open host_copy host_rename
  name_of host_delete host_close_source host_save_as host_close_dest
  host_quit close_source copy_sheet get_state : worker.

(** One structural step of a proof that a computation keeps a property. *)
Ltac preserves_struct :=
  lazymatch goal with
  | |- preserves _ (mbind _ _) => apply preserves_bind; [|intros ?]
  | |- preserves _ (mret _) => apply preserves_ret
  | |- preserves _ (try_except _ _) => apply preserves_try_except; [|intros ?]
  | |- preserves _ (try_finally _ _) => apply preserves_try_finally
  | |- preserves _ (raise _) => apply preserves_raise
  | |- preserves _ suspended => apply preserves_suspended
  | |- preserves _ (gets _) => apply preserves_gets
  | |- preserves _ (lift _) => apply preserves_lift
  | |- preserves _ (if ?b then _ else _) => destruct b
  | |- preserves _ (match ?x with _ => _ end) => destruct x
  end.

(** [side] proves that a state update keeps the property. *)
Ltac solve_preserves side :=
  repeat first
    [ preserves_struct
    | apply preserves_modify; side
    | progress autounfold with worker ].

Ltac nonblocking_struct :=
  lazymatch goal with
  | |- nonblocking (mbind _ _) => apply nonblocking_bind; [|intros ?]
  | |- nonblocking (mret _) => apply nonblocking_ret
  | |- nonblocking (try_except _ _) => apply nonblocking_try_except; [|intros ?]
  | |- nonblocking (try_finally _ _) => apply nonblocking_try_finally
  | |- nonblocking (raise _) => apply nonblocking_raise
  | |- nonblocking (gets _) => apply nonblocking_gets
  | |- nonblocking (modify _) => apply nonblocking_modify
  | |- nonblocking (lift _) => apply nonblocking_lift
  | |- nonblocking (if ?b then _ else _) => destruct b
  | |- nonblocking (match ?x with _ => _ end) => destruct x
  end.

Ltac solve_nonblocking :=
  repeat first [ nonblocking_struct | progress autounfold with worker ].

Ltac returns_struct :=
  lazymatch goal with
  | |- returns (mbind _ _) => apply returns_bind; [|intros ?]
  | |- returns (mret _) => apply returns_ret
  | |- returns (try_except _ _) => apply returns_try_except; [|intros ?]
  | |- returns (try_finally _ _) => apply returns_try_finally
  | |- returns (gets _) => apply returns_gets
  | |- returns (modify _) => apply returns_modify
  | |- returns (if ?b then _ else _) => destruct b
  | |- returns (match ?x with _ => _ end) => destruct x
  end.

Ltac solve_returns :=
  repeat first
    [ returns_struct | solve_nonblocking; fail
    | progress autounfold with worker ].

(** ** Progress messages of the primary strategy *)

Section ProgressFacts.
Context {rt : PyRuntime} (w : world).

Lemma progress_events_app q1 q2 :
  progress_events (q1 ++ q2) = progress_events q1 ++ progress_events q2.
Proof. apply omap_app. Qed.

Ltac quiet_side :=
  let s := fresh "s" in let Hs := fresh "Hs" in
  intros s Hs; unfold progress_is in *; simpl;
  rewrite ?progress_events_app; simpl; rewrite ?app_nil_r; exact Hs.

Lemma copy_sheet_quiet L path sidx desired :
  preserves (progress_is L) (copy_sheet w path sidx desired).
Proof. solve_preserves quiet_side. Qed.

Lemma sheet_loop_quiet L path names :
  ∀ sidx, preserves (progress_is L) (sheet_loop w path sidx names).
Proof.
  induction names as [|desired rest IH]; intros sidx; simpl.
  - apply preserves_ret.
  - solve_preserves quiet_side. apply IH.
Qed.

Lemma delete_initial_quiet L initial :
  preserves (progress_is L) (delete_initial w initial).
Proof.
  induction initial as [|sh rest IH]; simpl.
  - apply preserves_ret.
  - solve_preserves quiet_side. apply IH.
Qed.

Lemma remove_placeholders_quiet L initial :
  preserves (progress_is L) (remove_placeholders w initial).
Proof.
  unfold remove_placeholders. solve_preserves quiet_side.
  apply delete_initial_quiet.
Qed.

Lemma save_loop_quiet L suggested fuel :
  preserves (progress_is L) (save_loop w suggested fuel).
Proof.
  induction fuel as [|fuel IH]; simpl.
  - apply preserves_suspended.
  - solve_preserves quiet_side; apply IH.
Qed.

Lemma save_handshake_quiet L suggested :
  preserves (progress_is L) (save_handshake w suggested).
Proof. intros s Hs. by apply save_loop_quiet. Qed.

(** Handling one file never raises and never suspends. *)
Lemma copy_sheet_nonblocking path sidx desired :
  nonblocking (copy_sheet w path sidx desired).
Proof. solve_nonblocking. Qed.

Lemma sheet_loop_nonblocking path names :
  ∀ sidx, nonblocking (sheet_loop w path sidx names).
Proof.
  induction names as [|desired rest IH]; intros sidx; simpl.
  - apply nonblocking_ret.
  - solve_nonblocking. apply IH.
Qed.

Lemma process_file_returns total idx src_path :
  returns (process_file w total idx src_path).
Proof.
  unfold process_file, progress. solve_returns.
  apply nonblocking_bind; [solve_nonblocking|].
  intros names. apply sheet_loop_nonblocking.
Qed.

Lemma file_loop_returns total files :
  ∀ idx, returns (file_loop w total idx files).
Proof.
  induction files as [|src_path rest IH]; intros idx; simpl.
  - apply returns_ret.
  - solve_returns; [apply process_file_returns | apply IH].
Qed.

(** One file sends exactly one progress message, first of all. *)
Lemma process_file_progress L total idx src_path s :
  progress_is L s →
  progress_is (L ++ [(idx, total, path_name src_path)])
    (exec (process_file w total idx src_path) s).
Proof.
  intros Hs. unfold process_file.
  destruct (exec_bind_returns
              (progress idx total (path_name src_path))
              (λ _, log (MsgOpen (path_name src_path));;
                    try_finally
                      (try_except
                         (names ← host_open w src_path;
                          sheet_loop w src_path 1 names)
                         (λ e, log (MsgWarn (path_name src_path) e)))
                      (close_source w src_path)) s) as [[] [_ Heq]].
  { unfold progress. solve_returns. }
  unfold exec at 1. rewrite Heq. clear Heq.
  match goal with |- progress_is ?L' (?m ?s').2 =>
    change (progress_is L' (exec m s')) end.
  apply (preserves_bind (progress_is _)).
  - solve_preserves quiet_side.
  - intros _. solve_preserves quiet_side. apply sheet_loop_quiet.
  - unfold progress_is in *. simpl. rewrite progress_events_app, Hs. done.
Qed.

Lemma file_loop_progress total files :
  (∀ k, cancel_event w k = false) →
  ∀ idx L s,
    progress_is L s →
    progress_is (L ++ expected_progress total idx files)
      (exec (file_loop w total idx files) s).
Proof.
  intros Hnever.
  induction files as [|src_path rest IH]; intros idx L s Hs.
  - unfold expected_progress. simpl. by rewrite app_nil_r.
  - unfold exec. simpl file_loop. unfold is_set.
    rewrite !bind_eq. simpl. rewrite Hnever.
    destruct (exec_bind_returns
                (process_file w total idx src_path)
                (λ _, file_loop w total (idx + 1) rest)
                (set_cancel_checks (S (cancel_checks s)) s)
                (process_file_returns _ _ _)) as [[] [_ Heq]].
    rewrite Heq. clear Heq.
    match goal with |- progress_is ?L' (?m ?s').2 =>
      change (progress_is L' (exec m s')) end.
    unfold expected_progress. rewrite imap_cons.
    replace (L ++ (idx + Z.of_nat 0, total, path_name src_path)
               :: imap ((λ i p, (idx + Z.of_nat i, total, path_name p)) ∘ S) rest)
      with ((L ++ [(idx, total, path_name src_path)])
              ++ expected_progress total (idx + 1) rest).
    + apply IH. by apply process_file_progress.
    + rewrite <- app_assoc. simpl. rewrite Z.add_0_r. do 2 f_equal.
      unfold expected_progress. apply imap_ext. intros i p _. simpl.
      f_equal. f_equal. lia.
Qed.

Lemma hoare_bind_returns {A B} P R Q (m : M A) (f : A → M B) :
  returns m → hoare P m R → (∀ a, hoare R (f a) Q) → hoare P (m ≫= f) Q.
Proof.
  intros Hret Hm Hf s Hs.
  destruct (exec_bind_returns m f s Hret) as [a [_ Heq]].
  unfold exec at 1. rewrite Heq. apply Hf. by apply Hm.
Qed.

Lemma hoare_try_except {A} P R (m : M A) (h : exn → M A) :
  hoare P m R → (∀ e, preserves R (h e)) → hoare P (try_except m h) R.
Proof.
  intros Hm Hh s Hs. specialize (Hm s Hs). unfold exec, try_except in *.
  destruct (m s) as [[[a|e]|] s']; simpl in *; [done| |done].
  by apply Hh.
Qed.

Lemma hoare_try_finally {A} P R (m : M A) (fin : M unit) :
  hoare P m R → preserves R fin → hoare P (try_finally m fin) R.
Proof.
  intros Hm Hf s Hs. specialize (Hm s Hs). unfold exec, try_finally in *.
  destruct (m s) as [[r|] s1]; simpl in *; [|done].
  specialize (Hf s1 Hm). unfold exec in Hf.
  by destruct (fin s1) as [[[[]|e]|] s2].
Qed.

Lemma release_quiet L a : preserves (progress_is L) (release w a).
Proof. unfold release. solve_preserves quiet_side. Qed.

Lemma merge_workbooks_progress folder files L :
  (∀ k, cancel_event w k = false) →
  hoare (progress_is L)
    (merge_workbooks w folder files)
    (progress_is
       (L ++ expected_progress (Z.of_nat (length files)) 1 files)).
Proof.
  intros Hnever. unfold merge_workbooks.
  apply (hoare_bind_returns _ (progress_is L)); [solve_returns | |].
  { by intros s Hs. }
  intros initial_sheets.
  apply (hoare_bind_returns _ (progress_is L)); [solve_returns | |].
  { change (preserves (progress_is L)
              (log (MsgFileCount (Z.of_nat (length files))))).
    solve_preserves quiet_side. }
  intros _.
  apply (hoare_bind_returns _ (progress_is L)); [solve_returns | |].
  { change (preserves (progress_is L) (modify (set_copied_any false))).
    solve_preserves quiet_side. }
  intros _.
  eapply hoare_bind_returns; [apply file_loop_returns | |].
  { intros s Hs. by apply file_loop_progress. }
  intros _.
  match goal with |- hoare ?P ?m ?P => change (preserves P m) end.
  solve_preserves quiet_side.
  - apply remove_placeholders_quiet.
  - apply save_handshake_quiet.
Qed.

(** C7, as the code has it.  In a run of the primary strategy in which the
    host application and the destination workbook are acquired and during
    which cancellation is never requested, the progress messages are
    exactly one per source file, in the order of the list: the message for
    the file at (0-based) position [i] of [N] files carries
    [(i + 1, N, name of the file)], so the indices run through 1, 2, ...,
    N.  This holds whatever fails afterwards. *)
Theorem primary_progress_events folder files s :
  com_available w = true →
  acquisition w = Acquired →
  (∀ k, cancel_event w k = false) →
  let N := Z.of_nat (length files) in
  let sent := expected_progress N 1 files in
  progress_events (ui_queue (exec (run w folder files) s))
  = progress_events (ui_queue s) ++ sent
  ∧ length sent = length files
  ∧ (λ x, x.1.1) <$> sent = seqZ 1 N
  ∧ (∀ i p, files !! i = Some p →
            sent !! i = Some (Z.of_nat i + 1, N, path_name p)).
Proof.
  intros Hcom Hgot Hnever. cbn zeta. split; [|split; [|split]].
  - assert (hoare (progress_is (progress_events (ui_queue s)))
              (run w folder files)
              (progress_is
                 (progress_events (ui_queue s)
                  ++ expected_progress (Z.of_nat (length files)) 1 files)))
      as Hrun.
    { unfold run, run_impl, run_with, run_impl_primary. rewrite Hcom, Hgot.
      apply hoare_try_except.
      - apply hoare_try_finally.
        + by apply merge_workbooks_progress.
        + apply release_quiet.
      - intros e. solve_preserves quiet_side. }
    exact (Hrun s eq_refl).
  - unfold expected_progress. apply length_imap.
  - unfold expected_progress. apply list_eq. intros i.
    rewrite list_lookup_fmap, list_lookup_imap.
    destruct (files !! i) as [p|] eqn:Hi; simpl; symmetry.
    + apply lookup_seqZ. apply lookup_lt_Some in Hi. lia.
    + apply lookup_seqZ_ge. apply lookup_ge_None in Hi. lia.
  - intros i p Hi. unfold expected_progress.
    rewrite list_lookup_imap, Hi. simpl. do 3 f_equal. lia.
Qed.

End ProgressFacts.

(** ** The save handshake *)

Section SaveFacts.
Context {rt : PyRuntime} (w : world).

(** [Close], [Quit] and the completion message, as they follow each other
    at the three ends of [_run_impl]. *)
Local Abbreviation finish st :=
  (host_close_dest w;; host_quit w;; put_event (Done st)).

Lemma finish_eq st s :
  finish st s
  = let k := teardown_calls s in
    if close_dest_ok w k then
      if quit_ok w (S k) then
        (Some (Ok ()),
         set_ui_queue (ui_queue s ++ [Done st])
           (apply_step OpQuit (dest s)
              (set_teardown_calls (S (S k))
                 (apply_step OpCloseDest (dest s) s))))
      else
        (Some (Raise HostError),
         set_teardown_calls (S (S k)) (apply_step OpCloseDest (dest s) s))
    else (Some (Raise HostError), set_teardown_calls (S k) s).
Proof.
  unfold host_close_dest, host_quit, put_event, record_step, get_state.
  unfold mbind, M_bind, mret, M_ret, modify, gets, raise. simpl.
  destruct (close_dest_ok w (teardown_calls s)); [|done]. simpl.
  by destruct (quit_ok w (S (teardown_calls s))).
Qed.

(** The request and the answer taken from the queue. *)
Lemma request_save_path_eq suggested s :
  request_save_path suggested s
  = let s0 := set_ui_queue (ui_queue s ++ [RequestSave suggested]) s in
    match save_queue s with
    | [] => (None, s0)
    | a :: q => (Some (Ok a), set_save_queue q s0)
    end.
Proof.
  unfold request_save_path, save_queue_get, put_event.
  unfold mbind, M_bind, mret, M_ret, modify, gets, suspended. simpl.
  by destruct (save_queue s).
Qed.

(** One call of [SaveAs] with its two log lines. *)
Lemma try_save_eq p s :
  try_except
    (host_save_as w p (fileformat_for_path p);; log (MsgSaved p);; mret true)
    (λ e, log (MsgSaveFailed e);; mret false) s
  = let s1 := set_save_attempts (S (save_attempts s)) s in
    if save_ok w (save_attempts s) p (fileformat_for_path p) then
      (Some (Ok true),
       set_ui_queue (ui_queue s ++ [Log (MsgSaved p)])
         (apply_step (OpSaveAs p (fileformat_for_path p)) (dest s) s1))
    else
      (Some (Ok false),
       set_ui_queue (ui_queue s ++ [Log (MsgSaveFailed HostError)]) s1).
Proof.
  unfold host_save_as, log, put_event, record_step, get_state.
  unfold mbind, M_bind, mret, M_ret, modify, gets, raise, try_except. simpl.
  by destruct (save_ok w (save_attempts s) p (fileformat_for_path p)).
Qed.

(** One turn of the loop of the save handshake. *)
Lemma save_loop_step suggested fuel s :
  save_loop w suggested (S fuel) s
  = let s0 := set_ui_queue (ui_queue s ++ [RequestSave suggested]) s in
    match save_queue s with
    | [] => (None, s0)
    | None :: q =>
        finish NoSave
          (set_ui_queue (ui_queue s0 ++ [Log MsgSaveCancelled])
             (set_save_queue q s0))
    | Some p :: q =>
        let s1 := set_save_attempts (S (save_attempts s))
                    (set_save_queue q s0) in
        if save_ok w (save_attempts s) p (fileformat_for_path p) then
          finish Saved
            (set_ui_queue (ui_queue s1 ++ [Log (MsgSaved p)])
               (apply_step (OpSaveAs p (fileformat_for_path p)) (dest s) s1))
        else
          save_loop w suggested fuel
            (set_ui_queue (ui_queue s1 ++ [Log (MsgSaveFailed HostError)]) s1)
    end.
Proof.
  cbn [save_loop]. rewrite bind_eq, request_save_path_eq. cbv zeta.
  destruct (save_queue s) as [|[p|] q]; cbv beta iota; [reflexivity| |].
  - rewrite bind_eq, try_save_eq. cbn [save_attempts set_save_queue
      set_ui_queue dest].
    by destruct (save_ok w (save_attempts s) p (fileformat_for_path p)).
  - rewrite bind_eq. reflexivity.
Qed.

(** One failing attempt: the same request is issued again. *)
Lemma save_loop_failure suggested fuel s p q :
  save_queue s = Some p :: q →
  save_ok w (save_attempts s) p (fileformat_for_path p) = false →
  ∃ s', save_loop w suggested (S fuel) s = save_loop w suggested fuel s'
        ∧ ui_queue s' = ui_queue s ++ [RequestSave suggested;
                                       Log (MsgSaveFailed HostError)]
        ∧ save_queue s' = q
        ∧ save_attempts s' = S (save_attempts s)
        ∧ teardown_calls s' = teardown_calls s
        ∧ trace s' = trace s
        ∧ dest s' = dest s.
Proof.
  intros Hq Hfail. rewrite save_loop_step, Hq. cbv zeta. rewrite Hfail.
  eexists. split; [reflexivity|]. simpl.
  rewrite <- app_assoc. done.
Qed.

(** A path whose save succeeds: what is left is [Close], [Quit] and the
    completion message. *)
Lemma save_loop_success suggested fuel s p q :
  save_queue s = Some p :: q →
  save_ok w (save_attempts s) p (fileformat_for_path p) = true →
  ∃ s', save_loop w suggested (S fuel) s = finish Saved s'
        ∧ ui_queue s' = ui_queue s ++ [RequestSave suggested;
                                       Log (MsgSaved p)]
        ∧ save_queue s' = q
        ∧ teardown_calls s' = teardown_calls s
        ∧ trace s'
          = trace s ++ [{| step_op := OpSaveAs p (fileformat_for_path p);
                           sheets_before := dest s;
                           sheets_after := dest s |}]
        ∧ dest s' = dest s.
Proof.
  intros Hq Hok. rewrite save_loop_step, Hq. cbv zeta. rewrite Hok.
  eexists. split; [reflexivity|]. simpl.
  rewrite <- app_assoc. done.
Qed.

(** The abort answer: what is left is [Close], [Quit] and the completion
    message. *)
Lemma save_loop_abort suggested fuel s q :
  save_queue s = None :: q →
  ∃ s', save_loop w suggested (S fuel) s = finish NoSave s'
        ∧ ui_queue s' = ui_queue s ++ [RequestSave suggested;
                                       Log MsgSaveCancelled]
        ∧ save_queue s' = q
        ∧ teardown_calls s' = teardown_calls s
        ∧ trace s' = trace s
        ∧ dest s' = dest s.
Proof.
  intros Hq. rewrite save_loop_step, Hq. cbv zeta.
  eexists. split; [reflexivity|]. simpl.
  rewrite <- app_assoc. done.
Qed.

Lemma save_loop_waiting suggested fuel s :
  save_queue s = [] →
  ∃ s', save_loop w suggested (S fuel) s = (None, s')
        ∧ ui_queue s' = ui_queue s ++ [RequestSave suggested]
        ∧ trace s' = trace s
        ∧ dest s' = dest s.
Proof.
  intros Hq. rewrite save_loop_step, Hq. cbv zeta.
  eexists. split; [reflexivity|]. done.
Qed.

(** The three ends, by what [Close] and [Quit] do. *)
Lemma finish_cases st s :
  ∃ s', finish st s
        = (Some (if close_dest_ok w (teardown_calls s)
                    && quit_ok w (S (teardown_calls s))
                 then Ok () else Raise HostError), s')
        ∧ ui_queue s' = ui_queue s
              ++ (if close_dest_ok w (teardown_calls s)
                     && quit_ok w (S (teardown_calls s))
                  then [Done st] else [])
        ∧ (close_dest_ok w (teardown_calls s) = true →
           quit_ok w (S (teardown_calls s)) = true →
           step_op <$> trace s'
           = (step_op <$> trace s) ++ [OpCloseDest; OpQuit])
        ∧ saved_ops (trace s') = saved_ops (trace s)
        ∧ save_queue s' = save_queue s
        ∧ dest s' = dest s.
Proof.
  rewrite finish_eq. cbv zeta.
  destruct (close_dest_ok w (teardown_calls s)); cbn [andb].
  - destruct (quit_ok w (S (teardown_calls s))).
    + eexists. split; [reflexivity|].
      cbn [ui_queue trace save_queue dest set_ui_queue apply_step set_dest
           set_trace set_teardown_calls].
      split; [done|]. split; [|split; [|done]].
      * intros _ _. by rewrite !fmap_app, <- app_assoc.
      * unfold saved_ops. rewrite !fmap_app, !omap_app. simpl.
        by rewrite !app_nil_r.
    + eexists. split; [reflexivity|].
      cbn [ui_queue trace save_queue dest set_ui_queue apply_step set_dest
           set_trace set_teardown_calls].
      split; [by rewrite app_nil_r|]. split; [done|]. split; [|done].
      unfold saved_ops. rewrite !fmap_app, !omap_app. simpl.
      by rewrite !app_nil_r.
  - eexists. split; [reflexivity|].
    cbn [ui_queue trace save_queue dest set_teardown_calls].
    split; [by rewrite app_nil_r|]. done.
Qed.

Lemma save_requests_failed suggested n :
  save_requests (failed_events suggested n) = replicate n suggested.
Proof. induction n as [|n IH]; [done|]. simpl. by rewrite <- IH. Qed.

Lemma done_events_failed suggested n :
  done_events (failed_events suggested n) = [].
Proof. induction n as [|n IH]; [done|]. simpl. by rewrite <- IH. Qed.

Lemma failed_events_S suggested n :
  failed_events suggested (S n)
  = [RequestSave suggested; Log (MsgSaveFailed HostError)]
    ++ failed_events suggested n.
Proof. reflexivity. Qed.

Lemma events_since_app s s' evs :
  ui_queue s' = ui_queue s ++ evs → events_since s s' = evs.
Proof. unfold events_since. intros ->. apply drop_app_length. Qed.

(** A run of failing attempts takes the loop back to its head. *)
Lemma save_loop_failures suggested ps :
  ∀ s fuel rest,
    save_queue s = (Some <$> ps) ++ rest →
    (∀ i p, ps !! i = Some p →
            save_ok w (save_attempts s + i) p (fileformat_for_path p) = false) →
    ∃ s', save_loop w suggested (length ps + fuel) s
          = save_loop w suggested fuel s'
          ∧ ui_queue s' = ui_queue s ++ failed_events suggested (length ps)
          ∧ save_queue s' = rest
          ∧ save_attempts s' = (save_attempts s + length ps)%nat
          ∧ teardown_calls s' = teardown_calls s
          ∧ trace s' = trace s
          ∧ dest s' = dest s.
Proof.
  induction ps as [|p ps IH]; intros s fuel rest Hq Hfail.
  - exists s. simpl. rewrite app_nil_r, Nat.add_0_r. done.
  - destruct (save_loop_failure suggested (length ps + fuel) s p
                (fmap (M:=list) Some ps ++ rest) Hq)
      as (s1 & Heq1 & Hu1 & Hq1 & Ha1 & Hk1 & Ht1 & Hd1).
    { specialize (Hfail 0%nat p eq_refl). by rewrite Nat.add_0_r in Hfail. }
    destruct (IH s1 fuel rest Hq1)
      as (s2 & Heq2 & Hu2 & Hq2 & Ha2 & Hk2 & Ht2 & Hd2).
    { intros i p' Hi. rewrite Ha1.
      specialize (Hfail (S i) p' Hi).
      by replace (S (save_attempts s) + i)%nat
        with (save_attempts s + S i)%nat by lia. }
    exists s2. simpl length. simpl Nat.add. rewrite Heq1, Heq2.
    rewrite Hu2, Hu1, Hq2, Ha2, Ha1, Hk2, Hk1, Ht2, Ht1, Hd2, Hd1.
    rewrite failed_events_S, <- !app_assoc.
    repeat split; try done. lia.
Qed.

(** C5, as the code has it.  The save handshake.  After any number of
    failed save attempts the worker has issued the same request once per
    failure and once more, and (a) while no further answer arrives it
    waits, with no completion message sent; (b) on the abort answer it
    makes no save and calls [Close] and [Quit]: when both succeed it
    reports [NoSave], when one of them raises the exception leaves the
    handshake before any completion message; (c) on a path whose save
    succeeds it saves there and calls [Close] and [Quit]: when both succeed
    it reports [Saved], otherwise the exception leaves the handshake before
    any completion message.  With two failing paths before the valid one
    that makes three requests. *)
Theorem save_handshake_spec suggested s ps :
  (∀ i p, ps !! i = Some p →
          save_ok w (save_attempts s + i) p (fileformat_for_path p) = false) →
  let s' := exec (save_handshake w suggested) s in
  let result := outcome (save_handshake w suggested) s in
  let failed := failed_events suggested (length ps) in
  let closed := close_dest_ok w (teardown_calls s)
                && quit_ok w (S (teardown_calls s)) in
  (save_queue s = Some <$> ps →
     result = None
     ∧ events_since s s' = failed ++ [RequestSave suggested]
     ∧ save_requests (events_since s s')
       = replicate (S (length ps)) suggested
     ∧ done_events (events_since s s') = []
     ∧ trace s' = trace s)
  ∧ (∀ rest, save_queue s = (Some <$> ps) ++ None :: rest →
       save_requests (events_since s s')
       = replicate (S (length ps)) suggested
       ∧ saved_ops (trace s') = saved_ops (trace s)
       ∧ if closed then
           result = Some (Ok ())
           ∧ events_since s s'
             = failed ++ [RequestSave suggested; Log MsgSaveCancelled;
                          Done NoSave]
           ∧ done_events (events_since s s') = [NoSave]
           ∧ last (ui_queue s') = Some (Done NoSave)
           ∧ step_op <$> trace s'
             = (step_op <$> trace s) ++ [OpCloseDest; OpQuit]
         else
           result = Some (Raise HostError)
           ∧ events_since s s'
             = failed ++ [RequestSave suggested; Log MsgSaveCancelled]
           ∧ done_events (events_since s s') = [])
  ∧ (∀ p rest, save_queue s = (Some <$> ps) ++ Some p :: rest →
       save_ok w (save_attempts s + length ps) p (fileformat_for_path p)
       = true →
       save_requests (events_since s s')
       = replicate (S (length ps)) suggested
       ∧ saved_ops (trace s')
         = saved_ops (trace s) ++ [(p, fileformat_for_path p)]
       ∧ if closed then
           result = Some (Ok ())
           ∧ events_since s s'
             = failed ++ [RequestSave suggested; Log (MsgSaved p);
                          Done Saved]
           ∧ done_events (events_since s s') = [Saved]
           ∧ last (ui_queue s') = Some (Done Saved)
           ∧ step_op <$> trace s'
             = (step_op <$> trace s)
               ++ [OpSaveAs p (fileformat_for_path p); OpCloseDest; OpQuit]
         else
           result = Some (Raise HostError)
           ∧ events_since s s'
             = failed ++ [RequestSave suggested; Log (MsgSaved p)]
           ∧ done_events (events_since s s') = [])
  ∧ (length ps = 2%nat →
     replicate (S (length ps)) suggested = [suggested; suggested; suggested]).
Proof.
  intros Hfail. cbn zeta. unfold save_handshake, exec, outcome.
  assert (∀ evs, save_requests (failed_events suggested (length ps) ++ evs)
                 = replicate (length ps) suggested ++ save_requests evs) as Hreq.
  { intros evs. unfold save_requests at 1.
    rewrite omap_app. fold (save_requests (failed_events suggested (length ps))).
    by rewrite save_requests_failed. }
  assert (∀ evs, done_events (failed_events suggested (length ps) ++ evs)
                 = done_events evs) as Hdone.
  { intros evs. unfold done_events at 1.
    rewrite omap_app. fold (done_events (failed_events suggested (length ps))).
    by rewrite done_events_failed. }
  assert (∀ x : str, replicate (length ps) x ++ [x] = replicate (S (length ps)) x)
    as Hrep.
  { intros x. by rewrite <- replicate_S_end. }
  split; [|split; [|split]].
  - intros Hq.
    destruct (save_loop_failures suggested ps s 1 [])
      as (s1 & Heq & Hu & Hq1 & Ha & Hk & Ht & Hd);
      [by rewrite app_nil_r | done |].
    destruct (save_loop_waiting suggested 0 s1 Hq1)
      as (s2 & Heq2 & Hu2 & Ht2 & Hd2).
    assert (save_loop w suggested (S (length (save_queue s))) s = (None, s2))
      as ->.
    { rewrite Hq, length_fmap.
      replace (S (length ps)) with (length ps + 1)%nat by lia.
      by rewrite Heq. }
    cbn [fst snd].
    assert (ui_queue s2 = ui_queue s
              ++ failed_events suggested (length ps) ++ [RequestSave suggested])
      as Hev by (by rewrite Hu2, Hu, <- app_assoc).
    rewrite (events_since_app _ _ _ Hev), Hreq, Hdone. cbn [save_requests omap].
    by rewrite Hrep, Ht2, Ht.
  - intros rest Hq.
    destruct (save_loop_failures suggested ps s (S (S (length rest)))
                (None :: rest))
      as (s1 & Heq & Hu & Hq1 & Ha & Hk & Ht & Hd); [done | done |].
    destruct (save_loop_abort suggested (S (length rest)) s1 rest Hq1)
      as (s2 & Heq2 & Hu2 & Hq2 & Hk2 & Ht2 & Hd2).
    destruct (finish_cases NoSave s2)
      as (s3 & Heq3 & Hu3 & Hsteps & Hsaved & _).
    rewrite Hk2, Hk in Hu3, Heq3, Hsteps.
    assert (save_loop w suggested (S (length (save_queue s))) s
            = finish NoSave s2) as ->.
    { rewrite Hq, length_app, length_fmap. simpl length.
      replace (S (length ps + S (length rest)))
        with (length ps + S (S (length rest)))%nat by lia.
      by rewrite Heq. }
    rewrite Heq3. cbn [fst snd].
    rewrite Hsaved, Ht2, Ht.
    destruct (close_dest_ok w (teardown_calls s)
              && quit_ok w (S (teardown_calls s))) eqn:Hclosed.
    + apply andb_prop in Hclosed as [Hc Hqt].
      assert (ui_queue s3 = ui_queue s
                ++ failed_events suggested (length ps)
                ++ [RequestSave suggested; Log MsgSaveCancelled; Done NoSave])
        as Hev by (by rewrite Hu3, Hu2, Hu, <- !app_assoc).
      rewrite (events_since_app _ _ _ Hev), Hreq, Hdone.
      cbn [save_requests done_events omap].
      rewrite Hrep, (Hsteps Hc Hqt), Ht2, Ht. repeat split; try done.
      by rewrite Hev, app_assoc, last_app.
    + assert (ui_queue s3 = ui_queue s
                ++ failed_events suggested (length ps)
                ++ [RequestSave suggested; Log MsgSaveCancelled])
        as Hev by (by rewrite Hu3, Hu2, Hu, app_nil_r, <- !app_assoc).
      rewrite (events_since_app _ _ _ Hev), Hreq, Hdone.
      cbn [save_requests done_events omap].
      rewrite Hrep. repeat split; done.
  - intros p rest Hq Hok.
    destruct (save_loop_failures suggested ps s (S (S (length rest)))
                (Some p :: rest))
      as (s1 & Heq & Hu & Hq1 & Ha & Hk & Ht & Hd); [done | done |].
    destruct (save_loop_success suggested (S (length rest)) s1 p rest Hq1)
      as (s2 & Heq2 & Hu2 & Hq2 & Hk2 & Ht2 & Hd2); [by rewrite Ha|].
    destruct (finish_cases Saved s2)
      as (s3 & Heq3 & Hu3 & Hsteps & Hsaved & _).
    rewrite Hk2, Hk in Hu3, Heq3, Hsteps.
    assert (save_loop w suggested (S (length (save_queue s))) s
            = finish Saved s2) as ->.
    { rewrite Hq, length_app, length_fmap. simpl length.
      replace (S (length ps + S (length rest)))
        with (length ps + S (S (length rest)))%nat by lia.
      by rewrite Heq. }
    rewrite Heq3. cbn [fst snd].
    assert (saved_ops (trace s3)
            = saved_ops (trace s) ++ [(p, fileformat_for_path p)]) as Hops.
    { rewrite Hsaved, Ht2, Ht. unfold saved_ops.
      by rewrite fmap_app, omap_app. }
    rewrite Hops.
    destruct (close_dest_ok w (teardown_calls s)
              && quit_ok w (S (teardown_calls s))) eqn:Hclosed.
    + apply andb_prop in Hclosed as [Hc Hqt].
      assert (ui_queue s3 = ui_queue s
                ++ failed_events suggested (length ps)
                ++ [RequestSave suggested; Log (MsgSaved p); Done Saved])
        as Hev by (by rewrite Hu3, Hu2, Hu, <- !app_assoc).
      rewrite (events_since_app _ _ _ Hev), Hreq, Hdone.
      cbn [save_requests done_events omap].
      rewrite Hrep, (Hsteps Hc Hqt), Ht2, Ht, fmap_app, <- app_assoc.
      repeat split; try done.
      by rewrite Hev, app_assoc, last_app.
    + assert (ui_queue s3 = ui_queue s
                ++ failed_events suggested (length ps)
                ++ [RequestSave suggested; Log (MsgSaved p)])
        as Hev by (by rewrite Hu3, Hu2, Hu, app_nil_r, <- !app_assoc).
      rewrite (events_since_app _ _ _ Hev), Hreq, Hdone.
      cbn [save_requests done_events omap].
      rewrite Hrep. repeat split; done.
  - by intros ->.
Qed.

End SaveFacts.

(** ** The fallback strategy *)

Lemma noraise_bind {A B} (m : M A) (f : A → M B) :
  noraise m → (∀ a, noraise (f a)) → noraise (m ≫= f).
Proof.
  intros Hm Hf s e. specialize (Hm s). unfold outcome in *.
  rewrite bind_eq. destruct (m s) as [[[a|e']|] s']; simpl in *.
  - apply Hf.
  - by destruct (Hm e').
  - done.
Qed.

Lemma noraise_returns {A} (m : M A) : returns m → noraise m.
Proof. intros Hm s e. destruct (Hm s) as [a ->]. done. Qed.

Lemma noraise_suspended {A} : noraise (suspended (A:=A)).
Proof. by intros s e. Qed.

Ltac noraise_struct :=
  lazymatch goal with
  | |- noraise (mbind _ _) => apply noraise_bind; [|intros ?]
  | |- noraise (mret _) => apply noraise_returns, returns_ret
  | |- noraise (gets _) => apply noraise_returns, returns_gets
  | |- noraise (modify _) => apply noraise_returns, returns_modify
  | |- noraise suspended => apply noraise_suspended
  | |- noraise (if ?b then _ else _) => destruct b
  | |- noraise (match ?x with _ => _ end) => destruct x
  end.

Ltac solve_noraise :=
  repeat first [ noraise_struct | progress autounfold with worker ].

Section SplitFacts.

Implicit Types (pre post s : str).

Lemma break_at_app sep pre post :
  sep ∉ pre → break_at sep (pre ++ sep :: post) = Some (pre, post).
Proof.
  induction pre as [|c pre IH]; simpl; intros Hsep.
  - by rewrite N.eqb_refl.
  - apply not_elem_of_cons in Hsep as [Hc Hpre].
    destruct (N.eqb_spec c sep) as [->|_]; [done|].
    by rewrite IH.
Qed.

Lemma break_at_none sep s : sep ∉ s → break_at sep s = None.
Proof.
  induction s as [|c s IH]; simpl; intros Hsep; [done|].
  apply not_elem_of_cons in Hsep as [Hc Hs].
  destruct (N.eqb_spec c sep) as [->|_]; [done|].
  by rewrite IH.
Qed.

(** A string has no separator, or a first one. *)
Lemma first_separator sep s :
  (sep ∉ s) ∨ ∃ pre post, s = pre ++ sep :: post ∧ sep ∉ pre.
Proof.
  induction s as [|c s IH]; [left; apply not_elem_of_nil|].
  destruct (decide (c = sep)) as [->|Hc].
  - right. exists [], s. split; [done | apply not_elem_of_nil].
  - destruct IH as [Hs | (pre & post & -> & Hpre)].
    + left. by apply not_elem_of_cons.
    + right. exists (c :: pre), post. split; [done|].
      by apply not_elem_of_cons.
Qed.

Lemma startswith_app pre post : startswith (pre ++ post) pre = true.
Proof.
  induction pre as [|c pre IH]; simpl; [by destruct post|].
  by rewrite N.eqb_refl.
Qed.

Lemma bar_not_in_PROGRESS : bar ∉ lit "PROGRESS".
Proof. intros H. apply (bool_decide_pack _) in H. by vm_compute in H. Qed.

(** The fields of a [PROGRESS] line, by the number of bars that follow the
    first. *)
Lemma split_progress_line p1 p2 filename :
  bar ∉ p1 → bar ∉ p2 →
  split_max bar 3 (lit "PROGRESS|" ++ p1 ++ [bar] ++ p2 ++ [bar] ++ filename)
  = [lit "PROGRESS"; p1; p2; filename].
Proof.
  intros H1 H2.
  change (lit "PROGRESS|" ++ p1 ++ [bar] ++ p2 ++ [bar] ++ filename)
    with (lit "PROGRESS" ++ bar :: (p1 ++ bar :: (p2 ++ bar :: filename))).
  cbn [split_max].
  rewrite (break_at_app bar _ _ bar_not_in_PROGRESS).
  rewrite (break_at_app bar _ _ H1).
  by rewrite (break_at_app bar _ _ H2).
Qed.

Lemma split_progress_line_2 p1 p2 :
  bar ∉ p1 → bar ∉ p2 →
  split_max bar 3 (lit "PROGRESS|" ++ p1 ++ [bar] ++ p2)
  = [lit "PROGRESS"; p1; p2].
Proof.
  intros H1 H2.
  change (lit "PROGRESS|" ++ p1 ++ [bar] ++ p2)
    with (lit "PROGRESS" ++ bar :: (p1 ++ bar :: p2)).
  cbn [split_max].
  rewrite (break_at_app bar _ _ bar_not_in_PROGRESS).
  rewrite (break_at_app bar _ _ H1).
  by rewrite (break_at_none bar _ H2).
Qed.

Lemma split_progress_line_1 p1 :
  bar ∉ p1 →
  split_max bar 3 (lit "PROGRESS|" ++ p1) = [lit "PROGRESS"; p1].
Proof.
  intros H1.
  change (lit "PROGRESS|" ++ p1) with (lit "PROGRESS" ++ bar :: p1).
  cbn [split_max].
  rewrite (break_at_app bar _ _ bar_not_in_PROGRESS).
  by rewrite (break_at_none bar _ H1).
Qed.

(** What follows [PROGRESS|] has no bar, one bar, or two bars and more. *)
Lemma progress_fields (rest : str) :
  (bar ∉ rest)
  ∨ (∃ p1 p2, rest = p1 ++ [bar] ++ p2 ∧ (bar ∉ p1) ∧ (bar ∉ p2))
  ∨ (∃ p1 p2 filename,
       rest = p1 ++ [bar] ++ p2 ++ [bar] ++ filename
       ∧ (bar ∉ p1) ∧ (bar ∉ p2)).
Proof.
  destruct (first_separator bar rest) as [H|(p1 & post & -> & H1)];
    [by left|].
  right.
  destruct (first_separator bar post) as [H|(p2 & filename & -> & H2)].
  - left. by exists p1, post.
  - right. by exists p1, p2, filename.
Qed.

End SplitFacts.

Section FallbackFacts.
Context {rt : PyRuntime} (w : world).

(** A line that [handle_line] skips at every state is skipped by the
    reading loop. *)
Lemma read_loop_skip folder raw :
  (∀ s, handle_line w folder raw s = (Some (Ok ()), s)) →
  ∀ more s, read_loop w folder (raw :: more) s
            = read_loop w folder more (exec (signal_cancel w) s).
Proof.
  intros Hskip more s. cbn [read_loop].
  destruct (exec_bind_returns (signal_cancel w)
              (λ _, handle_line w folder raw;; read_loop w folder more) s)
    as [[] [_ ->]].
  { unfold signal_cancel. solve_returns. }
  rewrite bind_eq, Hskip. done.
Qed.

(** C8. Every [PROGRESS] line is handled without an exception and without
    waiting.  What follows the prefix has no bar, one bar, or two bars and
    more.  With fewer than two bars the line has fewer than four fields and
    is skipped: the worker state is unchanged and the reading loop goes on
    with the next line.  With two bars and more, the line is skipped in the
    same way when [int] rejects the current or the total field, and becomes
    exactly one progress message, with these two numbers and the rest of
    the line as the file name, when both are numbers. *)
Theorem progress_line_handling folder raw (rest : str) s :
  strip raw = lit "PROGRESS|" ++ rest →
  let skipped :=
    handle_line w folder raw s = (Some (Ok ()), s)
    ∧ ∀ more, read_loop w folder (raw :: more) s
              = read_loop w folder more (exec (signal_cancel w) s) in
  ((bar ∉ rest)
   ∨ (∃ p1 p2, rest = p1 ++ [bar] ++ p2 ∧ (bar ∉ p1) ∧ (bar ∉ p2))
   ∨ (∃ p1 p2 filename,
        rest = p1 ++ [bar] ++ p2 ++ [bar] ++ filename
        ∧ (bar ∉ p1) ∧ (bar ∉ p2)))
  ∧ (bar ∉ rest → skipped)
  ∧ (∀ p1 p2, rest = p1 ++ [bar] ++ p2 → bar ∉ p1 → bar ∉ p2 → skipped)
  ∧ (∀ p1 p2 filename,
       rest = p1 ++ [bar] ++ p2 ++ [bar] ++ filename →
       bar ∉ p1 → bar ∉ p2 →
       (py_int p1 = None ∨ py_int p2 = None → skipped)
       ∧ (∀ current total,
            py_int p1 = Some current → py_int p2 = Some total →
            handle_line w folder raw s
            = (Some (Ok ()),
               set_ui_queue
                 (ui_queue s ++ [Progress current total filename]) s))).
Proof.
  intros Hline. cbn zeta.
  assert (∀ s0, handle_line w folder raw s0
          = match split_max bar 3 (lit "PROGRESS|" ++ rest) with
            | [_; p1; p2; filename] =>
                match py_int p1, py_int p2 with
                | Some current, Some total =>
                    progress current total filename s0
                | _, _ => (Some (Ok ()), s0)
                end
            | _ => (Some (Ok ()), s0)
            end) as Hh.
  { intros s0. unfold handle_line. rewrite Hline.
    rewrite bool_decide_eq_false_2 by done.
    change (startswith (lit "PROGRESS|" ++ _) (lit "LOG|")) with false.
    rewrite startswith_app. cbv iota.
    destruct (split_max bar 3 (lit "PROGRESS|" ++ rest))
      as [|f0 [|f1 [|f2 [|f3 [|f4 l]]]]]; try done.
    by destruct (py_int f1), (py_int f2). }
  split; [apply progress_fields|]. split; [|split].
  - intros Hnone.
    assert (∀ s0, handle_line w folder raw s0 = (Some (Ok ()), s0)) as Hskip.
    { intros s0. by rewrite Hh, split_progress_line_1. }
    split; [apply Hskip | intros more; by apply read_loop_skip].
  - intros p1 p2 -> H1 H2.
    assert (∀ s0, handle_line w folder raw s0 = (Some (Ok ()), s0)) as Hskip.
    { intros s0. by rewrite Hh, split_progress_line_2. }
    split; [apply Hskip | intros more; by apply read_loop_skip].
  - intros p1 p2 filename -> H1 H2. split.
    + intros Hbad.
      assert (∀ s0, handle_line w folder raw s0 = (Some (Ok ()), s0))
        as Hskip.
      { intros s0. rewrite Hh, split_progress_line by done.
        destruct Hbad as [-> | ->]; [done|]. by destruct (py_int p1). }
      split; [apply Hskip | intros more; by apply read_loop_skip].
    + intros current total Hc Ht.
      by rewrite Hh, split_progress_line, Hc, Ht.
Qed.

(** *** The reading loop and the exit code *)

Lemma done_events_app q1 q2 :
  done_events (q1 ++ q2) = done_events q1 ++ done_events q2.
Proof. apply omap_app. Qed.

Ltac reading_side :=
  let s := fresh "s" in let Hs := fresh "Hs" in
  intros s Hs; unfold reading in *; simpl;
  rewrite ?done_events_app; simpl; rewrite ?app_nil_r; exact Hs.

Lemma handle_line_reading k D folder raw :
  preserves (reading k D) (handle_line w folder raw).
Proof. unfold handle_line, progress. solve_preserves reading_side. Qed.

(** When every line written to the script arrives, handling a line raises
    nothing. *)
Lemma handle_line_noraise folder raw :
  (∀ k, stdin_write_ok w k = true) → noraise (handle_line w folder raw).
Proof.
  intros Hwrite. unfold handle_line, progress.
  repeat first
    [ progress rewrite Hwrite
    | noraise_struct
    | progress autounfold with worker ].
Qed.

Lemma signal_cancel_eq s :
  ∃ s', signal_cancel w s = (Some (Ok ()), s')
        ∧ cancel_checks s' = S (cancel_checks s)
        ∧ ui_queue s' = ui_queue s
        ∧ save_queue s' = save_queue s
        ∧ proc_stdin s' = proc_stdin s.
Proof.
  unfold signal_cancel, is_set.
  unfold mbind, M_bind, mret, M_ret, modify, gets. simpl.
  destruct (cancel_event w (cancel_checks s) && negb (cancel_flag_file s));
    [destruct (flag_write_ok w (cancel_checks s))|];
    eexists; (split; [reflexivity | done]).
Qed.

(** When every line written to the script arrives: unless it is suspended
    in a save request, the reading loop returns normally after one
    cancellation test per line and one more, and sends no completion
    message. *)
Lemma read_loop_spec folder lines :
  (∀ k, stdin_write_ok w k = true) →
  ∀ s, outcome (read_loop w folder lines) s ≠ None →
       outcome (read_loop w folder lines) s = Some (Ok ())
       ∧ reading (cancel_checks s + S (length lines))
           (done_events (ui_queue s))
           (exec (read_loop w folder lines) s).
Proof.
  intros Hwrite.
  induction lines as [|raw rest IH]; intros s; unfold outcome, exec;
    cbn [read_loop]; rewrite bind_eq;
    destruct (signal_cancel_eq s) as (s1 & -> & Hk1 & Hq1 & _).
  - intros _. unfold reading. simpl. rewrite Hk1, Hq1. split; [done|].
    split; [lia | done].
  - rewrite bind_eq.
    pose proof (handle_line_noraise folder raw Hwrite s1) as Hnr.
    pose proof (handle_line_reading (cancel_checks s1)
                  (done_events (ui_queue s1)) folder raw s1
                  (conj eq_refl eq_refl)) as [Hk2 Hq2].
    unfold outcome, exec in Hnr, Hk2, Hq2.
    destruct (handle_line w folder raw s1) as [[[[]|e]|] s2];
      simpl in *; [| by destruct (Hnr e) | done].
    intros Hnb. destruct (IH s2 Hnb) as [Ho [Hk3 Hq3]].
    unfold outcome, exec in Ho, Hk3, Hq3.
    split; [done|]. split.
    + rewrite Hk3, Hk2, Hk1. lia.
    + by rewrite Hq3, Hq2, Hq1.
Qed.

(** What [report_exit] does, by the cancellation flag and the exit code. *)
Lemma report_exit_eq rc s :
  let s1 := set_cancel_checks (S (cancel_checks s)) s in
  report_exit w rc s =
    if cancel_event w (cancel_checks s)
    then (Some (Ok ()), set_ui_queue (ui_queue s ++ [Done Cancelled]) s1)
    else match spec_exit_status rc with
         | Error => (Some (Raise (RuntimeError (ScriptFailed rc))), s1)
         | st => (Some (Ok ()), set_ui_queue (ui_queue s ++ [Done st]) s1)
         end.
Proof.
  cbn zeta. unfold report_exit, is_set, put_event, spec_exit_status.
  unfold mbind, M_bind, mret, M_ret, modify, gets, raise. simpl.
  destruct (cancel_event w (cancel_checks s)); [done|].
  by repeat case_bool_decide.
Qed.

(** The [finally] clause of the fallback strategy touches the sentinel
    only. *)
Lemma remove_sentinel_eq s :
  ∃ b, remove_sentinel w s = (Some (Ok ()), set_cancel_flag_file b s).
Proof.
  unfold remove_sentinel. unfold mbind, M_bind, mret, M_ret, modify, gets.
  destruct (cancel_flag_file s) eqn:Hf; simpl.
  - destruct (flag_unlink_ok w); [by exists false|].
    exists true. by destruct s; simpl in *; subst.
  - exists false. by destruct s; simpl in *; subst.
Qed.

(** C4, as the code has it.  In a run of the fallback strategy in which the
    process is started and takes every line written to it, and that comes
    to its end, the exit code of the process decides the terminal status
    (0 Saved, 3 NoSave, 2 Cancelled, anything else Error) provided the
    cancellation flag is not set when the process has exited; when it is
    set the status is Cancelled whatever the exit code.  Exactly one
    completion message is sent, and it is the last message. *)
Theorem fallback_terminal_status folder files s :
  com_available w = false →
  script_exists w = true →
  filelist_ok w = true →
  popen_ok w = true →
  (∀ k, stdin_write_ok w k = true) →
  outcome (run w folder files) s ≠ None →
  let flag_set :=
    cancel_event w (cancel_checks s + S (length (stdout_lines w))) in
  let s' := exec (run w folder files) s in
  outcome (run w folder files) s = Some (Ok ())
  ∧ last (ui_queue s') = Some (Done (fallback_status flag_set (exit_code w)))
  ∧ done_events (ui_queue s')
    = done_events (ui_queue s) ++ [fallback_status flag_set (exit_code w)]
  ∧ (flag_set = false →
     last (ui_queue s') = Some (Done (spec_exit_status (exit_code w)))).
Proof.
  intros Hcom Hscript Hlist Hpopen Hwrite. cbn zeta.
  unfold run, run_impl, run_with, run_impl_powershell.
  rewrite Hcom, Hscript, Hlist.
  set (s0 := set_ui_queue
               (ui_queue s ++ [Log (MsgPsFileCount (Z.of_nat (length files)))])
               s).
  unfold outcome, exec, try_except.
  rewrite bind_eq.
  change (log (MsgPsFileCount (Z.of_nat (length files))) s)
    with (Some (Ok ()), s0).
  cbv iota beta. rewrite Hpopen. unfold try_finally. rewrite bind_eq.
  pose proof (read_loop_spec folder (stdout_lines w) Hwrite s0) as Hloop.
  unfold outcome, exec in Hloop.
  destruct (read_loop w folder (stdout_lines w) s0) as [[r|] s1];
    cbn [fst snd] in *; [|done].
  destruct (Hloop ltac:(done)) as [[= ->] [Hk Hd]].
  rewrite report_exit_eq. rewrite Hk. cbn [cancel_checks s0 set_ui_queue].
  change (cancel_checks s0) with (cancel_checks s).
  change (done_events (ui_queue s0)) with
    (done_events (ui_queue s ++ [Log (MsgPsFileCount (Z.of_nat (length files)))]))
    in Hd.
  rewrite done_events_app in Hd. cbn in Hd. rewrite app_nil_r in Hd.
  unfold fallback_status.
  destruct (cancel_event w (cancel_checks s + S (length (stdout_lines w)))).
  - intros _.
    match goal with |- context [remove_sentinel w ?t] =>
      destruct (remove_sentinel_eq t) as [b ->] end.
    simpl. rewrite last_snoc, done_events_app, Hd. done.
  - intros _.
    destruct (spec_exit_status (exit_code w));
      match goal with |- context [remove_sentinel w ?t] =>
        destruct (remove_sentinel_eq t) as [b ->] end; simpl;
      rewrite ?last_snoc, ?done_events_app, ?Hd; try done.
    cbn. by rewrite !app_nil_r.
Qed.

End FallbackFacts.

(** ** Placeholder deletion in the primary strategy *)

Section PlaceholderFacts.
Context {rt : PyRuntime} (w : world).

(** The placeholders the destination started with. *)
Variable P0 : list sheet.

Local Abbreviation step_ok := (step_ok P0).
Local Abbreviation Inv := (Inv P0).
Local Abbreviation InvC := (InvC P0).

Lemma chained_snoc d0 t d st :
  chained d0 t d → sheets_before st = d →
  chained d0 (t ++ [st]) (sheets_after st).
Proof.
  revert d0. induction t as [|st' t IH]; simpl; intros d0.
  - by intros -> ->.
  - intros [-> Hc] Hb. split; [done|]. by apply IH.
Qed.

Lemma has_copy_app t1 t2 : has_copy t1 → has_copy (t1 ++ t2).
Proof.
  intros (st & c & Hin & Hop). exists st, c. split; [|done].
  apply elem_of_app. by left.
Qed.

Lemma deletes_after_copy_snoc t st :
  deletes_after_copy t →
  (∀ sh, step_op st = OpDelete sh → has_copy t) →
  deletes_after_copy (t ++ [st]).
Proof.
  intros Ht Hst t1 st' t2 sh Heq Hop.
  destruct t2 as [|x t2 _] using rev_ind.
  - apply app_inj_tail in Heq as [-> ->]. by apply (Hst sh).
  - rewrite app_comm_cons, app_assoc in Heq.
    apply app_inj_tail in Heq as [-> _].
    by apply (Ht t1 st' t2 sh).
Qed.

(** The effect of one host step on the invariant. *)
Lemma apply_step_inv op after s :
  Inv s →
  after ≠ [] →
  NoDup (sid <$> after) →
  Forall (λ x, (sid x < next_sid s)%nat) after →
  (∀ sh, op = OpDelete sh →
         (1 < length (dest s))%nat ∧ sh ∈ P0 ∧ has_copy (trace s)) →
  Inv (apply_step op after s).
Proof.
  intros (Hne & Hnd & Hlt & Hch & Hok & Hdel & Hany) Hafter Hnd' Hlt' Hop.
  unfold Inv, apply_step. simpl. repeat split; try done.
  - by apply (chained_snoc _ _ (dest s)
                {| step_op := op; sheets_before := dest s;
                   sheets_after := after |}).
  - apply Forall_app. split; [done|]. constructor; [|constructor].
    repeat split; simpl; try done; by destruct (Hop sh) as (? & ? & ?).
  - apply deletes_after_copy_snoc; [done|]. simpl.
    intros sh Hsh. by destruct (Hop sh Hsh) as (? & ? & ?).
  - intros Hc. apply has_copy_app. by apply Hany.
Qed.

Lemma filter_other_nonempty (l : list sheet) i :
  NoDup (sid <$> l) → (1 < length l)%nat →
  filter (λ x, sid x ≠ i) l ≠ [].
Proof.
  destruct l as [|a [|b l]]; simpl; try lia. intros Hnd _.
  apply NoDup_cons in Hnd as [Hab _]. apply not_elem_of_cons in Hab as [Hab _].
  rewrite filter_cons. destruct (decide (sid a ≠ i)) as [|Ha]; [done|].
  rewrite filter_cons. destruct (decide (sid b ≠ i)) as [|Hb]; [done|].
  destruct Hab.
  destruct (decide (sid a = i)) as [->|]; [|done].
  by destruct (decide (sid b = i)).
Qed.

Lemma NoDup_sid_filter (P : sheet → Prop) `{∀ x, Decision (P x)}
    (l : list sheet) :
  NoDup (sid <$> l) → NoDup (sid <$> filter P l).
Proof.
  induction l as [|a l IH]; [done|].
  rewrite fmap_cons, NoDup_cons. intros [Ha Hnd].
  rewrite filter_cons. destruct (decide (P a)); [|by apply IH].
  rewrite fmap_cons. apply NoDup_cons. split; [|by apply IH].
  intros (x & Hx & Hin%list_elem_of_filter)%list_elem_of_fmap.
  apply Ha. apply list_elem_of_fmap. exists x. tauto.
Qed.

Lemma sid_rename_in i n (l : list sheet) :
  sid <$> rename_in i n l = sid <$> l.
Proof.
  unfold rename_in. rewrite <- list_fmap_compose. apply list_fmap_ext.
  intros k x _. simpl. by case_bool_decide.
Qed.

(** A step that leaves the worksheets as they are. *)
Lemma apply_step_same_inv op s :
  Inv s → (∀ sh, op ≠ OpDelete sh) → Inv (apply_step op (dest s) s).
Proof.
  intros Hs Hop. pose proof Hs as (Hne & Hnd & Hlt & _).
  apply apply_step_inv; try done. intros sh ->. by destruct (Hop sh).
Qed.

Ltac run_host :=
  unfold exec, host_rename, host_close_source, host_save_as, host_close_dest,
    host_quit, host_copy, host_delete, record_step, get_state;
  unfold mbind, M_bind, mret, M_ret, modify, gets, raise, try_except;
  simpl.

Lemma host_rename_inv i n : preserves Inv (host_rename w i n).
Proof.
  intros s Hs. run_host. destruct (rename_ok w (dest s) i n); simpl; [|done].
  pose proof Hs as (Hne & Hnd & Hlt & _).
  apply apply_step_inv; try done.
  - unfold rename_in. by destruct (dest s).
  - by rewrite sid_rename_in.
  - unfold rename_in. apply Forall_fmap. eapply Forall_impl; [exact Hlt|].
    intros x Hx. simpl. by case_bool_decide; simplify_eq.
Qed.

Lemma host_rename_copied i n : preserves InvC (host_rename w i n).
Proof.
  intros s [Hs Hc]. split; [by apply host_rename_inv|].
  run_host. destruct (rename_ok w (dest s) i n); simpl; [|done].
  by apply has_copy_app.
Qed.

Lemma host_close_source_inv path : preserves Inv (host_close_source w path).
Proof.
  intros s Hs. run_host. destruct (close_source_ok w path); simpl; [|done].
  by apply apply_step_same_inv.
Qed.

Lemma host_save_as_inv path fmt : preserves Inv (host_save_as w path fmt).
Proof.
  intros s Hs. run_host.
  destruct (save_ok w (save_attempts s) path fmt); simpl; [|done].
  by apply (apply_step_same_inv _ (set_save_attempts _ s)).
Qed.

Lemma host_close_dest_inv : preserves Inv (host_close_dest w).
Proof.
  intros s Hs. run_host.
  destruct (close_dest_ok w (teardown_calls s)); simpl; [|done].
  by apply (apply_step_same_inv _ (set_teardown_calls _ s)).
Qed.

Lemma host_quit_inv : preserves Inv (host_quit w).
Proof.
  intros s Hs. run_host.
  destruct (quit_ok w (teardown_calls s)); simpl; [|done].
  by apply (apply_step_same_inv _ (set_teardown_calls _ s)).
Qed.

Create HintDb worker_top discriminated.

#[local] Hint Unfold put_event log progress request_save_path save_queue_get
  is_set sheet_count existing_names host_open name_of close_source
  : worker_top.

Ltac inv_side :=
  let s := fresh "s" in let Hs := fresh "Hs" in
  intros s Hs;
  first
    [ exact Hs
    | destruct Hs as (? & ? & ? & ? & ? & ? & ?); by repeat split
    | destruct Hs as [(? & ? & ? & ? & ? & ? & ?) ?]; by repeat split ].

Ltac inv_host :=
  first
    [ apply host_rename_inv | apply host_rename_copied
    | apply host_close_source_inv | apply host_save_as_inv
    | apply host_close_dest_inv | apply host_quit_inv ].

Ltac solve_inv :=
  repeat first
    [ inv_host
    | preserves_struct
    | apply preserves_modify; inv_side
    | progress autounfold with worker_top ].

(** Copying one worksheet. *)
Lemma copy_sheet_inv path sidx desired :
  preserves Inv (copy_sheet w path sidx desired).
Proof.
  intros s Hs. unfold exec, copy_sheet, existing_names.
  rewrite bind_eq. cbn [gets]. rewrite bind_eq.
  assert (host_copy w path sidx desired s
          = if copy_ok w path sidx
            then let sh := {| sid := next_sid s;
                              sheet_name := auto_name w (dest s) desired |} in
                 (Some (Ok sh),
                  apply_step (OpCopy sh) (dest s ++ [sh])
                    (set_next_sid (S (next_sid s)) s))
            else (Some (Raise HostError), s)) as ->.
  { unfold host_copy. by destruct (copy_ok w path sidx). }
  destruct (copy_ok w path sidx); [|done]. cbv zeta.
  set (sh := {| sid := next_sid s;
                sheet_name := auto_name w (dest s) desired |}).
  set (s1 := apply_step (OpCopy sh) (dest s ++ [sh])
               (set_next_sid (S (next_sid s)) s)).
  assert (InvC s1) as Hs1.
  { pose proof Hs as (Hne & Hnd & Hlt & Hch & Hok & Hdel & Hany). split.
    - apply apply_step_inv.
      + repeat split; try done. simpl.
        eapply Forall_impl; [exact Hlt|]. intros x Hx. simpl in *. lia.
      + by destruct (dest s).
      + rewrite fmap_app. apply NoDup_app. split; [done|]. split.
        * intros i Hi ->%list_elem_of_singleton.
          apply list_elem_of_fmap in Hi as (x & Hx & Hin).
          rewrite Forall_forall in Hlt. specialize (Hlt x Hin). simpl in Hx. lia.
        * apply NoDup_singleton.
      + apply Forall_app. split.
        * eapply Forall_impl; [exact Hlt|]. intros x Hx. simpl in *. lia.
        * constructor; [simpl; lia | constructor].
      + intros sh' [=].
    - exists {| step_op := OpCopy sh; sheets_before := dest s;
                sheets_after := dest s ++ [sh] |}, sh.
      split; [|done]. simpl. apply elem_of_app. right.
      by apply list_elem_of_singleton. }
  cbv beta iota.
  match goal with |- Inv (?m s1).2 =>
    assert (preserves InvC m) as Hrest; [|by apply (Hrest s1 Hs1)] end.
  solve_inv.
Qed.

Lemma sheet_loop_inv path names :
  ∀ sidx, preserves Inv (sheet_loop w path sidx names).
Proof.
  induction names as [|desired rest IH]; intros sidx; simpl.
  - apply preserves_ret.
  - solve_inv; [apply copy_sheet_inv | apply IH].
Qed.

Lemma process_file_inv total idx src_path :
  preserves Inv (process_file w total idx src_path).
Proof. unfold process_file. solve_inv. apply sheet_loop_inv. Qed.

Lemma file_loop_inv total files :
  ∀ idx, preserves Inv (file_loop w total idx files).
Proof.
  induction files as [|src_path rest IH]; intros idx; simpl.
  - apply preserves_ret.
  - solve_inv; [apply process_file_inv | apply IH].
Qed.

Lemma save_loop_inv suggested fuel :
  preserves Inv (save_loop w suggested fuel).
Proof.
  induction fuel as [|fuel IH]; simpl.
  - apply preserves_suspended.
  - solve_inv; apply IH.
Qed.

Lemma save_handshake_inv suggested :
  preserves Inv (save_handshake w suggested).
Proof. intros s Hs. by apply save_loop_inv. Qed.

(** Deleting the placeholders, once something has been copied. *)
Lemma delete_initial_inv initial :
  Forall (λ sh, sh ∈ P0) initial →
  ∀ s, Inv s → copied_any s = true → Inv (exec (delete_initial w initial) s).
Proof.
  induction initial as [|sh rest IH]; intros Hin s Hs Hany; [done|].
  apply Forall_cons in Hin as [Hsh Hrest].
  unfold exec. cbn [delete_initial]. unfold sheet_count.
  rewrite bind_eq. cbn [gets]. cbv beta iota.
  case_bool_decide as Hcount; [done|].
  rewrite bind_eq.
  assert (try_except (host_delete w sh) (λ _, mret ()) s
          = (Some (Ok ()),
             if delete_ok w (dest s) sh
             then apply_step (OpDelete sh)
                    (filter (λ x, sid x ≠ sid sh) (dest s)) s
             else s)) as ->.
  { run_host. by destruct (delete_ok w (dest s) sh). }
  cbv beta iota.
  apply IH; [done| |by destruct (delete_ok w (dest s) sh)].
  destruct (delete_ok w (dest s) sh); [|done].
  pose proof Hs as (Hne & Hnd & Hlt & Hch & Hok & Hdel & Hcopy).
  apply apply_step_inv; try done.
  - apply filter_other_nonempty; [done | lia].
  - by apply NoDup_sid_filter.
  - apply Forall_forall. intros x [_ Hx]%list_elem_of_filter.
    rewrite Forall_forall in Hlt. by apply Hlt.
  - intros sh' [= <-]. split; [lia|]. split; [done|]. by apply Hcopy.
Qed.

Lemma remove_placeholders_inv initial :
  Forall (λ sh, sh ∈ P0) initial →
  preserves Inv (remove_placeholders w initial).
Proof.
  intros Hin s Hs. unfold exec, remove_placeholders.
  rewrite bind_eq. cbn [gets]. cbv beta iota.
  destruct (copied_any s) eqn:Hany; [|done].
  destruct (bool_decide (initial = [])); [done|].
  by apply delete_initial_inv.
Qed.

Lemma release_inv a : preserves Inv (release w a).
Proof. unfold release. solve_inv. Qed.

(** The invariant does not look at [copied_any] once it is reset. *)
Lemma Inv_forget s : Inv s → Inv (set_copied_any false s).
Proof. intros (? & ? & ? & ? & ? & ? & ?). by repeat split. Qed.

Lemma start_inv s :
  dest s = P0 → P0 ≠ [] → NoDup (sid <$> P0) →
  Forall (λ x, (sid x < next_sid s)%nat) P0 →
  trace s = [] →
  Inv (set_copied_any false s).
Proof.
  intros Hd Hne Hnd Hlt Ht. unfold Inv. simpl. rewrite Hd, Ht.
  repeat split; try done. intros t1 st t2 sh Heq. by destruct t1.
Qed.

(** [release] does not look at [copied_any] either. *)
Lemma release_copied_any a b s :
  exec (release w a) (set_copied_any b s)
  = set_copied_any b (exec (release w a) s).
Proof.
  unfold exec, release, host_close_dest, host_quit, record_step, get_state.
  unfold mbind, M_bind, mret, M_ret, modify, gets, raise, try_except.
  destruct a; simpl; try done.
  - by destruct (quit_ok w (teardown_calls s)).
  - destruct (close_dest_ok w (teardown_calls s)); simpl;
      by destruct (quit_ok w (S (teardown_calls s))).
Qed.

(** The body of the primary strategy. *)
Lemma merge_workbooks_inv folder files s :
  dest s = P0 → P0 ≠ [] → NoDup (sid <$> P0) →
  Forall (λ x, (sid x < next_sid s)%nat) P0 →
  trace s = [] →
  Inv (exec (merge_workbooks w folder files) s).
Proof.
  intros Hd Hne Hnd Hlt Ht. unfold exec, merge_workbooks.
  rewrite bind_eq. cbn [gets]. cbv beta iota.
  rewrite bind_eq. unfold log at 1, put_event at 1. cbn [modify].
  cbv beta iota. rewrite bind_eq. cbn [modify]. cbv beta iota.
  match goal with |- Inv (?m ?s1).2 =>
    assert (preserves Inv m) as Hrest; [|apply (Hrest s1)] end.
  - assert (Forall (λ sh, sh ∈ P0)
              (if initial_sheets_ok w then dest s else [])) as Hinit.
    { destruct (initial_sheets_ok w); [|constructor].
      rewrite Hd. by apply Forall_forall. }
    solve_inv.
    + apply file_loop_inv.
    + by apply remove_placeholders_inv.
    + apply save_handshake_inv.
  - unfold Inv. simpl. rewrite Hd, Ht. repeat split; try done.
    intros t1 st t2 sh Heq. by destruct t1.
Qed.

(** The whole of the primary strategy, whatever the acquisition gives. *)
Lemma run_impl_primary_inv folder files s :
  dest s = P0 → P0 ≠ [] → NoDup (sid <$> P0) →
  Forall (λ x, (sid x < next_sid s)%nat) P0 →
  trace s = [] →
  Inv (set_copied_any false (exec (run_impl_primary w folder files) s)).
Proof.
  intros Hd Hne Hnd Hlt Ht.
  pose proof (start_inv s Hd Hne Hnd Hlt Ht) as Hs.
  assert (∀ a, Inv (set_copied_any false
                      (exec (try_finally (raise (A:=unit) HostError)
                               (release w a)) s))) as Hfail.
  { intros a.
    pose proof (release_inv a _ Hs) as Hr.
    rewrite release_copied_any in Hr.
    unfold exec, try_finally, raise in *.
    by destruct (release w a s) as [[[[]|e]|] s1]. }
  unfold run_impl_primary.
  destruct (acquisition w); [exact Hs | apply Hfail | apply Hfail |].
  apply Inv_forget.
  apply (hoare_try_finally (λ s0, s0 = s) Inv); [|apply release_inv|done].
  intros s0 ->. by apply merge_workbooks_inv.
Qed.

End PlaceholderFacts.

Section PlaceholderClaim.
Context {rt : PyRuntime} (w : world).

(** C6. In a run of the primary strategy on a destination workbook that
    starts with at least one worksheet, the destination has at least one
    worksheet before and after every step the worker takes on the host, and
    at the end; a worksheet is deleted only if it is one of the initial
    placeholders, only while the destination has more than one worksheet,
    and only after some worksheet has been copied. *)
Theorem placeholders_deleted_safely folder files s :
  com_available w = true →
  dest s ≠ [] →
  NoDup (sid <$> dest s) →
  Forall (λ x, (sid x < next_sid s)%nat) (dest s) →
  trace s = [] →
  let s' := exec (run w folder files) s in
  dest s' ≠ []
  ∧ chained (dest s) (trace s') (dest s')
  ∧ (∀ st, st ∈ trace s' → sheets_before st ≠ [] ∧ sheets_after st ≠ [])
  ∧ (∀ t1 st t2 sh,
       trace s' = t1 ++ st :: t2 → step_op st = OpDelete sh →
       (1 < length (sheets_before st))%nat ∧ sh ∈ dest s ∧ has_copy t1).
Proof.
  intros Hcom Hne Hnd Hlt Ht. cbn zeta.
  assert (Inv (dest s) (set_copied_any false (exec (run w folder files) s)))
    as (Hne' & _ & _ & Hch & Hok & Hdel & _).
  { unfold run, run_impl, run_with. rewrite Hcom.
    apply (hoare_try_except (λ s0, s0 = s)
             (λ s0, Inv (dest s) (set_copied_any false s0))); [| |done].
    - intros s0 ->. by apply run_impl_primary_inv.
    - intros e. unfold log, put_event.
      repeat first [preserves_struct | apply preserves_modify; by intros ? ?]. }
  cbn [dest trace set_copied_any] in Hne', Hch, Hok, Hdel.
  split; [done|]. split; [done|]. split.
  - intros st Hst. rewrite Forall_forall in Hok.
    destruct (Hok st Hst) as (? & ? & _). done.
  - intros t1 st t2 sh Heq Hop. rewrite Forall_forall in Hok.
    destruct (Hok st) as (_ & _ & Hst).
    { rewrite Heq. apply elem_of_app. right. by left. }
    destruct (Hst sh Hop) as [? ?].
    repeat split; try done. by apply (Hdel t1 st t2 sh).
Qed.

End PlaceholderClaim.

(** ** The scenarios of the specification, run *)

Module Scenarios.
Import Demo.
Local Existing Instance ascii_runtime.

(** Two workbooks with a common sheet name: four sheets, the second "Jan"
    renamed, the placeholder gone, saved at the third request. *)
Example merge_two_workbooks :
  sheet_name <$> dest demo_run = [lit "Jan"; lit "Feb"; lit "Jan_2"; lit "Mar"]
  ∧ progress_events (ui_queue demo_run)
    = [(1, 3, lit "A.xlsx"); (2, 3, lit "B.xlsx"); (3, 3, lit "C.xlsx")]
  ∧ length (save_requests (ui_queue demo_run)) = 3%nat
  ∧ done_events (ui_queue demo_run) = [Saved].
Proof. vm_compute. done. Qed.

(** The script's lines: the malformed [PROGRESS] line leaves no trace. *)
Example scripted_messages :
  ui_queue (scripted_run 0 100)
  = [Log (MsgPsFileCount 1); Log (MsgText (lit "start"));
     Progress 1 1 (lit "A.xlsx"); Log (MsgText (lit "saved")); Done Saved].
Proof. vm_compute. reflexivity. Qed.

Example scripted_exit_codes :
  done_events (ui_queue (scripted_run 3 100)) = [NoSave]
  ∧ done_events (ui_queue (scripted_run 2 100)) = [Cancelled]
  ∧ done_events (ui_queue (scripted_run 1 100)) = [Error]
  ∧ done_events (ui_queue (scripted_run (-1) 100)) = [Error].
Proof. vm_compute. done. Qed.

(** C4, as stated, fails: the process has written all its lines and exited
    with code 0, and the cancellation flag is found set by the test made
    after the process has exited (the sixth of the run); the terminal status
    is [Cancelled], not the [Saved] of exit code 0.  It fails as well, with
    the flag never set, when the process does not take the answer to its
    save request: the exception of the write ends the run with [Error]
    before the exit code is looked at. *)
Lemma fallback_exit_code_counterexample :
  com_available (scripted 0 5) = false
  ∧ script_exists (scripted 0 5) = true
  ∧ exit_code (scripted 0 5) = 0
  ∧ spec_exit_status (exit_code (scripted 0 5)) = Saved
  ∧ outcome (run (scripted 0 5) (lit "C:\in") [fileA]) (initial_state [] [])
    = Some (Ok ())
  ∧ done_events (ui_queue (scripted_run 0 5)) = [Cancelled]
  ∧ last (ui_queue (scripted_run 0 5))
    ≠ Some (Done (spec_exit_status (exit_code (scripted 0 5))))
  ∧ (let deaf := DemoMore.asking_pipe (λ _, false) 0 in
     com_available deaf = false
     ∧ exit_code deaf = 0
     ∧ (∀ k, cancel_event deaf k = false)
     ∧ outcome (run deaf (lit "C:\in") [fileA]) DemoMore.asking_start
       = Some (Ok ())
     ∧ done_events
         (ui_queue (exec (run deaf (lit "C:\in") [fileA])
                      DemoMore.asking_start))
       = [Error]).
Proof. vm_compute. repeat split; done. Qed.

(** The exit code decides when the flag is never set: code 3, [NoSave]. *)
Lemma fallback_terminal_status_witness :
  com_available (scripted 3 100) = false
  ∧ script_exists (scripted 3 100) = true
  ∧ filelist_ok (scripted 3 100) = true
  ∧ popen_ok (scripted 3 100) = true
  ∧ (∀ k, stdin_write_ok (scripted 3 100) k = true)
  ∧ outcome (run (scripted 3 100) (lit "C:\in") [fileA]) (initial_state [] [])
    ≠ None
  ∧ last (ui_queue (scripted_run 3 100)) = Some (Done NoSave).
Proof.
  assert (outcome (run (scripted 3 100) (lit "C:\in") [fileA])
            (initial_state [] []) ≠ None) as Hrun by (vm_compute; done).
  split; [reflexivity|]. split; [reflexivity|]. split; [reflexivity|].
  split; [reflexivity|]. split; [intros k; reflexivity|].
  split; [exact Hrun|].
  destruct (fallback_terminal_status (scripted 3 100) (lit "C:\in") [fileA]
              (initial_state [] []) eq_refl eq_refl eq_refl eq_refl
              (λ _, eq_refl) Hrun) as (_ & _ & _ & H).
  exact (H eq_refl).
Defined.

(** C7, as stated, fails: cancellation is never requested and the list has
    three files, but the application cannot be created; the run sends no
    progress message and ends with [Error]. *)
Lemma primary_progress_acquisition_counterexample :
  com_available no_excel = true
  ∧ (∀ k, cancel_event no_excel k = false)
  ∧ length [fileA; fileB; fileC] = 3%nat
  ∧ outcome (run no_excel (lit "C:\in") [fileA; fileB; fileC]) demo_start
    = Some (Ok ())
  ∧ progress_events
      (ui_queue (exec (run no_excel (lit "C:\in") [fileA; fileB; fileC])
                   demo_start)) = []
  ∧ done_events
      (ui_queue (exec (run no_excel (lit "C:\in") [fileA; fileB; fileC])
                   demo_start)) = [Error].
Proof.
  split; [reflexivity|]. split; [intros k; reflexivity|].
  vm_compute. repeat split; reflexivity.
Qed.

(** Three files, three progress messages. *)
Lemma primary_progress_events_witness :
  com_available demo = true
  ∧ acquisition demo = Acquired
  ∧ (∀ k, cancel_event demo k = false)
  ∧ progress_events (ui_queue demo_run)
    = expected_progress 3 1 [fileA; fileB; fileC].
Proof.
  split; [reflexivity|]. split; [reflexivity|].
  split; [intros k; reflexivity|].
  exact (proj1 (primary_progress_events demo (lit "C:\in")
                  [fileA; fileB; fileC] demo_start eq_refl eq_refl
                  (λ _, eq_refl))).
Defined.

(** C5, as stated, fails: the answer is the abort signal, but the host
    refuses to close the destination workbook; the exception leaves the
    handshake and the run ends with [Error], not [NoSave]. *)
Lemma save_abort_close_counterexample :
  com_available stuck = true
  ∧ save_queue abort_start = [None]
  ∧ outcome (save_handshake stuck (lit "merged.xlsx")) abort_start
    = Some (Raise HostError)
  ∧ outcome (run stuck (lit "C:\in") [fileA]) abort_start = Some (Ok ())
  ∧ save_requests (ui_queue (exec (run stuck (lit "C:\in") [fileA])
                               abort_start))
    = [safe_default_filename (lit "C:\in") (clock stuck)]
  ∧ done_events (ui_queue (exec (run stuck (lit "C:\in") [fileA])
                             abort_start))
    = [Error]
  ∧ last (ui_queue (exec (run stuck (lit "C:\in") [fileA]) abort_start))
    ≠ Some (Done NoSave).
Proof. vm_compute. repeat split; done. Qed.

(** Two paths whose save fails, then one that succeeds: three requests,
    status [Saved]. *)
Lemma save_handshake_witness :
  let suggested := lit "merged.xlsx" in
  let s' := exec (save_handshake demo suggested) demo_start in
  (∀ i p, [out1; out1] !! i = Some p →
          save_ok demo (save_attempts demo_start + i) p (fileformat_for_path p)
          = false)
  ∧ save_requests (events_since demo_start s')
    = [suggested; suggested; suggested]
  ∧ done_events (events_since demo_start s') = [Saved]
  ∧ last (ui_queue s') = Some (Done Saved).
Proof.
  cbn zeta.
  assert (∀ i p, [out1; out1] !! i = Some p →
            save_ok demo (save_attempts demo_start + i) p
              (fileformat_for_path p) = false) as Hfail.
  { intros [|[|i]] p Hp; [reflexivity | reflexivity | discriminate Hp]. }
  split; [exact Hfail|].
  destruct (save_handshake_spec demo (lit "merged.xlsx") demo_start
              [out1; out1] Hfail) as (_ & _ & Hvalid & _).
  destruct (Hvalid out2 [] eq_refl eq_refl) as (Hreq & _ & Hclosed).
  assert (close_dest_ok demo (teardown_calls demo_start)
          && quit_ok demo (S (teardown_calls demo_start)) = true) as Hcl
    by reflexivity.
  rewrite Hcl in Hclosed.
  destruct Hclosed as (_ & _ & Hdone & Hlast & _).
  exact (conj Hreq (conj Hdone Hlast)).
Defined.

(** The run on the two workbooks never leaves the destination empty. *)
Lemma placeholders_deleted_safely_witness :
  com_available demo = true
  ∧ dest demo_start ≠ []
  ∧ NoDup (sid <$> dest demo_start)
  ∧ Forall (λ x, (sid x < next_sid demo_start)%nat) (dest demo_start)
  ∧ trace demo_start = []
  ∧ dest demo_run ≠ []
  ∧ ∀ st, st ∈ trace demo_run → sheets_before st ≠ [] ∧ sheets_after st ≠ [].
Proof.
  assert (NoDup (sid <$> dest demo_start)) as Hnd by apply NoDup_singleton.
  assert (Forall (λ x, (sid x < next_sid demo_start)%nat) (dest demo_start))
    as Hlt by (repeat constructor).
  assert (dest demo_start ≠ []) as Hne by (intros H; discriminate H).
  split; [reflexivity|]. split; [exact Hne|]. split; [exact Hnd|].
  split; [exact Hlt|]. split; [reflexivity|].
  destruct (placeholders_deleted_safely demo (lit "C:\in")
              [fileA; fileB; fileC] demo_start eq_refl Hne Hnd Hlt eq_refl)
    as (Hfinal & _ & Hsteps & _).
  exact (conj Hfinal Hsteps).
Defined.

(** A [PROGRESS] line whose first field is a word is skipped, and so is
    one with three fields only. *)
Lemma progress_line_handling_witness :
  let raw := lit "PROGRESS|one|1|A.xlsx" ++ [newline] in
  let short := lit "PROGRESS|1|2" ++ [newline] in
  strip raw = lit "PROGRESS|" ++ lit "one|1|A.xlsx"
  ∧ strip short = lit "PROGRESS|" ++ lit "1|2"
  ∧ py_int (lit "one") = None
  ∧ handle_line demo (lit "C:\in") raw demo_start = (Some (Ok ()), demo_start)
  ∧ handle_line demo (lit "C:\in") short demo_start
    = (Some (Ok ()), demo_start).
Proof.
  cbn zeta.
  assert (∀ t : str, bool_decide (bar ∈ t) = false → bar ∉ t) as Hno.
  { intros t Ht Hin. apply (bool_decide_eq_false_1 _ Ht), Hin. }
  assert (bar ∉ lit "one") as H1 by (apply Hno; vm_compute; reflexivity).
  assert (bar ∉ lit "1") as H2 by (apply Hno; vm_compute; reflexivity).
  assert (bar ∉ lit "2") as H3 by (apply Hno; vm_compute; reflexivity).
  split; [reflexivity|]. split; [reflexivity|]. split; [reflexivity|].
  destruct (progress_line_handling demo (lit "C:\in")
              (lit "PROGRESS|one|1|A.xlsx" ++ [newline])
              (lit "one|1|A.xlsx") demo_start eq_refl)
    as (_ & _ & _ & Hfour).
  destruct (Hfour (lit "one") (lit "1") (lit "A.xlsx") eq_refl H1 H2)
    as [Hskip _].
  destruct (progress_line_handling demo (lit "C:\in")
              (lit "PROGRESS|1|2" ++ [newline])
              (lit "1|2") demo_start eq_refl)
    as (_ & _ & Hthree & _).
  exact (conj (proj1 (Hskip (or_introl eq_refl)))
              (proj1 (Hthree (lit "1") (lit "2") eq_refl H2 H3))).
Defined.

End Scenarios.

(** ** More on the sheet naming policy *)

Module NamingMore.
Import Naming NamingFacts.

Implicit Types (name base : str) (E : gset str).

(** X1. [truncate_sheet_name] keeps a prefix: the first [max_len] characters
    for a bound that is not negative, all but the last [-max_len] ones for
    a negative bound; a name that fits is left as it is. *)
Theorem truncate_sheet_name_spec name (max_len : Z) :
  truncate_sheet_name name max_len `prefix_of` name
  ∧ Z.of_nat (length (truncate_sheet_name name max_len))
    = (if 0 <=? max_len then Z.min max_len (Z.of_nat (length name))
       else Z.max 0 (Z.of_nat (length name) + max_len))
  ∧ (Z.of_nat (length name) ≤ max_len → truncate_sheet_name name max_len = name)
  ∧ (length (truncate_sheet_name name 31) ≤ 31)%nat.
Proof.
  unfold truncate_sheet_name, slice_to. repeat split.
  - destruct (0 <=? max_len); apply prefix_take.
  - destruct (Z.leb_spec 0 max_len); rewrite length_take; lia.
  - intros Hfit. destruct (Z.leb_spec 0 max_len); [|lia].
    apply take_ge. lia.
  - simpl. rewrite length_take. lia.
Qed.

Lemma elem_of_take_legal (n : nat) name :
  (∀ c, c ∈ name → c ∉ illegal) → ∀ c, c ∈ take n name → c ∉ illegal.
Proof.
  intros H c Hc. apply H. destruct (prefix_take name n) as [k Hk].
  rewrite Hk. apply elem_of_app. by left.
Qed.

Lemma str_of_int_digits n :
  2 ≤ n < 10000 → Forall (λ c, (48 ≤ c ≤ 57)%N) (str_of_int n).
Proof.
  intros Hn.
  assert (forallb (λ n, forallb (λ c, (48 <=? c)%N && (c <=? 57)%N)
                          (str_of_int n))
            (py_range 2 10000) = true) as H by (vm_compute; reflexivity).
  rewrite forallb_forall in H.
  specialize (H n). rewrite <- list_elem_of_In, elem_of_py_range in H.
  specialize (H Hn). rewrite forallb_forall in H.
  apply Forall_forall. intros c Hc%list_elem_of_In.
  specialize (H c Hc). apply andb_prop in H as [H1 H2].
  apply N.leb_le in H1, H2. done.
Qed.

Lemma digit_legal (c : char) : (48 ≤ c ≤ 57)%N → c ∉ illegal.
Proof.
  intros Hc. rewrite illegal_codes, !not_elem_of_cons.
  repeat split; try lia. apply not_elem_of_nil.
Qed.

Lemma digit_not_underscore (c : char) : (48 ≤ c ≤ 57)%N → c ≠ underscore.
Proof. unfold underscore. lia. Qed.

Lemma base_valid desired :
  valid_sheet_name (truncate_sheet_name (sanitize_sheet_name desired) 31).
Proof.
  unfold truncate_sheet_name. rewrite slice_to_take by lia.
  pose proof (sanitize_nonempty desired) as Hne.
  repeat split.
  - by destruct (sanitize_sheet_name desired).
  - rewrite length_take. lia.
  - apply elem_of_take_legal. apply sanitize_legal.
Qed.

Lemma candidate_valid base n :
  2 ≤ n < 10000 → (∀ c, c ∈ base → c ∉ illegal) →
  valid_sheet_name (candidate base n).
Proof.
  intros Hn Hbase. repeat split.
  - rewrite candidate_unfold by done. by destruct (take _ base).
  - by apply candidate_length.
  - rewrite candidate_unfold by done. intros c.
    rewrite !elem_of_app. intros [Hc|[Hc|Hc]].
    + by eapply elem_of_take_legal.
    + apply list_elem_of_singleton in Hc as ->. apply underscore_legal.
    + apply digit_legal.
      pose proof (str_of_int_digits n Hn) as Hd.
      rewrite Forall_forall in Hd. by apply Hd.
Qed.

Lemma unique_name_valid E desired (r : str) :
  make_unique_sheet_name E desired = Ok r →
  valid_sheet_name r ∧ (r ∉ E).
Proof.
  unfold make_unique_sheet_name.
  pose proof (base_valid desired) as Hbase.
  set (base := truncate_sheet_name (sanitize_sheet_name desired) 31) in *.
  case_bool_decide as Hin.
  - destruct (probe E base (py_range 2 10000)) as [c|] eqn:Hp; [|done].
    intros [= <-].
    apply probe_Some in Hp as [Hc (i & n & Hi & -> & _)].
    unfold py_range in Hi. apply lookup_seqZ in Hi as [-> Hi].
    split; [|done]. apply candidate_valid; [lia|]. apply Hbase.
  - by intros [= <-].
Qed.

(** X2. The name [make_unique_sheet_name] returns is always one the host can
    take: not empty, at most 31 characters, free of the illegal characters,
    and not yet in the registry. *)
Theorem make_unique_sheet_name_valid E desired (r : str) :
  make_unique_sheet_name E desired = Ok r →
  valid_sheet_name r ∧ (r ∉ E).
Proof. apply unique_name_valid. Qed.

(** X3. A name that is already valid, carries no surrounding whitespace and is
    free in the registry is returned as it is. *)
Theorem make_unique_sheet_name_keeps E desired :
  valid_sheet_name desired → trimmed desired → desired ∉ E →
  make_unique_sheet_name E desired = Ok desired.
Proof.
  intros (Hne & Hlen & Hleg) Htr Hfree. unfold make_unique_sheet_name.
  rewrite (sanitize_fix desired Hne Htr Hleg).
  unfold truncate_sheet_name. rewrite slice_to_take by lia.
  rewrite take_ge by lia. by rewrite bool_decide_eq_false_2.
Qed.

(** *** The exhaustion edge needs a crowded registry *)

Lemma str_of_int_parse n :
  2 ≤ n < 10000 → AsciiRuntime.digits 0 (str_of_int n) = Some n.
Proof.
  intros Hn.
  assert (forallb (λ n, bool_decide
                          (AsciiRuntime.digits 0 (str_of_int n) = Some n))
            (py_range 2 10000) = true) as H by (vm_compute; reflexivity).
  rewrite forallb_forall in H.
  specialize (H n). rewrite <- list_elem_of_In, elem_of_py_range in H.
  by apply bool_decide_eq_true in H.
Qed.

Lemma str_of_int_inj n m :
  2 ≤ n < 10000 → 2 ≤ m < 10000 → str_of_int n = str_of_int m → n = m.
Proof.
  intros Hn Hm Heq. pose proof (str_of_int_parse n Hn) as H1.
  rewrite Heq, (str_of_int_parse m Hm) in H1. by injection H1.
Qed.

(** The first occurrence of a mark fixes what stands before it. *)
Lemma before_mark_unique (x : char) (l1 l2 r1 r2 : str) :
  x ∉ l1 → x ∉ l2 → l1 ++ x :: r1 = l2 ++ x :: r2 → l1 = l2.
Proof.
  revert l2. induction l1 as [|a l1 IH]; intros [|b l2] H1 H2 Heq;
    simpl in *; try done.
  - injection Heq as <- _. destruct H2. by left.
  - injection Heq as -> _. destruct H1. by left.
  - injection Heq as -> Heq. f_equal.
    apply not_elem_of_cons in H1 as [_ H1].
    apply not_elem_of_cons in H2 as [_ H2]. by apply IH.
Qed.

Lemma underscore_not_in_digits n :
  2 ≤ n < 10000 → underscore ∉ reverse (str_of_int n).
Proof.
  intros Hn Hin. rewrite elem_of_reverse in Hin.
  pose proof (str_of_int_digits n Hn) as Hd. rewrite Forall_forall in Hd.
  by apply (digit_not_underscore underscore (Hd _ Hin)).
Qed.

(** Different suffix numbers give different candidates. *)
Lemma candidate_inj base n m :
  2 ≤ n < 10000 → 2 ≤ m < 10000 →
  candidate base n = candidate base m → n = m.
Proof.
  intros Hn Hm. rewrite !candidate_unfold by done. intros Heq.
  apply (f_equal reverse) in Heq.
  rewrite !reverse_app in Heq. change (reverse (lit "_")) with [underscore] in Heq.
  rewrite <- !app_assoc in Heq. simpl in Heq.
  apply before_mark_unique in Heq;
    [| by apply underscore_not_in_digits | by apply underscore_not_in_digits].
  apply (f_equal reverse) in Heq. rewrite !reverse_involutive in Heq.
  by apply str_of_int_inj.
Qed.

Lemma candidates_NoDup base (ns : list Z) :
  (∀ n, n ∈ ns → 2 ≤ n < 10000) → NoDup ns →
  NoDup (candidate base <$> ns).
Proof.
  intros Hns Hnd. apply NoDup_fmap_2_strong; [|done].
  intros n m Hn Hm. apply candidate_inj; by apply Hns.
Qed.

Lemma unique_name_exists E desired :
  Z.of_nat (size E) < 9998 →
  ∃ r : str, make_unique_sheet_name E desired = Ok r.
Proof.
  intros Hsize. unfold make_unique_sheet_name.
  generalize (truncate_sheet_name (sanitize_sheet_name desired) 31).
  intros base. case_bool_decide as Hin; [|by eexists].
  destruct (probe E base (py_range 2 10000)) as [c|] eqn:Hp; [by eexists|].
  exfalso.
  pose proof (probe_None E base _ Hp) as Hall.
  assert (NoDup (candidate base <$> py_range 2 10000)) as Hnd.
  { apply candidates_NoDup; [|apply NoDup_seqZ].
    intros n. by rewrite elem_of_py_range. }
  assert (length (candidate base <$> py_range 2 10000)
          ≤ size E)%nat as Hle.
  { rewrite <- (size_list_to_set (C:=gset str)) by done.
    apply subseteq_size. intros c [n [-> Hn]]%elem_of_list_to_set%list_elem_of_fmap.
    by apply Hall. }
  revert Hle. rewrite length_fmap. unfold py_range. rewrite length_seqZ. lia.
Qed.

(** X4. [make_unique_sheet_name] can only fail on a registry of at least 9998
    names: with fewer it always returns a name. *)
Theorem make_unique_sheet_name_succeeds E desired :
  Z.of_nat (size E) < 9998 →
  ∃ r : str, make_unique_sheet_name E desired = Ok r.
Proof. apply unique_name_exists. Qed.

End NamingMore.

(** ** More on the folder scan *)

Section ScanMore.
Context {rt : PyRuntime}.

(** X5. The scan lists no more entries than the folder has, each of them an
    entry of the folder that [is_excel_file] accepts, and it is empty
    exactly when [is_excel_file] rejects every entry of the folder. *)
Theorem scan_folder_empty (listing : list dir_entry) :
  (length (scan_folder listing) ≤ length listing)%nat
  ∧ Forall (λ p, p ∈ listing ∧ is_excel_file p = true) (scan_folder listing)
  ∧ (scan_folder listing = [] ↔ ∀ p, p ∈ listing → is_excel_file p = false).
Proof.
  unfold scan_folder.
  set (key := λ p, lower (path_name (entry_path p))).
  set (kept := filter (λ p, is_excel_file p = true) listing).
  pose proof (sorted_by_perm key kept) as Hperm.
  split; [|split].
  - rewrite Hperm. apply length_filter.
  - apply Forall_forall. intros p. rewrite Hperm. unfold kept.
    rewrite list_elem_of_filter. tauto.
  - split.
    + intros Hnil p Hp. destruct (is_excel_file p) eqn:Hx; [|done].
      assert (p ∈ kept) as Hk by (by apply list_elem_of_filter).
      rewrite <- Hperm, Hnil in Hk. by apply elem_of_nil in Hk.
    + intros Hnone. assert (kept = []) as ->; [|done].
      apply elem_of_nil_inv. intros p [Hx Hp]%list_elem_of_filter.
      rewrite (Hnone p Hp) in Hx. done.
Qed.

End ScanMore.

(** ** How a run of the primary strategy ends *)

Lemma noraise_try_except {A} (m : M A) (h : exn → M A) :
  (∀ e, noraise (h e)) → noraise (try_except m h).
Proof.
  intros Hh s e. unfold outcome, try_except.
  destruct (m s) as [[[a|e']|] s'] eqn:Hm; simpl; [done| |done].
  apply Hh.
Qed.

(** Without an exception the handler is never entered. *)
Lemma try_except_noraise {A} (m : M A) (h : exn → M A) s :
  noraise m → try_except m h s = m s.
Proof.
  intros Hm. specialize (Hm s). unfold outcome, try_except in *.
  destruct (m s) as [[[a|e]|] s']; simpl in *; [done| |done].
  by destruct (Hm e).
Qed.

Lemma triple_bind_returns {A B} P R Q (m : M A) (f : A → M B) :
  returns m → hoare P m R → (∀ a, triple R (f a) Q) → triple P (m ≫= f) Q.
Proof.
  intros Hret Hm Hf s Hs.
  destruct (exec_bind_returns m f s Hret) as [a [_ Heq]].
  unfold outcome, exec. rewrite Heq. apply Hf. by apply Hm.
Qed.

Section PrimaryEnding.
Context {rt : PyRuntime} (w : world).

Implicit Types (R : list str) (D : list status) (T : list (str * Z)).

Lemma save_requests_app q1 q2 :
  save_requests (q1 ++ q2) = save_requests q1 ++ save_requests q2.
Proof. apply omap_app. Qed.

Lemma saved_ops_app t1 t2 : saved_ops (t1 ++ t2) = saved_ops t1 ++ saved_ops t2.
Proof. unfold saved_ops. by rewrite fmap_app, omap_app. Qed.

Ltac unsaved_side :=
  let s := fresh "s" in let Hs := fresh "Hs" in
  intros s Hs; unfold unsaved, apply_step in *; simpl;
  rewrite ?save_requests_app, ?done_events_app, ?saved_ops_app; simpl;
  rewrite ?app_nil_r; exact Hs.

Lemma copy_sheet_unsaved R D T path sidx desired :
  preserves (unsaved R D T) (copy_sheet w path sidx desired).
Proof. solve_preserves unsaved_side. Qed.

Lemma sheet_loop_unsaved R D T path names :
  ∀ sidx, preserves (unsaved R D T) (sheet_loop w path sidx names).
Proof.
  induction names as [|desired rest IH]; intros sidx; simpl.
  - apply preserves_ret.
  - solve_preserves unsaved_side. apply IH.
Qed.

Lemma process_file_unsaved R D T total idx src_path :
  preserves (unsaved R D T) (process_file w total idx src_path).
Proof.
  unfold process_file, progress. solve_preserves unsaved_side.
  apply sheet_loop_unsaved.
Qed.

Lemma file_loop_unsaved R D T total files :
  ∀ idx, preserves (unsaved R D T) (file_loop w total idx files).
Proof.
  induction files as [|src_path rest IH]; intros idx; simpl.
  - apply preserves_ret.
  - solve_preserves unsaved_side; [apply process_file_unsaved | apply IH].
Qed.

Lemma delete_initial_unsaved R D T initial :
  preserves (unsaved R D T) (delete_initial w initial).
Proof.
  induction initial as [|sh rest IH]; simpl.
  - apply preserves_ret.
  - solve_preserves unsaved_side. apply IH.
Qed.

Lemma remove_placeholders_unsaved R D T initial :
  preserves (unsaved R D T) (remove_placeholders w initial).
Proof.
  unfold remove_placeholders. solve_preserves unsaved_side.
  apply delete_initial_unsaved.
Qed.

Lemma delete_initial_returns initial : returns (delete_initial w initial).
Proof.
  induction initial as [|sh rest IH]; simpl.
  - apply returns_ret.
  - solve_returns. apply IH.
Qed.

Lemma remove_placeholders_returns initial :
  returns (remove_placeholders w initial).
Proof.
  unfold remove_placeholders. solve_returns. apply delete_initial_returns.
Qed.

(** The number of tests of the cancellation flag made so far is [k]. *)
Ltac checks_side :=
  let s := fresh "s" in let Hs := fresh "Hs" in intros s Hs; exact Hs.

Lemma delete_initial_checks k initial :
  preserves (λ s, cancel_checks s = k) (delete_initial w initial).
Proof.
  induction initial as [|sh rest IH]; simpl.
  - apply preserves_ret.
  - solve_preserves checks_side. apply IH.
Qed.

Lemma remove_placeholders_checks k initial :
  preserves (λ s, cancel_checks s = k) (remove_placeholders w initial).
Proof.
  unfold remove_placeholders. solve_preserves checks_side.
  apply delete_initial_checks.
Qed.

Lemma save_loop_checks k suggested fuel :
  preserves (λ s, cancel_checks s = k) (save_loop w suggested fuel).
Proof.
  induction fuel as [|fuel IH]; simpl.
  - apply preserves_suspended.
  - solve_preserves checks_side; apply IH.
Qed.

(** [release] returns, and changes neither the messages nor the saves. *)
Lemma release_frame a s :
  ∃ s', release w a s = (Some (Ok ()), s')
        ∧ ui_queue s' = ui_queue s
        ∧ cancel_checks s' = cancel_checks s
        ∧ saved_ops (trace s') = saved_ops (trace s)
        ∧ dest s' = dest s
        ∧ save_queue s' = save_queue s.
Proof.
  unfold release, host_close_dest, host_quit, record_step, get_state.
  unfold mbind, M_bind, mret, M_ret, modify, gets, raise, try_except.
  assert (∀ op t, saved_ops (t ++ [{| step_op := op; sheets_before := dest s;
                                      sheets_after := dest s |}])
                  = saved_ops t
                    ++ match op with
                       | OpSaveAs p f => [(p, f)]
                       | _ => []
                       end) as Hop.
  { intros op t. unfold saved_ops. rewrite fmap_app, omap_app.
    by destruct op. }
  destruct a; simpl.
  - by eexists.
  - by eexists.
  - destruct (quit_ok w (teardown_calls s)); simpl;
      eexists; (split; [reflexivity|]); simpl; rewrite ?Hop, ?app_nil_r; done.
  - destruct (close_dest_ok w (teardown_calls s)); simpl;
      destruct (quit_ok w (S (teardown_calls s))); simpl;
      eexists; (split; [reflexivity|]); simpl; rewrite ?Hop, ?app_nil_r; done.
Qed.

Section Closing.
(** The destination can be closed and the application quit. *)
Hypothesis Hclose : ∀ k, close_dest_ok w k = true.
Hypothesis Hquit : ∀ k, quit_ok w k = true.

Lemma finish_closing st s :
  ∃ s', (host_close_dest w;; host_quit w;; put_event (Done st)) s
        = (Some (Ok ()), s')
        ∧ ui_queue s' = ui_queue s ++ [Done st]
        ∧ saved_ops (trace s') = saved_ops (trace s)
        ∧ cancel_checks s' = cancel_checks s.
Proof using Hclose Hquit.
  rewrite finish_eq. cbv zeta. rewrite Hclose, Hquit.
  eexists. split; [reflexivity|]. simpl. split; [done|]. split; [|done].
  unfold saved_ops. rewrite !fmap_app, !omap_app. simpl.
  by rewrite !app_nil_r.
Qed.

(** The save handshake ends in one of three ways, after one request or
    more. *)
Lemma save_loop_result suggested D T fuel :
  ∀ R s, unsaved R D T s → (length (save_queue s) < fuel)%nat →
         save_ending suggested R D T
           (outcome (save_loop w suggested fuel) s)
           (exec (save_loop w suggested fuel) s).
Proof using Hclose Hquit.
  induction fuel as [|fuel IH]; intros R s (HR & HD & HT) Hlen; [lia|].
  unfold outcome, exec, save_ending.
  destruct (save_queue s) as [|[p|] q] eqn:Hq.
  - destruct (save_loop_waiting w suggested fuel s Hq)
      as (s' & -> & Hu & Ht & _). cbn [fst snd].
    split.
    + exists 0%nat. by rewrite Hu, save_requests_app, HR.
    + left. rewrite Hu, done_events_app, Ht. cbn. by rewrite app_nil_r.
  - destruct (save_ok w (save_attempts s) p (fileformat_for_path p)) eqn:Hok.
    + destruct (save_loop_success w suggested fuel s p q Hq Hok)
        as (s1 & -> & Hu & _ & _ & Ht & _).
      destruct (finish_closing Saved s1) as (s' & -> & Hu' & Ht' & _).
      cbn [fst snd]. rewrite Hu', Hu, Ht', Ht.
      split.
      * exists 0%nat.
        rewrite !save_requests_app, HR. cbn. by rewrite app_nil_r.
      * right. right. split; [done|]. split; [by rewrite last_snoc|].
        split; [rewrite !done_events_app, HD; cbn; by rewrite app_nil_r|].
        exists p. by rewrite saved_ops_app, HT.
    + destruct (save_loop_failure w suggested fuel s p q Hq Hok)
        as (s1 & -> & Hu & Hq1 & _ & _ & Ht & _).
      assert (unsaved (R ++ [suggested]) D T s1) as Hs1.
      { unfold unsaved.
        rewrite Hu, save_requests_app, done_events_app, Ht, HR, HD.
        cbn. by rewrite app_nil_r. }
      destruct (IH (R ++ [suggested]) s1 Hs1) as [[n Hn] Hcases].
      { rewrite Hq1. simpl in Hlen. lia. }
      split; [|exact Hcases].
      exists (S n). unfold exec in Hn. by rewrite Hn, <- app_assoc.
  - destruct (save_loop_abort w suggested fuel s q Hq)
      as (s1 & -> & Hu & _ & _ & Ht & _).
    destruct (finish_closing NoSave s1) as (s' & -> & Hu' & Ht' & _).
    cbn [fst snd]. rewrite Hu', Hu, Ht', Ht.
    split.
    + exists 0%nat.
      rewrite !save_requests_app, HR. cbn. by rewrite app_nil_r.
    + right. left. split; [done|]. split; [by rewrite last_snoc|].
      split; [rewrite !done_events_app, HD; cbn; by rewrite app_nil_r|].
      done.
Qed.

(** From the end of the loop over the files on. *)
Lemma after_files_ending folder initial_sheets s0 :
  triple (unsaved (save_requests (ui_queue s0)) (done_events (ui_queue s0))
            (saved_ops (trace s0)))
    (c ← is_set w;
     if c : bool then
       host_close_dest w;; host_quit w;; put_event (Done Cancelled)
     else
       remove_placeholders w initial_sheets;;
       log MsgMerged;;
       save_handshake w (safe_default_filename folder (clock w)))
    (primary_ending w (safe_default_filename folder (clock w)) s0).
Proof using Hclose Hquit.
  intros s1 (HR & HD & HT). unfold outcome, exec, primary_ending.
  rewrite bind_eq.
  change (is_set w s1)
    with (Some (Ok (cancel_event w (cancel_checks s1))),
          set_cancel_checks (S (cancel_checks s1)) s1).
  cbv beta iota. exists (cancel_checks s1).
  destruct (cancel_event w (cancel_checks s1)) eqn:Hflag.
  - destruct (finish_closing Cancelled
                (set_cancel_checks (S (cancel_checks s1)) s1))
      as (s' & -> & Hu & Ht & Hk).
    cbn [fst snd]. rewrite Hk, Hu, Ht. cbn [ui_queue trace cancel_checks
      set_cancel_checks].
    rewrite last_snoc, done_events_app, save_requests_app, HR, HD, HT.
    cbn. by rewrite !app_nil_r.
  - set (s2 := set_cancel_checks (S (cancel_checks s1)) s1).
    set (R := save_requests (ui_queue s0)) in *.
    set (D := done_events (ui_queue s0)) in *.
    set (T := saved_ops (trace s0)) in *.
    set (I := λ s, unsaved R D T s ∧ cancel_checks s = S (cancel_checks s1)).
    assert (I s2) as Hs2 by done.
    assert (∀ m : M unit, preserves (unsaved R D T) m →
              preserves (λ s, cancel_checks s = S (cancel_checks s1)) m →
              hoare I m I) as Hboth.
    { intros m H1 H2 s [Hu Hk]. split; [by apply H1 | by apply H2]. }
    assert (triple I
              (remove_placeholders w initial_sheets;;
               log MsgMerged;;
               save_handshake w (safe_default_filename folder (clock w)))
              (λ o s', cancel_checks s' = S (cancel_checks s1)
                       ∧ save_ending (safe_default_filename folder (clock w))
                           R D T o s')) as Hrest.
    { apply (triple_bind_returns I I); [apply remove_placeholders_returns | |].
      { apply Hboth;
          [apply remove_placeholders_unsaved | apply remove_placeholders_checks]. }
      intros _.
      apply (triple_bind_returns I I); [unfold log; solve_returns | |].
      { apply Hboth; unfold log; solve_preserves unsaved_side. }
      intros _ s [Hu Hk]. split.
      - by apply (save_loop_checks (S (cancel_checks s1))).
      - apply save_loop_result; [done | lia]. }
    destruct (Hrest s2 Hs2) as [Hk Hend]. by split.
Qed.

Lemma merge_workbooks_ending folder files s :
  primary_ending w (safe_default_filename folder (clock w)) s
    (outcome (merge_workbooks w folder files) s)
    (exec (merge_workbooks w folder files) s).
Proof using Hclose Hquit.
  set (P := unsaved (save_requests (ui_queue s)) (done_events (ui_queue s))
              (saved_ops (trace s))).
  assert (triple P (merge_workbooks w folder files)
            (primary_ending w (safe_default_filename folder (clock w)) s))
    as Hrun; [|by apply Hrun].
  unfold merge_workbooks.
  apply (triple_bind_returns P P); [solve_returns | by intros ? ? |].
  intros initial_sheets.
  apply (triple_bind_returns P P); [unfold log; solve_returns | |].
  { change (preserves P (log (MsgFileCount (Z.of_nat (length files))))).
    unfold P, log. solve_preserves unsaved_side. }
  intros _.
  apply (triple_bind_returns P P); [solve_returns | by intros ? ? |].
  intros _.
  apply (triple_bind_returns P P); [apply file_loop_returns | |].
  { apply file_loop_unsaved. }
  intros _. apply after_files_ending.
Qed.

(** How the body ends is how [_run_impl] ends: the [finally] clause sends
    no message and saves nothing. *)
Lemma run_impl_primary_ending folder files s :
  acquisition w = Acquired →
  primary_ending w (safe_default_filename folder (clock w)) s
    (outcome (run_impl_primary w folder files) s)
    (exec (run_impl_primary w folder files) s).
Proof using Hclose Hquit.
  intros Hgot. unfold run_impl_primary. rewrite Hgot.
  pose proof (merge_workbooks_ending folder files s) as Hend.
  unfold outcome, exec, try_finally in *.
  destruct (merge_workbooks w folder files s) as [[r|] s1];
    cbn [fst snd] in *; [|exact Hend].
  destruct (release_frame Acquired s1) as (s2 & -> & Hu & Hk & Ht & _).
  cbn [fst snd]. unfold primary_ending, save_ending in *.
  rewrite Hu, Hk, Ht. exact Hend.
Qed.

Lemma primary_ending_noraise suggested s0 o s' e :
  primary_ending w suggested s0 o s' → o ≠ Some (Raise e).
Proof.
  intros (k & _ & Hk) ->. destruct (cancel_event w k).
  - by destruct Hk as [? _].
  - by destruct Hk as [_ [(? & _) | [(? & _) | (? & _)]]].
Qed.

End Closing.


End PrimaryEnding.

(** ** Progress messages when cancellation is requested *)

Section ProgressPrefix.
Context {rt : PyRuntime} (w : world).

(** Some test of the cancellation flag made so far found it set. *)
Local Abbreviation seen := (λ s : wstate,
  ∃ k, (k < cancel_checks s)%nat ∧ cancel_event w k = true).

Ltac still_side :=
  let s := fresh "s" in let Hs := fresh "Hs" in
  intros s Hs; unfold progress_is in *; simpl;
  rewrite ?progress_events_app; simpl; rewrite ?app_nil_r; exact Hs.

Lemma is_set_seen : preserves seen (is_set w).
Proof.
  intros s (k & Hk & Hset). unfold exec, is_set.
  unfold mbind, M_bind, mret, M_ret, modify, gets. simpl.
  exists k. split; [lia | done].
Qed.

Ltac solve_seen :=
  repeat first
    [ apply is_set_seen
    | preserves_struct
    | apply preserves_modify; (let s := fresh "s" in intros s ?; done)
    | progress unfold progress
    | progress autounfold with worker ].

Lemma sheet_loop_seen path names :
  ∀ sidx, preserves seen (sheet_loop w path sidx names).
Proof.
  induction names as [|desired rest IH]; intros sidx; cbn [sheet_loop].
  - apply preserves_ret.
  - solve_seen. apply IH.
Qed.

Lemma process_file_seen total idx src_path :
  preserves seen (process_file w total idx src_path).
Proof. unfold process_file. solve_seen. apply sheet_loop_seen. Qed.

(** The loop over the files sends the progress messages of the first [j]
    files; it stops early only when a test found the flag set. *)
Lemma file_loop_prefix total files :
  ∀ idx L s,
    progress_is L s →
    ∃ j, (j ≤ length files)%nat
         ∧ progress_is (L ++ take j (expected_progress total idx files))
             (exec (file_loop w total idx files) s)
         ∧ ((j < length files)%nat → seen (exec (file_loop w total idx files) s)).
Proof.
  induction files as [|src_path rest IH]; intros idx L s Hs.
  - exists 0%nat. split; [done|]. split; [|simpl; lia].
    unfold expected_progress. simpl. by rewrite app_nil_r.
  - unfold exec. cbn [file_loop]. unfold is_set.
    rewrite !bind_eq. simpl.
    destruct (cancel_event w (cancel_checks s)) eqn:Hflag.
    + exists 0%nat. split; [lia|]. split.
      * unfold progress_is in *. simpl.
        rewrite progress_events_app, Hs. simpl. by rewrite !app_nil_r.
      * intros _. simpl. exists (cancel_checks s). split; [lia | done].
    + set (s1 := set_cancel_checks (S (cancel_checks s)) s).
      destruct (exec_bind_returns
                  (process_file w total idx src_path)
                  (λ _, file_loop w total (idx + 1) rest) s1
                  (process_file_returns _ _ _ _)) as [[] [_ Heq]].
      rewrite Heq. clear Heq.
      destruct (IH (idx + 1) (L ++ [(idx, total, path_name src_path)])
                  (exec (process_file w total idx src_path) s1))
        as (j & Hj & Hprog & Hseen).
      { by apply process_file_progress. }
      exists (S j). split; [simpl; lia|]. split.
      * unfold expected_progress in *. rewrite imap_cons. cbn [take].
        rewrite <- app_assoc in Hprog. simpl in Hprog.
        rewrite Z.add_0_r.
        erewrite (imap_ext _ (λ i p, (idx + 1 + Z.of_nat i, total, path_name p)));
          [exact Hprog|].
        intros i p _. simpl. do 2 f_equal. lia.
      * intros Hlt. apply Hseen. simpl in Hlt. lia.
Qed.

(** The loop over the files neither closes the destination nor quits. *)
Ltac teardown_side :=
  let s := fresh "s" in let Hs := fresh "Hs" in
  intros s Hs; simpl; exact Hs.

Lemma sheet_loop_teardown n path names :
  ∀ sidx, preserves (λ s, teardown_calls s = n) (sheet_loop w path sidx names).
Proof.
  induction names as [|desired rest IH]; intros sidx; cbn [sheet_loop].
  - apply preserves_ret.
  - solve_preserves teardown_side. apply IH.
Qed.

Lemma file_loop_teardown n total files :
  ∀ idx, preserves (λ s, teardown_calls s = n) (file_loop w total idx files).
Proof.
  induction files as [|src_path rest IH]; intros idx; cbn [file_loop].
  - apply preserves_ret.
  - unfold process_file.
    solve_preserves teardown_side; first [apply sheet_loop_teardown | apply IH].
Qed.

(** After the loop: no progress message. *)
Lemma after_files_progress L folder initial_sheets :
  preserves (progress_is L)
    (c ← is_set w;
     if c : bool then
       host_close_dest w;; host_quit w;; put_event (Done Cancelled)
     else
       remove_placeholders w initial_sheets;;
       log MsgMerged;;
       save_handshake w (safe_default_filename folder (clock w))).
Proof.
  solve_preserves still_side.
  - apply remove_placeholders_quiet.
  - apply save_handshake_quiet.
Qed.

Lemma run_with_progress L (impl : M unit) :
  preserves (progress_is L) impl → preserves (progress_is L) (run_with impl).
Proof.
  intros Himpl. unfold run_with. apply preserves_try_except; [done|].
  intros e. solve_preserves still_side.
Qed.

(** What the handler of [run] leaves behind. *)
Lemma run_with_raise (impl : M unit) s s1 e :
  impl s = (Some (Raise e), s1) →
  ui_queue (exec (run_with impl) s)
  = ui_queue s1 ++ [Log (MsgError e); ErrorEvent e; Done Error].
Proof.
  intros Himpl. unfold exec, run_with, try_except. rewrite Himpl.
  unfold log, put_event. unfold mbind, M_bind, modify. simpl.
  by rewrite <- !app_assoc.
Qed.

Lemma run_with_ok (impl : M unit) s s1 :
  impl s = (Some (Ok ()), s1) → exec (run_with impl) s = s1.
Proof.
  intros Himpl. unfold exec, run_with, try_except. by rewrite Himpl.
Qed.

(** When the test after the loop finds the flag set, the run ends
    [Cancelled] if [Close] and [Quit] succeed and [Error] if not. *)
Lemma after_files_cancelled folder initial_sheets s :
  cancel_event w (cancel_checks s) = true →
  last (ui_queue (exec
    (run_with
       (try_finally
          (c ← is_set w;
           if c : bool then
             host_close_dest w;; host_quit w;; put_event (Done Cancelled)
           else
             remove_placeholders w initial_sheets;;
             log MsgMerged;;
             save_handshake w (safe_default_filename folder (clock w)))
          (release w Acquired))) s))
  = Some (Done (if close_dest_ok w (teardown_calls s)
                   && quit_ok w (S (teardown_calls s))
                then Cancelled else Error)).
Proof.
  intros Hflag.
  set (s2 := set_cancel_checks (S (cancel_checks s)) s).
  destruct (finish_cases w Cancelled s2) as (s3 & Hfin & Hu & _).
  destruct (release_frame w Acquired s3) as (s4 & Hrel & Hu4 & _).
  change (teardown_calls s2) with (teardown_calls s) in *.
  match goal with
  | |- last (ui_queue (exec (run_with ?m) s)) = _ =>
      assert (m s
              = (Some (if close_dest_ok w (teardown_calls s)
                          && quit_ok w (S (teardown_calls s))
                       then Ok () else Raise HostError), s4)) as Hbody
  end.
  { unfold try_finally. rewrite bind_eq.
    change (is_set w s)
      with (Some (Ok (cancel_event w (cancel_checks s))), s2).
    cbv beta iota. rewrite Hflag. rewrite Hfin, Hrel. done. }
  destruct (close_dest_ok w (teardown_calls s)
            && quit_ok w (S (teardown_calls s))).
  - rewrite (run_with_ok _ _ _ Hbody), Hu4, Hu. apply last_snoc.
  - rewrite (run_with_raise _ _ _ _ Hbody).
    by rewrite last_app.
Qed.

(** X7. In every run of the primary strategy the progress messages are those of
    the first [j] files of the list, in order and without a gap, for some
    [j]: cancellation cuts the sequence short but never reorders it or skips
    a file.  When the host application or the destination workbook is not
    acquired, there is no progress message and the run ends [Error].  When
    they are acquired and the cancellation flag, once set, stays set, a
    sequence that stops before the last file means that the run ends
    [Cancelled] if the [Close] and the [Quit] that follow succeed, and
    [Error] if one of them raises. *)
Theorem primary_progress_prefix folder files s :
  com_available w = true →
  let N := Z.of_nat (length files) in
  let s' := exec (run w folder files) s in
  ∃ j, (j ≤ length files)%nat
    ∧ progress_events (ui_queue s')
      = progress_events (ui_queue s) ++ take j (expected_progress N 1 files)
    ∧ (acquisition w ≠ Acquired →
       j = 0%nat ∧ last (ui_queue s') = Some (Done Error))
    ∧ (acquisition w = Acquired →
       (∀ k k', (k ≤ k')%nat → cancel_event w k = true →
                cancel_event w k' = true) →
       (j < length files)%nat →
       last (ui_queue s')
       = Some (Done (if close_dest_ok w (teardown_calls s)
                        && quit_ok w (S (teardown_calls s))
                     then Cancelled else Error))).
Proof.
  intros Hcom. cbn zeta.
  destruct (decide (acquisition w = Acquired)) as [Hgot|Hnot].
  - set (initial_sheets := if initial_sheets_ok w then dest s else []).
    set (s0 := set_copied_any false
                 (set_ui_queue
                    (ui_queue s
                     ++ [Log (MsgFileCount (Z.of_nat (length files)))])
                    s)).
    set (tail := c ← is_set w;
                 if c : bool then
                   host_close_dest w;; host_quit w;; put_event (Done Cancelled)
                 else
                   remove_placeholders w initial_sheets;;
                   log MsgMerged;;
                   save_handshake w (safe_default_filename folder (clock w))).
    set (s1 := exec (file_loop w (Z.of_nat (length files)) 1 files) s0).
    assert (merge_workbooks w folder files s = tail s1) as Hmerge.
    { unfold merge_workbooks. rewrite bind_eq. cbn [gets]. cbv beta iota.
      rewrite bind_eq. unfold log at 1, put_event at 1. cbn [modify].
      cbv beta iota. rewrite bind_eq. cbn [modify]. cbv beta iota.
      destruct (exec_bind_returns
                  (file_loop w (Z.of_nat (length files)) 1 files)
                  (λ _, tail) s0 (file_loop_returns _ _ _ _)) as [[] [_ Heq]].
      unfold tail, initial_sheets, s0, s1 in *. by rewrite Heq. }
    assert (exec (run w folder files) s
            = exec (run_with (try_finally tail (release w Acquired))) s1)
      as ->.
    { unfold run, run_impl, run_impl_primary. rewrite Hcom, Hgot.
      unfold exec, run_with, try_except, try_finally.
      by rewrite Hmerge. }
    assert (progress_is (progress_events (ui_queue s)) s0) as Hs0.
    { unfold progress_is, s0. simpl. rewrite progress_events_app. simpl.
      by rewrite app_nil_r. }
    destruct (file_loop_prefix (Z.of_nat (length files)) files 1 _ s0 Hs0)
      as (j & Hj & Hprog & Hseen).
    assert (teardown_calls s1 = teardown_calls s) as Htd.
    { by apply (file_loop_teardown (teardown_calls s)). }
    exists j. split; [done|]. split; [|split; [done|]].
    + apply (run_with_progress _ (try_finally tail (release w Acquired)));
        [|exact Hprog].
      apply preserves_try_finally;
        [apply after_files_progress | apply release_quiet].
    + intros _ Hlatch Hlt. rewrite <- Htd. apply after_files_cancelled.
      destruct (Hseen Hlt) as (k & Hk & Hset).
      apply (Hlatch k); [unfold s1; lia | done].
  - exists 0%nat. split; [lia|]. rewrite take_0, app_nil_r.
    assert (∃ s1, run_impl_primary w folder files s
                  = (Some (Raise HostError), s1)
                  ∧ ui_queue s1 = ui_queue s) as (s1 & Hrun & Hu).
    { unfold run_impl_primary.
      destruct (acquisition w) eqn:Hacq; [by eexists| | |done].
      - destruct (release_frame w NoExcel s) as (s1 & Hrel & Hu1 & _).
        exists s1. split; [|done].
        unfold try_finally, raise. by rewrite Hrel.
      - destruct (release_frame w NoWorkbook s) as (s1 & Hrel & Hu1 & _).
        exists s1. split; [|done].
        unfold try_finally, raise. by rewrite Hrel. }
    assert (ui_queue (exec (run w folder files) s)
            = ui_queue s
              ++ [Log (MsgError HostError); ErrorEvent HostError; Done Error])
      as ->.
    { unfold run, run_impl. rewrite Hcom.
      by rewrite (run_with_raise _ _ _ _ Hrun), Hu. }
    split; [|split; [|done]].
    + rewrite progress_events_app. simpl. by rewrite app_nil_r.
    + intros _. split; [done|]. by rewrite last_app.
Qed.

End ProgressPrefix.

(** ** What the loop over the files does to the destination *)

Ltac run_copy :=
  unfold outcome, exec, copy_sheet, existing_names, host_copy, host_rename,
    name_of, log, put_event, record_step, get_state, lift;
  unfold mbind, M_bind, mret, M_ret, modify, gets, raise, try_except.

Section CopyFacts.
Context {rt : PyRuntime} (w : world).

Lemma rename_in_fresh (i : nat) (n a : str) (l : list sheet) :
  Forall (λ x, (sid x < i)%nat) l →
  rename_in i n (l ++ [{| sid := i; sheet_name := a |}])
  = l ++ [{| sid := i; sheet_name := n |}].
Proof.
  intros Hl. unfold rename_in. rewrite fmap_app. f_equal.
  - rewrite <- (list_fmap_id l) at 2. apply Forall_fmap_ext_1.
    eapply Forall_impl; [exact Hl|]. intros x Hx. simpl in *.
    case_bool_decide; [lia | done].
  - simpl. by case_bool_decide.
Qed.

Lemma filter_sid_fresh (i : nat) (sh : sheet) (l : list sheet) :
  Forall (λ x, (sid x < i)%nat) l → sid sh = i →
  filter (λ x, sid x = i) (l ++ [sh]) = [sh].
Proof.
  intros Hl Hsh. rewrite filter_app.
  replace (filter (λ x, sid x = i) l) with (@nil sheet).
  - simpl. rewrite filter_cons. by destruct (decide (sid sh = i)).
  - symmetry. apply elem_of_nil_inv. intros x [Hx Hin]%list_elem_of_filter.
    rewrite Forall_forall in Hl. specialize (Hl x Hin). lia.
Qed.

(** X8. A worksheet that was copied and named ends up as the last worksheet of
    the destination, under a name that is valid, differs from the names of
    all worksheets that were there before, and is the one the naming policy
    gives for the source name or, after a refused first attempt, for the
    source name followed by [_copy]; the worksheets that were there before
    are as they were, and the log shows the name. *)
Theorem copy_sheet_result path sidx desired s :
  Forall (λ x, (sid x < next_sid s)%nat) (dest s) →
  outcome (copy_sheet w path sidx desired) s = Some (Ok ()) →
  let s' := exec (copy_sheet w path sidx desired) s in
  let existing : gset str := list_to_set (sheet_name <$> dest s) in
  ∃ n : str,
    dest s' = dest s ++ [{| sid := next_sid s; sheet_name := n |}]
    ∧ valid_sheet_name n
    ∧ (n ∉ sheet_name <$> dest s)
    ∧ (Naming.make_unique_sheet_name existing desired = Ok n
       ∨ Naming.make_unique_sheet_name existing (desired ++ lit "_copy") = Ok n)
    ∧ copied_any s' = true
    ∧ last (ui_queue s') = Some (Log (MsgCopy desired n)).
Proof.
  intros Hfresh. cbn zeta. run_copy.
  destruct (copy_ok w path sidx); [|done]. cbv beta iota zeta.
  remember (Naming.make_unique_sheet_name
              (list_to_set (sheet_name <$> dest s)) desired) as u1 eqn:Hu1.
  remember (Naming.make_unique_sheet_name
              (list_to_set (sheet_name <$> dest s)) (desired ++ lit "_copy"))
    as u2 eqn:Hu2.
  set (sh := {| sid := next_sid s;
                sheet_name := auto_name w (dest s) desired |}).
  set (s1 := apply_step (OpCopy sh) (dest s ++ [sh])
               (set_next_sid (S (next_sid s)) s)).
  change (sid sh) with (next_sid s). change (dest s1) with (dest s ++ [sh]).
  assert (∀ n : str,
            let s2 := apply_step (OpRename (next_sid s) n)
                        (rename_in (next_sid s) n (dest s ++ [sh])) s1 in
            dest s2 = dest s ++ [{| sid := next_sid s; sheet_name := n |}]
            ∧ default [] (sheet_name <$>
                head (filter (λ x, sid x = next_sid s) (dest s2))) = n)
    as Hnamed.
  { intros n. cbn zeta. change (dest (apply_step _ ?d _)) with d.
    unfold sh. rewrite rename_in_fresh by done. split; [done|].
    by rewrite filter_sid_fresh. }
  assert (∀ n d, Naming.make_unique_sheet_name
                   (list_to_set (sheet_name <$> dest s)) d = Ok n →
                 valid_sheet_name n ∧ (n ∉ sheet_name <$> dest s)) as Hvalid.
  { intros n d [Hv Hn]%NamingMore.unique_name_valid. split; [done|].
    by rewrite elem_of_list_to_set in Hn. }
  destruct u1 as [a|e]; [|done].
  destruct (rename_ok w (dest s ++ [sh]) (next_sid s) a).
  - intros _. destruct (Hnamed a) as [Hd Hn]. cbn zeta in Hd, Hn.
    destruct (Hvalid a desired) as [Hv Hfree]; [done|].
    exists a. cbn [fst snd]. split; [exact Hd|]. split; [done|].
    split; [done|]. split; [by left|]. split; [done|].
    cbn [ui_queue set_ui_queue]. rewrite last_snoc. do 3 f_equal. exact Hn.
  - cbv beta iota. destruct u2 as [f|e]; [|done].
    change (dest s1) with (dest s ++ [sh]).
    destruct (rename_ok w (dest s ++ [sh]) (next_sid s) f); [|done].
    intros _. destruct (Hnamed f) as [Hd Hn]. cbn zeta in Hd, Hn.
    destruct (Hvalid f (desired ++ lit "_copy")) as [Hv Hfree]; [done|].
    exists f. cbn [fst snd]. split; [exact Hd|]. split; [done|].
    split; [done|]. split; [by right|]. split; [done|].
    cbn [ui_queue set_ui_queue]. rewrite last_snoc. do 3 f_equal. exact Hn.
Qed.

(** *** The loop only adds worksheets *)

Section Extends.
Variables (d0 : list sheet) (n0 : nat).
Hypothesis Hd0 : Forall (λ x, (sid x < n0)%nat) d0.

Local Abbreviation extends := (extends d0 n0).

Lemma rename_in_old (i : nat) (n : str) (added : list sheet) :
  (n0 ≤ i)%nat → rename_in i n (d0 ++ added) = d0 ++ rename_in i n added.
Proof using Hd0.
  intros Hi. unfold rename_in. rewrite fmap_app. f_equal.
  rewrite <- (list_fmap_id d0) at 2. apply Forall_fmap_ext_1.
  eapply Forall_impl; [exact Hd0|]. intros x Hx. simpl in *.
  case_bool_decide; [lia | done].
Qed.

Lemma extends_same op s : extends s → extends (apply_step op (dest s) s).
Proof. intros (added & Hd & Hall & Hn). by exists added. Qed.

Lemma extends_copy (n : str) s :
  extends s →
  extends (apply_step (OpCopy {| sid := next_sid s; sheet_name := n |})
             (dest s ++ [{| sid := next_sid s; sheet_name := n |}])
             (set_next_sid (S (next_sid s)) s)).
Proof.
  intros (added & Hd & Hall & Hn).
  exists (added ++ [{| sid := next_sid s; sheet_name := n |}]).
  split; [by rewrite app_assoc, <- Hd|]. split; [|simpl; lia].
  apply Forall_app. split.
  - eapply Forall_impl; [exact Hall|]. intros x Hx. simpl in *. lia.
  - constructor; [simpl; lia | constructor].
Qed.

Lemma extends_rename (i : nat) (n : str) s :
  (n0 ≤ i)%nat → extends s →
  extends (apply_step (OpRename i n) (rename_in i n (dest s)) s).
Proof using Hd0.
  intros Hi (added & Hd & Hall & Hn).
  exists (rename_in i n added).
  split; [cbn; by rewrite Hd, rename_in_old|]. split; [|done].
  unfold rename_in. apply Forall_fmap.
  eapply Forall_impl; [exact Hall|]. intros x Hx. simpl in *.
  case_bool_decide; simpl; lia.
Qed.

Lemma host_rename_extends (i : nat) (n : str) :
  (n0 ≤ i)%nat → preserves extends (host_rename w i n).
Proof using Hd0.
  intros Hi s Hs. unfold exec, host_rename, record_step, get_state.
  unfold mbind, M_bind, modify, gets, raise. simpl.
  destruct (rename_ok w (dest s) i n); simpl; [|done].
  by apply extends_rename.
Qed.

Ltac extends_side :=
  let s := fresh "s" in let Hs := fresh "Hs" in
  intros s Hs; first [exact Hs | by apply extends_same].

Lemma copy_sheet_extends path sidx desired :
  preserves extends (copy_sheet w path sidx desired).
Proof using Hd0.
  intros s Hs. unfold exec, copy_sheet, existing_names.
  rewrite bind_eq. cbn [gets]. rewrite bind_eq.
  assert (host_copy w path sidx desired s
          = if copy_ok w path sidx
            then let sh := {| sid := next_sid s;
                              sheet_name := auto_name w (dest s) desired |} in
                 (Some (Ok sh),
                  apply_step (OpCopy sh) (dest s ++ [sh])
                    (set_next_sid (S (next_sid s)) s))
            else (Some (Raise HostError), s)) as ->.
  { unfold host_copy. by destruct (copy_ok w path sidx). }
  destruct (copy_ok w path sidx); [|done]. cbv zeta beta iota.
  pose proof (extends_copy (auto_name w (dest s) desired) s Hs) as Hs1.
  pose proof Hs as (_ & _ & _ & Hn).
  match goal with |- extends (?m ?s1).2 =>
    assert (preserves extends m) as Hrest; [|by apply (Hrest s1 Hs1)] end.
  cbn [sid].
  repeat first
    [ apply host_rename_extends; exact Hn
    | preserves_struct
    | apply preserves_modify; extends_side
    | progress unfold name_of, log, put_event ].
Qed.

Lemma host_close_source_extends path :
  preserves extends (host_close_source w path).
Proof.
  intros s Hs. unfold exec, host_close_source, record_step, get_state.
  unfold mbind, M_bind, modify, gets, raise.
  destruct (close_source_ok w path); simpl; [|done].
  by apply extends_same.
Qed.

Ltac solve_extends :=
  repeat first
    [ apply copy_sheet_extends
    | apply host_close_source_extends
    | preserves_struct
    | apply preserves_modify; extends_side
    | progress unfold progress, log, put_event, is_set, host_open,
        close_source ].

Lemma sheet_loop_extends path names :
  ∀ sidx, preserves extends (sheet_loop w path sidx names).
Proof using Hd0.
  induction names as [|desired rest IH]; intros sidx; cbn [sheet_loop].
  - apply preserves_ret.
  - solve_extends. apply IH.
Qed.

Lemma process_file_extends total idx src_path :
  preserves extends (process_file w total idx src_path).
Proof using Hd0. unfold process_file. solve_extends. apply sheet_loop_extends. Qed.

Lemma file_loop_extends total files :
  ∀ idx, preserves extends (file_loop w total idx files).
Proof using Hd0.
  induction files as [|src_path rest IH]; intros idx; cbn [file_loop].
  - apply preserves_ret.
  - solve_extends; [apply process_file_extends | apply IH].
Qed.

End Extends.

(** X9. The loop over the files only adds worksheets to the destination: the
    worksheets that were there when it started are still there at its end,
    in the same order and under the same names, before all the others; the
    others were all created during the loop.  This holds whatever fails or
    is cancelled on the way. *)
Theorem file_loop_appends total idx files s :
  Forall (λ x, (sid x < next_sid s)%nat) (dest s) →
  let s' := exec (file_loop w total idx files) s in
  ∃ added,
    dest s' = dest s ++ added
    ∧ Forall (λ x, (next_sid s ≤ sid x < next_sid s')%nat) added
    ∧ (next_sid s ≤ next_sid s')%nat.
Proof.
  intros Hfresh. cbn zeta.
  apply (file_loop_extends (dest s) (next_sid s) Hfresh total files idx s).
  exists []. rewrite app_nil_r. split; [done|]. split; [constructor | lia].
Qed.

(** *** A workbook that cannot be opened *)

(** X10. A source workbook that the host cannot open is skipped: its progress
    message and the line that announces it are sent, then one warning with
    the name of the file; nothing else changes (no host step, no worksheet,
    no test of the cancellation flag), nothing is raised, and the loop goes
    on with the next file. *)
Theorem unopenable_file_skipped total idx src_path s :
  open_workbook w src_path = None →
  process_file w total idx src_path s
  = (Some (Ok ()),
     set_ui_queue
       (ui_queue s ++ [Progress idx total (path_name src_path);
                       Log (MsgOpen (path_name src_path));
                       Log (MsgWarn (path_name src_path) HostError)]) s)
  ∧ ∀ rest,
      exec (file_loop w total idx (src_path :: rest)) s
      = if cancel_event w (cancel_checks s)
        then exec (log MsgCancelling) (exec (is_set w) s)
        else exec (file_loop w total (idx + 1) rest)
               (exec (process_file w total idx src_path) (exec (is_set w) s)).
Proof.
  intros Hopen. split.
  - unfold process_file, progress, log, put_event, close_source, host_open.
    rewrite Hopen.
    unfold mbind, M_bind, mret, M_ret, modify, raise, try_except, try_finally.
    simpl. rewrite <- !app_assoc. done.
  - intros rest. unfold exec. cbn [file_loop]. unfold is_set.
    rewrite !bind_eq. simpl.
    destruct (cancel_event w (cancel_checks s)); [done|].
    destruct (exec_bind_returns
                (process_file w total idx src_path)
                (λ _, file_loop w total (idx + 1) rest)
                (set_cancel_checks (S (cancel_checks s)) s)
                (process_file_returns _ _ _ _)) as [[] [_ Heq]].
    by rewrite Heq.
Qed.

(** *** Removing the placeholders *)

Lemma filter_not_in_nil (l : list sheet) :
  filter (λ x, sid x ∉ sid <$> @nil sheet) l = l.
Proof.
  induction l as [|a l IH]; [done|]. rewrite filter_cons.
  destruct (decide (sid a ∉ sid <$> @nil sheet)) as [|Hn]; [by rewrite IH|].
  destruct Hn. simpl. apply not_elem_of_nil.
Qed.

Lemma filter_not_in_cons (sh : sheet) (rest l : list sheet) :
  filter (λ x, sid x ∉ sid <$> rest) (filter (λ x, sid x ≠ sid sh) l)
  = filter (λ x, sid x ∉ sid <$> sh :: rest) l.
Proof.
  induction l as [|a l IH]; [done|]. rewrite !(filter_cons _ a).
  destruct (decide (sid a ≠ sid sh)) as [Ha|Ha].
  - rewrite filter_cons, IH.
    destruct (decide (sid a ∉ sid <$> rest)) as [Hr|Hr];
      destruct (decide (sid a ∉ sid <$> sh :: rest)) as [Hc|Hc]; try done.
    + destruct Hc. rewrite fmap_cons. by apply not_elem_of_cons.
    + destruct Hr. rewrite fmap_cons in Hc.
      by apply not_elem_of_cons in Hc as [_ ?].
  - rewrite IH.
    destruct (decide (sid a ∉ sid <$> sh :: rest)) as [Hc|Hc]; [|done].
    rewrite fmap_cons in Hc. apply not_elem_of_cons in Hc as [Hc _].
    by destruct Ha.
Qed.

Lemma delete_initial_result initial :
  (∀ d sh, delete_ok w d sh = true) →
  ∀ s, (∃ x, x ∈ dest s ∧ sid x ∉ sid <$> initial) →
       dest (exec (delete_initial w initial) s)
       = filter (λ x, sid x ∉ sid <$> initial) (dest s).
Proof.
  intros Hok. induction initial as [|sh rest IH]; intros s (x & Hx & Hnew).
  - by rewrite filter_not_in_nil.
  - unfold exec. cbn [delete_initial]. unfold sheet_count.
    rewrite bind_eq. cbn [gets]. cbv beta iota.
    rewrite fmap_cons in Hnew. apply not_elem_of_cons in Hnew as [Hsh Hrest].
    case_bool_decide as Hcount.
    + destruct (dest s) as [|y [|z l]] eqn:Hd; simpl in Hcount; [|clear Hcount|lia].
      { by apply elem_of_nil in Hx. }
      apply list_elem_of_singleton in Hx as ->.
      change (dest s = filter (λ x, sid x ∉ sid <$> sh :: rest) [y]).
      rewrite Hd, filter_cons.
      destruct (decide (sid y ∉ sid <$> sh :: rest)) as [|Hn]; [done|].
      destruct Hn. rewrite fmap_cons. by apply not_elem_of_cons.
    + rewrite bind_eq.
      assert (try_except (host_delete w sh) (λ _, mret ()) s
              = (Some (Ok ()),
                 apply_step (OpDelete sh)
                   (filter (λ x, sid x ≠ sid sh) (dest s)) s)) as ->.
      { unfold host_delete, record_step, get_state.
        unfold mbind, M_bind, mret, M_ret, modify, gets, raise, try_except.
        simpl. by rewrite Hok. }
      cbv beta iota.
      match goal with |- dest (?m ?s1).2 = _ =>
        change (dest (exec m s1) = filter (λ x, sid x ∉ sid <$> sh :: rest)
                                     (dest s)) end.
      rewrite IH.
      * apply filter_not_in_cons.
      * exists x. split; [|done]. cbn. by apply list_elem_of_filter.
Qed.

(** X11. When nothing was copied, or the placeholders could not be listed, the
    destination is left as it is.  When something was copied and the host
    deletes every worksheet it is asked to, and the destination holds a
    worksheet that is no placeholder, every placeholder is removed and the
    other worksheets stay, in their order. *)
Theorem remove_placeholders_result initial s :
  (copied_any s = false ∨ initial = [] →
   remove_placeholders w initial s = (Some (Ok ()), s))
  ∧ (copied_any s = true →
     (∀ d sh, delete_ok w d sh = true) →
     (∃ x, x ∈ dest s ∧ sid x ∉ sid <$> initial) →
     dest (exec (remove_placeholders w initial) s)
     = filter (λ x, sid x ∉ sid <$> initial) (dest s)).
Proof.
  split.
  - intros Hno. unfold remove_placeholders. rewrite bind_eq. cbn [gets].
    cbv beta iota.
    destruct Hno as [-> | ->]; [reflexivity|].
    rewrite bool_decide_eq_true_2 by done. by destruct (copied_any s).
  - intros Hany Hok Hx. unfold exec, remove_placeholders.
    rewrite bind_eq. cbn [gets]. cbv beta iota. rewrite Hany.
    case_bool_decide as Hnil; simpl.
    + subst initial. by rewrite filter_not_in_nil.
    + by apply delete_initial_result.
Qed.

End CopyFacts.

(** ** The result of a merge in which nothing fails *)

Lemma size_list_to_set_le (l : list str) :
  (size (list_to_set l : gset str) ≤ length l)%nat.
Proof.
  induction l as [|x l IH].
  - by rewrite list_to_set_nil, size_empty.
  - rewrite list_to_set_cons, size_union_alt, size_singleton. cbn [length].
    assert (size (list_to_set l ∖ {[x]} : gset str)
            ≤ size (list_to_set l : gset str))%nat as Hle
      by (apply subseteq_size, subseteq_difference_l; reflexivity).
    lia.
Qed.

Lemma filter_sid_others (i : nat) (sh : sheet) (l : list sheet) :
  Forall (λ x, (sid x < i)%nat) l → sid sh = i →
  filter (λ x, sid x ≠ i) (l ++ [sh]) = l.
Proof.
  intros Hl Hsh. rewrite filter_app, filter_cons.
  destruct (decide (sid sh ≠ i)); [done|]. rewrite app_nil_r.
  apply filter_all. eapply Forall_impl; [exact Hl|].
  intros x Hx. simpl in *. lia.
Qed.

Section MergeResult.
Context {rt : PyRuntime} (w : world).

Hypothesis Hcancel : ∀ k, cancel_event w k = false.
Hypothesis Hcopy : ∀ p i, copy_ok w p i = true.
Hypothesis Hrename : ∀ l i (n : str),
  valid_sheet_name n →
  n ∉ sheet_name <$> filter (λ sh, sid sh ≠ i) l →
  rename_ok w l i n = true.

Variables (P0 : list sheet) (n0 : nat).
Hypothesis HP0 : Forall (λ x, (sid x < n0)%nat) P0.

Local Abbreviation merged := (merged P0 n0).

Lemma is_set_eq s :
  is_set w s = (Some (Ok (cancel_event w (cancel_checks s))),
                set_cancel_checks (S (cancel_checks s)) s).
Proof. reflexivity. Qed.

Lemma merged_fresh n s :
  merged n s → Forall (λ x, (sid x < next_sid s)%nat) (dest s).
Proof using HP0.
  intros (copies & -> & _ & _ & Hall & Hn & _). apply Forall_app. split.
  - eapply Forall_impl; [exact HP0|]. intros x Hx. simpl in *. lia.
  - eapply Forall_impl; [exact Hall|]. intros x [_ Hx]. simpl in *. lia.
Qed.

(** A step that leaves the worksheets and the flag as they are. *)
Lemma merged_same n op s : merged n s → merged n (apply_step op (dest s) s).
Proof. intros Hs. exact Hs. Qed.

(** Copying one worksheet succeeds and adds one copy. *)
Lemma copy_sheet_merged path sidx desired n s :
  merged n s →
  Z.of_nat (length (dest s)) < 9998 →
  outcome (copy_sheet w path sidx desired) s = Some (Ok ())
  ∧ merged (S n) (exec (copy_sheet w path sidx desired) s).
Proof using Hcopy Hrename HP0.
  intros Hs Hcap. pose proof (merged_fresh n s Hs) as Hfresh.
  destruct (NamingMore.unique_name_exists
              (list_to_set (sheet_name <$> dest s)) desired) as [u Hu].
  { pose proof (size_list_to_set_le (sheet_name <$> dest s)) as Hle.
    rewrite length_fmap in Hle. lia. }
  destruct (NamingMore.unique_name_valid _ _ _ Hu) as [Hv Hnew].
  rewrite elem_of_list_to_set in Hnew.
  run_copy. rewrite Hcopy. cbv beta iota zeta. rewrite Hu.
  set (sh := {| sid := next_sid s;
                sheet_name := auto_name w (dest s) desired |}).
  set (s1 := apply_step (OpCopy sh) (dest s ++ [sh])
               (set_next_sid (S (next_sid s)) s)).
  change (sid sh) with (next_sid s). change (dest s1) with (dest s ++ [sh]).
  rewrite Hrename; [|done|by rewrite filter_sid_others].
  cbn [fst snd]. split; [done|].
  unfold sh. rewrite rename_in_fresh by done.
  destruct Hs as (copies & Hd & Hlen & Hnd & Hall & Hn & Hany).
  exists (copies ++ [{| sid := next_sid s; sheet_name := u |}]).
  cbn [dest next_sid copied_any set_ui_queue set_copied_any apply_step
       set_dest set_trace s1 set_next_sid].
  split; [by rewrite Hd, app_assoc|].
  split; [rewrite length_app; simpl; lia|].
  split.
  { rewrite fmap_app. apply NoDup_app. split; [done|]. split.
    - intros x Hx ->%list_elem_of_singleton. apply Hnew.
      rewrite Hd, fmap_app. apply elem_of_app. by right.
    - apply NoDup_singleton. }
  split.
  { apply Forall_app. split.
    - eapply Forall_impl; [exact Hall|]. intros x [? ?]. split; [done|lia].
    - constructor; [|constructor]. simpl. split; [done|lia]. }
  split; [lia|]. symmetry. apply bool_decide_eq_true_2. lia.
Qed.

Lemma sheet_loop_merged path names :
  ∀ sidx n s,
    merged n s →
    Z.of_nat (length (dest s) + length names) < 9998 →
    outcome (sheet_loop w path sidx names) s = Some (Ok ())
    ∧ merged (n + length names) (exec (sheet_loop w path sidx names) s).
Proof using Hcancel Hcopy Hrename HP0.
  induction names as [|desired rest IH]; intros sidx n s Hs Hcap.
  - rewrite Nat.add_0_r. done.
  - unfold outcome, exec. cbn [sheet_loop].
    rewrite bind_eq, is_set_eq, Hcancel. cbv beta iota.
    set (s1 := set_cancel_checks (S (cancel_checks s)) s).
    assert (merged n s1) as Hs1 by exact Hs.
    destruct (copy_sheet_merged path sidx desired n s1 Hs1) as [Ho Hm].
    { change (dest s1) with (dest s). simpl in Hcap. lia. }
    rewrite bind_eq. unfold outcome, exec in Ho, Hm.
    destruct (copy_sheet w path sidx desired s1) as [o s2]. simpl in Ho, Hm.
    subst o. cbv beta iota.
    destruct (IH (S sidx) (S n) s2 Hm) as [Ho' Hm'].
    { destruct Hm as (copies & Hd & Hlen & _).
      destruct Hs as (copies0 & Hd0 & Hlen0 & _).
      rewrite Hd, length_app, Hlen. rewrite Hd0, length_app, Hlen0 in Hcap.
      simpl in Hcap. lia. }
    split; [exact Ho'|].
    replace (n + length (desired :: rest))%nat with (S n + length rest)%nat
      by (simpl; lia).
    exact Hm'.
Qed.

Lemma close_source_merged n path : preserves (merged n) (close_source w path).
Proof.
  intros s Hs. unfold exec, close_source, host_close_source, record_step,
    get_state.
  unfold mbind, M_bind, mret, M_ret, modify, gets, raise, try_except.
  destruct (open_workbook w path); [|done].
  by destruct (close_source_ok w path).
Qed.

Lemma process_file_merged total idx src_path n s :
  merged n s →
  Z.of_nat (length (dest s)
            + length (default [] (open_workbook w src_path))) < 9998 →
  merged (n + length (default [] (open_workbook w src_path)))
    (exec (process_file w total idx src_path) s).
Proof using Hcancel Hcopy Hrename HP0.
  intros Hs Hcap. unfold exec, process_file, progress, log, put_event.
  rewrite !bind_eq. cbn [modify]. cbv beta iota.
  rewrite !bind_eq. cbn [modify]. cbv beta iota.
  set (s1 := set_ui_queue _ (set_ui_queue _ s)).
  assert (merged n s1) as Hs1 by exact Hs.
  unfold try_finally, try_except, host_open.
  destruct (open_workbook w src_path) as [names|] eqn:Hopen.
  - rewrite bind_eq. cbn [mret M_ret]. cbv beta iota.
    destruct (sheet_loop_merged src_path names 1 n s1 Hs1) as [Ho Hm].
    { exact Hcap. }
    unfold outcome, exec in Ho, Hm.
    destruct (sheet_loop w src_path 1 names s1) as [o s2]. simpl in Ho, Hm.
    subst o. cbv beta iota.
    pose proof (close_source_merged _ src_path s2 Hm) as Hc.
    unfold exec in Hc.
    by destruct (close_source w src_path s2) as [[[[]|e]|] s3].
  - rewrite bind_eq. unfold raise. cbv beta iota.
    unfold close_source. rewrite Hopen. cbn [mret M_ret modify].
    cbv beta iota. simpl. rewrite Nat.add_0_r. exact Hs.
Qed.

Lemma file_loop_merged total files :
  ∀ idx n s,
    merged n s →
    Z.of_nat (length (dest s) + length (source_sheets w files)) < 9998 →
    merged (n + length (source_sheets w files))
      (exec (file_loop w total idx files) s).
Proof using Hcancel Hcopy Hrename HP0.
  induction files as [|src_path rest IH]; intros idx n s Hs Hcap.
  - unfold source_sheets. simpl. by rewrite Nat.add_0_r.
  - unfold exec. cbn [file_loop].
    rewrite bind_eq, is_set_eq, Hcancel. cbv beta iota.
    set (s1 := set_cancel_checks (S (cancel_checks s)) s).
    assert (merged n s1) as Hs1 by exact Hs.
    destruct (exec_bind_returns
                (process_file w total idx src_path)
                (λ _, file_loop w total (idx + 1) rest) s1
                (process_file_returns _ _ _ _)) as [[] [_ Heq]].
    rewrite Heq. clear Heq.
    assert (source_sheets w (src_path :: rest)
            = default [] (open_workbook w src_path) ++ source_sheets w rest)
      as Hsrc by done.
    rewrite Hsrc, length_app in *.
    pose proof (process_file_merged total idx src_path n s1 Hs1) as Hm.
    change (dest s1) with (dest s) in Hm.
    specialize (Hm ltac:(lia)).
    rewrite Nat.add_assoc. apply IH; [exact Hm|].
    destruct Hm as (copies & Hd & Hlen & _).
    destruct Hs as (copies0 & Hd0 & Hlen0 & _).
    rewrite Hd, length_app, Hlen. rewrite Hd0, length_app, Hlen0 in Hcap. lia.
Qed.

(** The save handshake leaves the worksheets as they are. *)
Lemma save_loop_dest (d : list sheet) suggested fuel :
  preserves (λ s, dest s = d) (save_loop w suggested fuel).
Proof.
  assert (preserves (λ s, dest s = d) (host_close_dest w)) as Hclose.
  { intros s Hs. unfold exec, host_close_dest, record_step, get_state.
    unfold mbind, M_bind, modify, gets, raise. simpl.
    by destruct (close_dest_ok w (teardown_calls s)). }
  assert (preserves (λ s, dest s = d) (host_quit w)) as Hquit.
  { intros s Hs. unfold exec, host_quit, record_step, get_state.
    unfold mbind, M_bind, modify, gets, raise. simpl.
    by destruct (quit_ok w (teardown_calls s)). }
  assert (∀ p fmt, preserves (λ s, dest s = d) (host_save_as w p fmt))
    as Hsave.
  { intros p fmt s Hs. unfold exec, host_save_as, record_step, get_state.
    unfold mbind, M_bind, modify, gets, raise. simpl.
    by destruct (save_ok w (save_attempts s) p fmt). }
  induction fuel as [|fuel IH]; cbn [save_loop].
  - apply preserves_suspended.
  - repeat first
      [ apply Hsave | apply Hclose | apply Hquit | apply IH
      | preserves_struct
      | apply preserves_modify; (let s := fresh "s" in intros s ?; done)
      | progress unfold request_save_path, save_queue_get, log, put_event ].
Qed.

Lemma filter_placeholders (copies : list sheet) :
  Forall (λ x, (n0 ≤ sid x)%nat) copies →
  filter (λ x, sid x ∉ sid <$> P0) (P0 ++ copies) = copies.
Proof using HP0.
  intros Hc. rewrite filter_app.
  replace (filter (λ x, sid x ∉ sid <$> P0) P0) with (@nil sheet).
  - simpl. apply filter_all. eapply Forall_impl; [exact Hc|].
    intros x Hx (y & Hy & Hin)%list_elem_of_fmap.
    rewrite Forall_forall in HP0. specialize (HP0 y Hin). simpl in *. lia.
  - symmetry. apply elem_of_nil_inv. intros x [Hx Hin]%list_elem_of_filter.
    apply Hx. apply list_elem_of_fmap. by exists x.
Qed.

(** From the end of the loop over the files on, when [n] worksheets were
    copied. *)
Lemma merge_tail folder n s :
  (∀ l sh, delete_ok w l sh = true) →
  merged n s →
  let s' := exec
    (c ← is_set w;
     if c : bool then
       host_close_dest w;; host_quit w;; put_event (Done Cancelled)
     else
       remove_placeholders w P0;;
       log MsgMerged;;
       save_handshake w (safe_default_filename folder (clock w))) s in
  (n = 0%nat → dest s' = P0)
  ∧ ((0 < n)%nat →
     length (dest s') = n
     ∧ NoDup (sheet_name <$> dest s')
     ∧ Forall (λ x, valid_sheet_name (sheet_name x)) (dest s')
     ∧ Forall (λ x, (n0 ≤ sid x)%nat) (dest s')).
Proof using Hcancel HP0.
  intros Hdelete Hs. cbn zeta.
  set (s1 := set_cancel_checks (S (cancel_checks s)) s).
  match goal with |- context [exec ?m s] =>
    assert (exec m s
            = exec (log MsgMerged;;
                    save_handshake w (safe_default_filename folder (clock w)))
                (exec (remove_placeholders w P0) s1)) as ->
  end.
  { unfold exec. rewrite bind_eq, is_set_eq, Hcancel. cbv beta iota.
    fold s1.
    destruct (exec_bind_returns
                (remove_placeholders w P0)
                (λ _, log MsgMerged;;
                      save_handshake w
                        (safe_default_filename folder (clock w)))
                s1 (remove_placeholders_returns w P0)) as [[] [_ Heq]].
    by rewrite Heq. }
  assert (merged n s1) as (copies & Hd & Hlen & Hnd & Hall & Hn & Hany)
    by exact Hs.
  assert (∀ d, dest (exec (remove_placeholders w P0) s1) = d →
               dest (exec (log MsgMerged;;
                           save_handshake w
                             (safe_default_filename folder (clock w)))
                       (exec (remove_placeholders w P0) s1)) = d) as Hkeep.
  { intros d Hd'.
    apply (preserves_bind (λ s, dest s = d)); [| |exact Hd'].
    - unfold log, put_event. apply preserves_modify. by intros ? ?.
    - intros _ s2 Hs2. by apply save_loop_dest. }
  split.
  - intros ->. apply Hkeep. destruct copies; [|done].
    rewrite app_nil_r in Hd.
    unfold exec, remove_placeholders. rewrite bind_eq. cbn [gets].
    cbv beta iota. by rewrite Hany.
  - intros Hpos.
    assert (dest (exec (remove_placeholders w P0) s1) = copies) as Hrem.
    { unfold exec, remove_placeholders. rewrite bind_eq. cbn [gets].
      cbv beta iota. rewrite Hany, bool_decide_eq_true_2 by done.
      destruct (decide (P0 = [])) as [Hnil|Hnil];
        [rewrite (bool_decide_eq_true_2 _ Hnil)
        |rewrite (bool_decide_eq_false_2 _ Hnil)]; cbn [andb negb].
      - change (dest s1 = copies). by rewrite Hd, Hnil.
      - change (dest (exec (delete_initial w P0) s1) = copies).
        rewrite delete_initial_result; [|done|].
        + rewrite Hd. apply filter_placeholders.
          eapply Forall_impl; [exact Hall|]. by intros x [_ [? _]].
        + destruct copies as [|x copies]; [simpl in Hlen; lia|].
          exists x. split.
          * rewrite Hd. apply elem_of_app. right. by left.
          * apply Forall_cons in Hall as [[_ [Hx _]] _].
            intros (y & Hy & Hin)%list_elem_of_fmap.
            rewrite Forall_forall in HP0. specialize (HP0 y Hin).
            simpl in *. lia. }
    rewrite (Hkeep copies Hrem).
    split; [done|]. split; [done|]. split.
    + eapply Forall_impl; [exact Hall|]. by intros x [? _].
    + eapply Forall_impl; [exact Hall|]. by intros x [_ [? _]].
Qed.

End MergeResult.

Section MergeTheorem.
Context {rt : PyRuntime} (w : world).

(** The primary strategy is the loop over the files and what follows it;
    what the [finally] clause and the handler of [run] do afterwards leaves
    the worksheets as they are. *)
Lemma run_primary_dest folder files s :
  com_available w = true →
  acquisition w = Acquired →
  dest (exec (run w folder files) s)
  = dest
      (exec (c ← is_set w;
             if c : bool then
               host_close_dest w;; host_quit w;; put_event (Done Cancelled)
             else
               remove_placeholders w
                 (if initial_sheets_ok w then dest s else []);;
               log MsgMerged;;
               save_handshake w (safe_default_filename folder (clock w)))
         (exec (file_loop w (Z.of_nat (length files)) 1 files)
            (set_copied_any false
               (set_ui_queue
                  (ui_queue s
                   ++ [Log (MsgFileCount (Z.of_nat (length files)))])
                  s)))).
Proof.
  intros Hcom Hgot.
  match goal with |- _ = dest (exec ?t ?s1) =>
    set (tail := t); set (s1' := s1)
  end.
  assert (merge_workbooks w folder files s = tail s1') as Hmerge.
  { unfold tail, s1', merge_workbooks. rewrite bind_eq. cbn [gets]. cbv beta iota.
    rewrite bind_eq. unfold log at 1, put_event at 1. cbn [modify].
    cbv beta iota. rewrite bind_eq. cbn [modify]. cbv beta iota.
    match goal with |- (file_loop _ _ _ _ ≫= ?f) ?s0 = _ =>
      destruct (exec_bind_returns
                  (file_loop w (Z.of_nat (length files)) 1 files)
                  f s0 (file_loop_returns _ _ _ _)) as [[] [_ Heq]]
    end.
    by rewrite Heq. }
  unfold run, run_impl, run_impl_primary. rewrite Hcom, Hgot.
  unfold exec, run_with, try_except, try_finally. rewrite Hmerge.
  clear Hmerge. destruct (tail s1') as [[r|] s2]; [|done].
  destruct (release_frame w Acquired s2) as (s3 & -> & _ & _ & _ & Hd & _).
  destruct r as [[]|e]; [done|].
  unfold log, put_event. unfold mbind, M_bind, modify. by simpl.
Qed.

(** X22. The result of a merge in which nothing goes wrong.  Suppose that
    the host application and the destination workbook are acquired, that
    the worksheets the new workbook starts with can be listed, that
    cancellation is never requested, that the host copies every worksheet,
    accepts every valid name that no other worksheet has, and deletes every
    worksheet it is asked to, and that the destination stays below 9998
    worksheets.  Then at the end of the run (saved or not, and whether or
    not the workbook can be closed) the destination holds exactly one
    worksheet for each worksheet of the source workbooks that could be
    opened, all of them created by the run, under valid and pairwise
    different names, and none of the placeholders; when the sources have no
    worksheet at all, the destination is left as it was. *)
Theorem merge_result folder files s :
  com_available w = true →
  acquisition w = Acquired →
  initial_sheets_ok w = true →
  (∀ k, cancel_event w k = false) →
  (∀ p i, copy_ok w p i = true) →
  (∀ l i (n : str),
     valid_sheet_name n →
     n ∉ sheet_name <$> filter (λ sh, sid sh ≠ i) l →
     rename_ok w l i n = true) →
  (∀ l sh, delete_ok w l sh = true) →
  Forall (λ x, (sid x < next_sid s)%nat) (dest s) →
  Z.of_nat (length (dest s) + length (source_sheets w files)) < 9998 →
  let s' := exec (run w folder files) s in
  (source_sheets w files = [] → dest s' = dest s)
  ∧ (source_sheets w files ≠ [] →
     length (dest s') = length (source_sheets w files)
     ∧ NoDup (sheet_name <$> dest s')
     ∧ Forall (λ x, valid_sheet_name (sheet_name x)) (dest s')
     ∧ Forall (λ x, (next_sid s ≤ sid x)%nat) (dest s')).
Proof.
  intros Hcom Hgot Hinit Hcancel Hcopy Hrename Hdelete Hfresh Hcap. cbn zeta.
  rewrite (run_primary_dest folder files s Hcom Hgot), Hinit.
  set (s0 := set_copied_any false _).
  assert (merged (dest s) (next_sid s) 0 s0) as Hs0.
  { exists []. rewrite app_nil_r. split; [done|]. split; [done|].
    split; [constructor|]. split; [constructor|]. split; [simpl; lia|done]. }
  pose proof (file_loop_merged w Hcancel Hcopy Hrename (dest s) (next_sid s)
                Hfresh (Z.of_nat (length files)) files 1 0 s0 Hs0 Hcap)
    as Hloop.
  rewrite Nat.add_0_l in Hloop.
  destruct (merge_tail w Hcancel (dest s) (next_sid s) Hfresh folder _ _
              Hdelete Hloop) as [Hnone Hsome].
  split.
  - intros Hnil. apply Hnone. by rewrite Hnil.
  - intros Hne. apply Hsome. destruct (source_sheets w files); [done|].
    simpl. lia.
Qed.

End MergeTheorem.

(** ** More on the fallback strategy *)

Lemma ended_preserves {A} I (m : M A) : preserves I m → ended I m.
Proof. intros Hm s Hs _. by apply Hm. Qed.

Lemma ended_bind {A B} I (m : M A) (f : A → M B) :
  ended I m → (∀ a, ended I (f a)) → ended I (m ≫= f).
Proof.
  intros Hm Hf s Hs. specialize (Hm s Hs). unfold outcome, exec in *.
  rewrite bind_eq. destruct (m s) as [[[a|e]|] s1]; simpl in *.
  - apply Hf. by apply Hm.
  - intros _. by apply Hm.
  - done.
Qed.

Lemma ended_try_except {A} I (m : M A) (h : exn → M A) :
  ended I m → (∀ e, ended I (h e)) → ended I (try_except m h).
Proof.
  intros Hm Hh s Hs. specialize (Hm s Hs). unfold outcome, exec, try_except in *.
  destruct (m s) as [[[a|e]|] s1]; simpl in *.
  - intros _. by apply Hm.
  - apply Hh. by apply Hm.
  - done.
Qed.

Lemma ended_try_finally {A} I (m : M A) (fin : M unit) :
  ended I m → preserves I fin → ended I (try_finally m fin).
Proof.
  intros Hm Hf s Hs. specialize (Hm s Hs). unfold outcome, exec, try_finally in *.
  destruct (m s) as [[r|] s1]; simpl in *; [|done].
  intros _. specialize (Hf s1 (Hm ltac:(done))). unfold exec in Hf.
  by destruct (fin s1) as [[[[]|e]|] s2].
Qed.

Ltac done_side :=
  let s := fresh "s" in let Hs := fresh "Hs" in
  intros s Hs; simpl; rewrite ?done_events_app; simpl; rewrite ?app_nil_r;
  exact Hs.

Section FallbackMore.
Context {rt : PyRuntime} (w : world).

Lemma bar_not_in_REQUEST_SAVE : bar ∉ lit "REQUEST_SAVE".
Proof. intros H. apply (bool_decide_pack _) in H. by vm_compute in H. Qed.

(** X12. A [REQUEST_SAVE] line becomes one save request whose suggested name is
    all that follows the first bar (the default file name is never used);
    the worker then waits for the answer and writes it to the script as one
    line: the path, or an empty line for the abort signal.  Without an
    answer it waits and writes nothing.  When the script does not take the
    line, the answer is taken from the queue all the same, nothing is
    written and [OSError] is raised. *)
Theorem request_save_line_handling folder raw (name : str) s :
  strip raw = lit "REQUEST_SAVE|" ++ name →
  handle_line w folder raw s
  = let s1 := set_ui_queue (ui_queue s ++ [RequestSave name]) s in
    match save_queue s with
    | [] => (None, s1)
    | a :: q =>
        if stdin_write_ok w (length (proc_stdin s)) then
          (Some (Ok ()),
           set_proc_stdin (proc_stdin s ++ [reply a]) (set_save_queue q s1))
        else (Some (Raise OSError), set_save_queue q s1)
    end.
Proof.
  intros Hline. unfold handle_line. rewrite Hline.
  rewrite bool_decide_eq_false_2 by done.
  change (startswith (lit "REQUEST_SAVE|" ++ _) (lit "LOG|")) with false.
  change (startswith (lit "REQUEST_SAVE|" ++ _) (lit "PROGRESS|")) with false.
  rewrite startswith_app. cbv iota.
  change (lit "REQUEST_SAVE|" ++ name)
    with (lit "REQUEST_SAVE" ++ bar :: name).
  cbn [split_max]. rewrite (break_at_app bar _ _ bar_not_in_REQUEST_SAVE).
  unfold request_save_path, save_queue_get, put_event.
  unfold mbind, M_bind, mret, M_ret, modify, gets, suspended, raise. simpl.
  destruct (save_queue s); [done|]. simpl.
  by destruct (stdin_write_ok w (length (proc_stdin s))).
Qed.

(** X13. The other lines: an empty line (after stripping) is ignored; a [LOG]
    line is forwarded as a log message without its prefix; a line with none
    of the three prefixes is forwarded whole, stripped. *)
Theorem plain_line_handling folder raw s :
  let line := strip raw in
  (line = [] → handle_line w folder raw s = (Some (Ok ()), s))
  ∧ (∀ text, line = lit "LOG|" ++ text →
       handle_line w folder raw s
       = (Some (Ok ()), set_ui_queue (ui_queue s ++ [Log (MsgText text)]) s))
  ∧ (line ≠ [] →
     startswith line (lit "LOG|") = false →
     startswith line (lit "PROGRESS|") = false →
     startswith line (lit "REQUEST_SAVE|") = false →
     handle_line w folder raw s
     = (Some (Ok ()), set_ui_queue (ui_queue s ++ [Log (MsgText line)]) s)).
Proof.
  cbn zeta. unfold handle_line. split; [|split].
  - intros ->. by rewrite bool_decide_eq_true_2.
  - intros text ->. rewrite bool_decide_eq_false_2 by done.
    by rewrite startswith_app.
  - intros Hne -> -> ->. by rewrite bool_decide_eq_false_2.
Qed.

(** *** The answers are passed on in order *)

Section Relay.
Variables (Q0 : list (option str)) (I0 : list str) (R0 : nat).

(** The script takes every line written to it. *)
Hypothesis Hwrite : ∀ k, stdin_write_ok w k = true.

Local Abbreviation relay := (relayed Q0 I0 R0).

(** One request and the line that answers it. *)
Lemma answer_relayed (suggested : str) :
  ended relay
    (save_path ← request_save_path suggested;
     written ← gets (λ s, length (proc_stdin s));
     if stdin_write_ok w written then
       modify (λ s, set_proc_stdin
                      (proc_stdin s ++ [default [] save_path ++ [newline]]) s)
     else raise OSError).
Proof using Hwrite.
  intros s (n & Hn & Hq & Hin & Hreq).
  unfold outcome, exec, request_save_path, save_queue_get, put_event.
  unfold mbind, M_bind, mret, M_ret, modify, gets, suspended. simpl.
  destruct (save_queue s) as [|a q] eqn:Hs; simpl; [done|].
  rewrite Hwrite. cbn [fst snd]. intros _.
  assert (Q0 !! n = Some a) as Ha.
  { rewrite <- (Nat.add_0_r n), <- lookup_drop, <- Hq. done. }
  exists (S n). split; [by apply lookup_lt_Some in Ha|]. split; [|split].
  - symmetry. rewrite <- (Nat.add_1_r n), <- drop_drop, <- Hq. done.
  - cbn [proc_stdin set_proc_stdin set_save_queue set_ui_queue].
    rewrite Hin, (take_S_r _ _ a Ha), fmap_app, app_assoc. done.
  - cbn [ui_queue set_proc_stdin set_save_queue set_ui_queue].
    rewrite save_requests_app, length_app, Hreq. simpl. lia.
Qed.

Ltac relayed_side :=
  let s := fresh "s" in let Hs := fresh "Hs" in
  intros s Hs; unfold relayed in *; simpl;
  rewrite ?save_requests_app; simpl; rewrite ?app_nil_r; exact Hs.

Ltac solve_relayed :=
  repeat first
    [ apply answer_relayed
    | apply ended_bind; [|intros ?]
    | apply ended_preserves; solve_preserves relayed_side; fail ].

Lemma handle_line_relayed folder raw :
  ended relay (handle_line w folder raw).
Proof using Hwrite.
  unfold handle_line, progress.
  repeat lazymatch goal with
  | |- ended _ (if ?b then _ else _) => destruct b
  | |- ended _ (match ?x with _ => _ end) => destruct x
  end; solve_relayed.
Qed.

Lemma read_loop_relayed folder lines :
  ended relay (read_loop w folder lines).
Proof using Hwrite.
  induction lines as [|raw rest IH]; cbn [read_loop].
  - unfold signal_cancel. solve_relayed.
  - apply ended_bind; [unfold signal_cancel; solve_relayed|]. intros _.
    apply ended_bind; [apply handle_line_relayed|]. intros _. apply IH.
Qed.

Lemma run_fallback_relayed folder files :
  ended relay (run_with (run_impl_powershell w folder files)).
Proof using Hwrite.
  unfold run_with, run_impl_powershell.
  apply ended_try_except.
  - destruct (script_exists w); [|solve_relayed].
    destruct (filelist_ok w); [|solve_relayed].
    apply ended_bind; [solve_relayed|]. intros _.
    destruct (popen_ok w); [|solve_relayed].
    apply ended_try_finally.
    + apply ended_bind; [apply read_loop_relayed|]. intros _.
      unfold report_exit. solve_relayed.
    + unfold remove_sentinel. solve_preserves relayed_side.
  - intros e. solve_relayed.
Qed.

End Relay.

(** X14. In a run of the fallback strategy in which the script takes every
    line written to it and that comes to its end, every save request of the
    script was answered: for some [n], the run sent [n] save requests, took
    the first [n] answers from the queue and wrote them to the script in
    the same order, one line each (an empty line for the abort signal); the
    answers that follow are still on the queue. *)
Theorem fallback_answers_relayed folder files s :
  com_available w = false →
  (∀ k, stdin_write_ok w k = true) →
  outcome (run w folder files) s ≠ None →
  let s' := exec (run w folder files) s in
  ∃ n, (n ≤ length (save_queue s))%nat
    ∧ length (save_requests (ui_queue s'))
      = (length (save_requests (ui_queue s)) + n)%nat
    ∧ save_queue s' = drop n (save_queue s)
    ∧ proc_stdin s' = proc_stdin s ++ (reply <$> take n (save_queue s)).
Proof.
  intros Hcom Hwrite Hend. cbn zeta. revert Hend. unfold run, run_impl.
  rewrite Hcom. intros Hend.
  destruct (run_fallback_relayed (save_queue s) (proc_stdin s)
              (length (save_requests (ui_queue s))) Hwrite folder files s)
    as (n & Hn & Hq & Hin & Hreq); [|done|by exists n].
  exists 0%nat. rewrite drop_0, take_0, app_nil_r, Nat.add_0_r.
  split; [lia | done].
Qed.

(** *** How a run of the fallback strategy ends *)

Lemma read_loop_done D folder lines :
  preserves (λ s, done_events (ui_queue s) = D) (read_loop w folder lines).
Proof.
  induction lines as [|raw rest IH]; cbn [read_loop].
  - unfold signal_cancel. solve_preserves done_side.
  - unfold signal_cancel, handle_line, progress.
    solve_preserves done_side; apply IH.
Qed.

(** X15. Errors of the fallback strategy are reported by three messages, in this
    order: the log line, the error message and the completion message with
    status [Error].  When the script is missing, or when the list of files
    cannot be written, these are the only messages of the run and nothing
    else happens.  When the process cannot be started they follow the log
    line with the number of files.  When the process is started, takes
    every line written to it and has exited with a code other than 0, 2 and
    3, and cancellation is not requested at that moment, they are the last
    messages of the run and carry the code. *)
Theorem fallback_errors_reported folder files s :
  com_available w = false →
  (script_exists w = false →
   run w folder files s
   = (Some (Ok ()),
      set_ui_queue
        (ui_queue s ++ error_report (RuntimeError ScriptNotFound)) s))
  ∧ (script_exists w = true →
     filelist_ok w = false →
     run w folder files s
     = (Some (Ok ()), set_ui_queue (ui_queue s ++ error_report OSError) s))
  ∧ (script_exists w = true →
     filelist_ok w = true →
     popen_ok w = false →
     run w folder files s
     = (Some (Ok ()),
        set_ui_queue
          (ui_queue s
           ++ Log (MsgPsFileCount (Z.of_nat (length files)))
              :: error_report OSError) s))
  ∧ (script_exists w = true →
     filelist_ok w = true →
     popen_ok w = true →
     (∀ k, stdin_write_ok w k = true) →
     outcome (run w folder files) s ≠ None →
     cancel_event w (cancel_checks s + S (length (stdout_lines w))) = false →
     exit_code w ≠ 0 → exit_code w ≠ 3 → exit_code w ≠ 2 →
     ∃ q, ui_queue (exec (run w folder files) s)
          = q ++ error_report (RuntimeError (ScriptFailed (exit_code w)))).
Proof.
  intros Hcom. unfold run, run_impl. rewrite Hcom.
  split; [|split; [|split]].
  - intros Hscript. unfold run_with, run_impl_powershell. rewrite Hscript.
    unfold try_except, raise, log, put_event.
    unfold mbind, M_bind, modify. simpl. by rewrite <- !app_assoc.
  - intros Hscript Hlist. unfold run_with, run_impl_powershell.
    rewrite Hscript, Hlist.
    unfold try_except, raise, log, put_event.
    unfold mbind, M_bind, modify. simpl. by rewrite <- !app_assoc.
  - intros Hscript Hlist Hpopen. unfold run_with, run_impl_powershell.
    rewrite Hscript, Hlist, Hpopen.
    unfold try_except, raise, log, put_event.
    unfold mbind, M_bind, modify. simpl. by rewrite <- !app_assoc.
  - intros Hscript Hlist Hpopen Hwrite Hend Hflag H0 H3 H2. revert Hend.
    unfold run_with, run_impl_powershell. rewrite Hscript, Hlist.
    set (s0 := set_ui_queue
                 (ui_queue s
                  ++ [Log (MsgPsFileCount (Z.of_nat (length files)))])
                 s).
    unfold outcome, exec, try_except. rewrite bind_eq.
    change (log (MsgPsFileCount (Z.of_nat (length files))) s)
      with (Some (Ok ()), s0).
    cbv iota beta. rewrite Hpopen. unfold try_finally. rewrite bind_eq.
    pose proof (read_loop_spec w folder (stdout_lines w) Hwrite s0) as Hloop.
    unfold outcome, exec in Hloop.
    destruct (read_loop w folder (stdout_lines w) s0) as [[r|] s1];
      cbn [fst snd] in *; [|done].
    destruct (Hloop ltac:(done)) as [[= ->] [Hk Hd]].
    rewrite report_exit_eq. rewrite Hk.
    change (cancel_checks s0) with (cancel_checks s). rewrite Hflag.
    unfold spec_exit_status. rewrite !bool_decide_eq_false_2 by done.
    intros _.
    match goal with |- context [remove_sentinel w ?t] =>
      destruct (remove_sentinel_eq w t) as [b ->] end.
    unfold log, put_event. unfold mbind, M_bind, modify. simpl.
    exists (ui_queue s1). unfold error_report. by rewrite <- !app_assoc.
Qed.

End FallbackMore.

(** ** Every run sends its completion message *)

Section Completion.
Context {rt : PyRuntime} (w : world).

(** The completion messages sent before. *)
Variable D : list status.

Local Abbreviation quiet := (λ s : wstate, done_events (ui_queue s) = D).
Local Abbreviation completing m := (triple quiet m (completes D)).

Lemma completing_bind {A} (m : M A) (f : A → M unit) :
  preserves quiet m → (∀ a, completing (f a)) → completing (m ≫= f).
Proof.
  intros Hm Hf s Hs. specialize (Hm s Hs). unfold outcome, exec in *.
  rewrite bind_eq. destruct (m s) as [[[a|e]|] s1]; simpl in *;
    [by apply Hf | done | done].
Qed.

(** A [finally] clause that returns and sends no message. *)
Lemma completing_try_finally (m fin : M unit) :
  completing m → returns fin → (∀ q, preserves (λ s, ui_queue s = q) fin) →
  completing (try_finally m fin).
Proof.
  intros Hm Hret Hfin s Hs. specialize (Hm s Hs).
  unfold outcome, exec, try_finally in *.
  destruct (m s) as [[r|] s1]; cbn [fst snd] in *; [|done].
  destruct (Hret s1) as [[] Hr].
  pose proof (Hfin (ui_queue s1) s1 eq_refl) as Hq.
  unfold outcome, exec in Hr, Hq.
  destruct (fin s1) as [o s2]; cbn [fst snd] in *. subst o.
  cbn [fst snd]. unfold completes in *. rewrite Hq. by destruct r.
Qed.

Lemma completing_raise e : completing (raise e).
Proof. intros s Hs. exact Hs. Qed.

Lemma completing_done st : completing (put_event (Done st)).
Proof.
  intros s Hs. exists st. unfold exec, put_event, modify. simpl.
  by rewrite last_snoc, done_events_app, Hs.
Qed.

Lemma completing_finish st :
  completing (host_close_dest w;; host_quit w;; put_event (Done st)).
Proof.
  intros s Hs. destruct (finish_cases w st s) as (s1 & Heq & Hu & _).
  unfold outcome, exec. rewrite Heq. cbn [fst snd]. unfold completes.
  rewrite Hu.
  destruct (close_dest_ok w (teardown_calls s)
            && quit_ok w (S (teardown_calls s))).
  - exists st. by rewrite last_snoc, done_events_app, Hs.
  - by rewrite app_nil_r.
Qed.

Lemma completing_save_loop suggested fuel :
  completing (save_loop w suggested fuel).
Proof.
  induction fuel as [|fuel IH]; intros s Hs; [exact Hs|].
  unfold outcome, exec.
  destruct (save_queue s) as [|[p|] q] eqn:Hq.
  - destruct (save_loop_waiting w suggested fuel s Hq) as (s1 & -> & Hu & _).
    cbn [fst snd completes]. rewrite Hu, done_events_app, Hs. cbn.
    by rewrite app_nil_r.
  - destruct (save_ok w (save_attempts s) p (fileformat_for_path p)) eqn:Hok.
    + destruct (save_loop_success w suggested fuel s p q Hq Hok)
        as (s1 & -> & Hu & _).
      apply completing_finish. rewrite Hu, done_events_app, Hs. cbn.
      by rewrite app_nil_r.
    + destruct (save_loop_failure w suggested fuel s p q Hq Hok)
        as (s1 & -> & Hu & _).
      apply IH. rewrite Hu, done_events_app, Hs. cbn. by rewrite app_nil_r.
  - destruct (save_loop_abort w suggested fuel s q Hq) as (s1 & -> & Hu & _).
    apply completing_finish. rewrite Hu, done_events_app, Hs. cbn.
    by rewrite app_nil_r.
Qed.

Lemma quiet_of_unsaved {A} (m : M A) :
  (∀ R T, preserves (unsaved R D T) m) → preserves quiet m.
Proof.
  intros Hm s Hs.
  by destruct (Hm (save_requests (ui_queue s)) (saved_ops (trace s)) s
                 (conj eq_refl (conj Hs eq_refl))) as (_ & Hd & _).
Qed.

Lemma completing_merge folder files :
  completing (merge_workbooks w folder files).
Proof.
  unfold merge_workbooks.
  apply completing_bind; [by intros s Hs|]. intros initial_sheets.
  apply completing_bind; [unfold log; solve_preserves done_side|]. intros _.
  apply completing_bind; [by intros s Hs|]. intros _.
  apply completing_bind.
  { apply quiet_of_unsaved. intros R T. apply file_loop_unsaved. }
  intros _.
  apply completing_bind; [unfold is_set; solve_preserves done_side|].
  intros [|]; [apply completing_finish|].
  apply completing_bind.
  { apply quiet_of_unsaved. intros R T. apply remove_placeholders_unsaved. }
  intros _.
  apply completing_bind; [unfold log; solve_preserves done_side|]. intros _.
  intros s Hs. by apply completing_save_loop.
Qed.

Lemma release_returns a : returns (release w a).
Proof.
  intros s. destruct (release_frame w a s) as (s1 & Heq & _).
  exists (). unfold outcome. by rewrite Heq.
Qed.

Lemma release_silent a q : preserves (λ s, ui_queue s = q) (release w a).
Proof.
  intros s Hs. destruct (release_frame w a s) as (s1 & Heq & Hu & _).
  unfold exec. rewrite Heq. cbn [snd]. by rewrite Hu.
Qed.

Lemma completing_primary folder files :
  completing (run_impl_primary w folder files).
Proof.
  unfold run_impl_primary.
  destruct (acquisition w); [apply completing_raise|..];
    (apply completing_try_finally;
       [|apply release_returns | intros q; apply release_silent]).
  - apply completing_raise.
  - apply completing_raise.
  - apply completing_merge.
Qed.

Lemma completing_report_exit rc : completing (report_exit w rc).
Proof.
  intros s Hs. unfold outcome, exec. rewrite report_exit_eq.
  destruct (cancel_event w (cancel_checks s)).
  - exists Cancelled. cbn. by rewrite last_snoc, done_events_app, Hs.
  - destruct (spec_exit_status rc).
    + exists Saved. cbn. by rewrite last_snoc, done_events_app, Hs.
    + exists NoSave. cbn. by rewrite last_snoc, done_events_app, Hs.
    + exists Cancelled. cbn. by rewrite last_snoc, done_events_app, Hs.
    + exact Hs.
Qed.

Lemma completing_fallback folder files :
  completing (run_impl_powershell w folder files).
Proof.
  unfold run_impl_powershell.
  destruct (script_exists w); [|apply completing_raise].
  destruct (filelist_ok w); [|apply completing_raise].
  apply completing_bind; [unfold log; solve_preserves done_side|]. intros _.
  destruct (popen_ok w); [|apply completing_raise].
  apply completing_try_finally.
  - apply completing_bind; [apply read_loop_done|]. intros _.
    apply completing_report_exit.
  - intros s. destruct (remove_sentinel_eq w s) as [b Heq].
    exists (). unfold outcome. by rewrite Heq.
  - intros q s Hs. destruct (remove_sentinel_eq w s) as [b Heq].
    unfold exec. by rewrite Heq.
Qed.

Lemma completing_run_impl folder files :
  completing (run_impl w folder files).
Proof.
  unfold run_impl.
  destruct (com_available w);
    [apply completing_primary | apply completing_fallback].
Qed.

End Completion.

Section CompletionTheorem.
Context {rt : PyRuntime} (w : world).

(** X16. Every run of the worker, in either strategy, either waits for an answer
    and has sent no completion message, or returns normally (no exception
    leaves [run]) after exactly one completion message, which is its last
    message. *)
Theorem run_completion folder files s :
  let o := outcome (run w folder files) s in
  let s' := exec (run w folder files) s in
  (o = None ∧ done_events (ui_queue s') = done_events (ui_queue s))
  ∨ (o = Some (Ok ())
     ∧ ∃ st, last (ui_queue s') = Some (Done st)
             ∧ done_events (ui_queue s') = done_events (ui_queue s) ++ [st]).
Proof.
  cbn zeta.
  pose proof (completing_run_impl w (done_events (ui_queue s)) folder files s
                eq_refl) as Himpl.
  unfold run, run_with, outcome, exec, try_except in *.
  destruct (run_impl w folder files s) as [[[[]|e]|] s1]; cbn [fst snd] in *.
  - right. split; [done|]. exact Himpl.
  - right. unfold log, put_event. unfold mbind, M_bind, modify. simpl.
    split; [done|]. exists Error. split; [apply last_snoc|].
    rewrite !done_events_app, Himpl. cbn. by rewrite !app_nil_r.
  - by left.
Qed.

End CompletionTheorem.

(** ** The window *)

Module WindowFacts.
Import Window.

Section Facts.
Context {rt : PyRuntime}.

Implicit Types (a : app) (d : desktop).

(** Filling the tree changes the rows and their map only. *)
Lemma insert_rows_frame (ps : list dir_entry) :
  ∀ a, let a' := foldl insert_row a ps in
    worker a' = worker a ∧ cancel_event a' = cancel_event a
    ∧ start_btn a' = start_btn a ∧ cancel_btn a' = cancel_btn a
    ∧ pbar_maximum a' = pbar_maximum a ∧ started a' = started a
    ∧ save_queue a' = save_queue a.
Proof.
  induction ps as [|p ps IH]; intros a; [done|].
  cbn zeta. simpl foldl. destruct (IH (insert_row a p)) as (?&?&?&?&?&?&?).
  by repeat split.
Qed.

Lemma insert_rows_excel (ps : list dir_entry) :
  Forall (λ p, is_excel_file p = true) ps →
  ∀ a, (∀ iid p, item_to_path a !! iid = Some p → is_excel_file p = true) →
       ∀ iid p, item_to_path (foldl insert_row a ps) !! iid = Some p →
                is_excel_file p = true.
Proof.
  induction 1 as [|q ps Hq Hps IH]; intros a Ha; [done|].
  simpl foldl. apply IH. intros iid p. unfold insert_row. simpl.
  destruct (decide (next_iid a = iid)) as [->|Hne].
  - rewrite lookup_insert_eq. by intros [= <-].
  - rewrite lookup_insert_ne by done. apply Ha.
Qed.

Lemma scan_folder_excel (listing : list dir_entry) :
  Forall (λ p, is_excel_file p = true) (scan_folder listing).
Proof.
  apply Forall_forall. intros p. unfold scan_folder.
  rewrite sorted_by_perm, list_elem_of_filter. tauto.
Qed.

(** [refresh_list] keeps the worker, the flag, the cancel button, the
    progress bar and the queues. *)
Lemma refresh_list_frame d a :
  let a' := (refresh_list d a).2 in
  worker a' = worker a ∧ cancel_event a' = cancel_event a
  ∧ cancel_btn a' = cancel_btn a ∧ pbar_maximum a' = pbar_maximum a
  ∧ started a' = started a ∧ save_queue a' = save_queue a.
Proof.
  cbn zeta. unfold refresh_list.
  destruct (bool_decide (strip (folder_var a) = [])); [done|].
  destruct (path_exists d _); [|done]. simpl.
  destruct (iterdir d _) as [listing|]; [|done]. simpl.
  destruct (insert_rows_frame (scan_folder listing)
              (set_rows [] (next_iid a) ∅ a)) as (?&?&?&?&?&?&?).
  by repeat split.
Qed.

Lemma refresh_list_ok d a : window_ok a → window_ok (refresh_list d a).2.
Proof.
  intros (Hbtn & Hbar & Hmap & Hst).
  destruct (refresh_list_frame d a) as (Hw & _ & Hc & Hp & Hs & _).
  cbn zeta in *. unfold window_ok. rewrite Hw, Hc, Hp, Hs.
  split; [done|]. split; [done|]. split; [|done].
  assert (∀ iid p, (∅ : gmap nat dir_entry) !! iid = Some p →
                   is_excel_file p = true) as Hempty.
  { intros iid p. by rewrite lookup_empty. }
  unfold refresh_list.
  destruct (bool_decide (strip (folder_var a) = [])); [exact Hempty|].
  destruct (path_exists d _); [|exact Hempty]. cbn [negb].
  destruct (iterdir d _) as [listing|]; [|exact Hempty]. cbn [snd].
  apply (insert_rows_excel (scan_folder listing) (scan_folder_excel listing)
           (set_rows [] (next_iid a) ∅ a) Hempty).
Qed.

Lemma selected_files_excel a (selected_iids : list nat) :
  (∀ iid p, item_to_path a !! iid = Some p → is_excel_file p = true) →
  Forall (λ p, is_excel_file p = true)
    (sorted_by name_key (omap (λ iid, item_to_path a !! iid) selected_iids)).
Proof.
  intros Hmap. apply Forall_forall. intros p.
  rewrite sorted_by_perm, list_elem_of_omap.
  intros (iid & _ & Hp). by apply (Hmap iid).
Qed.

(** The files [start_merge] hands to the worker. *)
Lemma start_merge_files d a (selected_iids : list nat) (listing : list dir_entry) :
  (∀ iid p, item_to_path a !! iid = Some p → is_excel_file p = true) →
  let fs := if selected_only_var a
            then sorted_by name_key
                   (omap (λ iid, item_to_path a !! iid) selected_iids)
            else scan_folder listing in
  fs ≠ [] → good_args {| folder := strip (folder_var a); files := fs |}.
Proof.
  intros Hmap fs Hne. split; [done|]. unfold fs. simpl.
  destruct (selected_only_var a).
  - split; [by apply selected_files_excel | apply sorted_by_sorted].
  - split; [apply scan_folder_excel | apply sorted_by_sorted].
Qed.

Lemma start_merge_ok d (selected_iids : list nat) a :
  window_ok a → window_ok (start_merge d selected_iids a).2.
Proof.
  intros Ha. unfold start_merge.
  destruct (worker a) as [x|] eqn:Hw; [exact Ha|].
  destruct (iterdir d _) as [listing|]; [|exact Ha]. cbn zeta.
  match goal with |- context [bool_decide (?fs = [])] =>
    destruct (decide (fs = [])) as [Hnil|Hnil];
      [rewrite (bool_decide_eq_true_2 _ Hnil)
      |rewrite (bool_decide_eq_false_2 _ Hnil)] end; [exact Ha|].
  destruct Ha as (Hbtn & Hbar & Hmap & Hst).
  unfold window_ok. simpl. split; [done|]. split; [lia|]. split; [done|].
  apply Forall_app. split; [done|]. constructor; [|constructor].
  by apply (start_merge_files d).
Qed.

Lemma cancel_merge_ok a : window_ok a → window_ok (cancel_merge a).
Proof. intros Ha. unfold cancel_merge. by destruct (worker a). Qed.

Lemma handle_save_request_frame d (name : str) (answers : list dialog_answer) :
  ∀ a, let a' := (handle_save_request d name answers a).1.2 in
    worker a' = worker a ∧ cancel_btn a' = cancel_btn a
    ∧ pbar_maximum a' = pbar_maximum a ∧ item_to_path a' = item_to_path a
    ∧ started a' = started a.
Proof.
  induction answers as [|r rest IH]; intros a; cbn zeta;
    cbn [handle_save_request]; [done|].
  destruct (bool_decide (chosen_path r ≠ [])).
  - destruct (path_exists d _); [done|]. apply (IH (show_box _ a)).
  - destruct (retry r); [apply IH | done].
Qed.

Lemma handle_save_request_ok d (name : str) (answers : list dialog_answer) a :
  window_ok a → window_ok (handle_save_request d name answers a).1.2.
Proof.
  intros Ha. destruct (handle_save_request_frame d name answers a)
    as (Hw & Hc & Hp & Hm & Hs).
  cbn zeta in *. unfold window_ok. by rewrite Hw, Hc, Hp, Hm, Hs.
Qed.

Lemma handle_done_ok d (st : status) a :
  window_ok a → window_ok (handle_done d st a).2.
Proof.
  intros (Hbtn & Hbar & Hmap & Hst). unfold handle_done.
  set (a1 := set_busy false 0 (set_worker None a)).
  assert (window_ok a1) as Ha1 by (unfold window_ok; simpl; done).
  pose proof (refresh_list_ok d a1 Ha1) as Hr.
  destruct (refresh_list d a1) as [[| |] a2]; simpl in *; try done.
  by destruct st.
Qed.

Lemma poll_ui_queue_ok d (msgs : list event) :
  ∀ answers a, window_ok a → window_ok (poll_ui_queue d msgs answers a).2.
Proof.
  induction msgs as [|[m|c t f|name|e|st] rest IH]; intros answers a Ha;
    cbn [poll_ui_queue]; [done| | | | |].
  - by apply IH.
  - apply IH. destruct Ha as (? & ? & ? & ?). unfold window_ok. simpl.
    split; [done|]. split; [lia | done].
  - pose proof (handle_save_request_ok d name answers a Ha) as Hr.
    destruct (handle_save_request d name answers a) as [[[| |] a1] rest'];
      simpl in *; try done. by apply IH.
  - by apply IH.
  - pose proof (handle_done_ok d st a Ha) as Hr.
    destruct (handle_done d st a) as [[| |] a1]; simpl in *; try done.
    by apply IH.
Qed.

Lemma step_ok d (act : action) a : window_ok a → window_ok (step d act a).
Proof.
  intros Ha. destruct act as [text|b|chosen| |selected_iids| |msgs answers];
    cbn [step].
  - done.
  - done.
  - unfold browse_folder. case_bool_decide; [done|].
    by apply refresh_list_ok.
  - by apply refresh_list_ok.
  - by apply start_merge_ok.
  - by apply cancel_merge_ok.
  - by apply poll_ui_queue_ok.
Qed.

Lemma run_actions_ok (l : list (desktop * action)) :
  ∀ a, window_ok a → window_ok (run_actions l a).
Proof.
  induction l as [|[d act] l IH]; intros a Ha; [done|].
  apply IH. by apply step_ok.
Qed.

Lemma init_ok : window_ok init.
Proof.
  unfold window_ok. simpl. split; [done|]. split; [lia|].
  split; [|constructor]. intros iid p. by rewrite lookup_empty.
Qed.

(** *** The rows of the file list *)

Lemma insert_row_rows a (p : dir_entry) :
  is_excel_file p = true → rows_ok a → rows_ok (insert_row a p).
Proof.
  intros Hp Ha. unfold rows_ok, insert_row. cbn [tree next_iid set_rows].
  apply Forall_app. split.
  - eapply Forall_impl; [exact Ha|]. intros r (Hlt & q & (Hq & Hn & Hs) & He).
    split; [lia|]. exists q. split; [|done]. split; [|done].
    cbn [item_to_path set_rows]. rewrite lookup_insert_ne by lia. exact Hq.
  - constructor; [|constructor]. split; [simpl; lia|]. exists p.
    split; [|done]. split; [|done].
    cbn [item_to_path set_rows fst snd]. by rewrite lookup_insert_eq.
Qed.

Lemma insert_rows_rows (ps : list dir_entry) :
  Forall (λ p, is_excel_file p = true) ps →
  ∀ a, rows_ok a → rows_ok (foldl insert_row a ps).
Proof.
  induction 1 as [|q ps Hq Hps IH]; intros a Ha; [done|].
  simpl foldl. apply IH. by apply insert_row_rows.
Qed.

(** [refresh_list] empties the list and fills it with the Excel files of
    the folder. *)
Lemma refresh_list_rows d a : rows_ok (refresh_list d a).2.
Proof.
  assert (rows_ok (set_rows [] (next_iid a) ∅ a)) as Hempty by constructor.
  unfold refresh_list.
  destruct (bool_decide (strip (folder_var a) = [])); [exact Hempty|].
  destruct (path_exists d _); [|exact Hempty]. cbn [negb].
  destruct (iterdir d _) as [listing|]; [|exact Hempty]. cbn [snd].
  exact (insert_rows_rows (scan_folder listing) (scan_folder_excel listing)
           (set_rows [] (next_iid a) ∅ a) Hempty).
Qed.

Lemma start_merge_rows d (selected_iids : list nat) a :
  rows_ok a → rows_ok (start_merge d selected_iids a).2.
Proof.
  intros Ha. unfold start_merge.
  destruct (worker a) as [x|] eqn:Hw; [exact Ha|].
  destruct (iterdir d _) as [listing|]; [|exact Ha]. cbn zeta.
  match goal with |- context [bool_decide (?fs = [])] =>
    destruct (bool_decide (fs = [])) end; exact Ha.
Qed.

Lemma cancel_merge_rows a : rows_ok a → rows_ok (cancel_merge a).
Proof. intros Ha. unfold cancel_merge. by destruct (worker a). Qed.

Lemma handle_save_request_rows d (name : str) (answers : list dialog_answer) :
  ∀ a, rows_ok a → rows_ok (handle_save_request d name answers a).1.2.
Proof.
  induction answers as [|r rest IH]; intros a Ha;
    cbn [handle_save_request]; [exact Ha|].
  destruct (bool_decide (chosen_path r ≠ [])).
  - destruct (path_exists d _); [exact Ha|]. by apply (IH (show_box _ a)).
  - destruct (retry r); [by apply IH | exact Ha].
Qed.

Lemma handle_done_rows d (st : status) a : rows_ok (handle_done d st a).2.
Proof.
  unfold handle_done.
  set (a1 := set_busy false 0 (set_worker None a)).
  pose proof (refresh_list_rows d a1) as Hr.
  destruct (refresh_list d a1) as [[| |] a2]; cbn [snd] in *; try exact Hr.
  destruct st; exact Hr.
Qed.

Lemma poll_ui_queue_rows d (msgs : list event) :
  ∀ answers a, rows_ok a → rows_ok (poll_ui_queue d msgs answers a).2.
Proof.
  induction msgs as [|[m|c t f|name|e|st] rest IH]; intros answers a Ha;
    cbn [poll_ui_queue]; [done| | | | |].
  - by apply IH.
  - by apply IH.
  - pose proof (handle_save_request_rows d name answers a Ha) as Hr.
    destruct (handle_save_request d name answers a) as [[[| |] a1] rest'];
      cbn [fst snd] in *; try exact Hr. by apply IH.
  - by apply IH.
  - pose proof (handle_done_rows d st a) as Hr.
    destruct (handle_done d st a) as [[| |] a1]; cbn [snd] in *;
      try exact Hr.
    by apply IH.
Qed.

Lemma step_rows d (act : action) a : rows_ok a → rows_ok (step d act a).
Proof.
  intros Ha. destruct act as [text|b|chosen| |selected_iids| |msgs answers];
    cbn [step].
  - exact Ha.
  - exact Ha.
  - unfold browse_folder. case_bool_decide; [exact Ha|].
    apply refresh_list_rows.
  - apply refresh_list_rows.
  - by apply start_merge_rows.
  - by apply cancel_merge_rows.
  - by apply poll_ui_queue_rows.
Qed.

Lemma run_actions_rows (l : list (desktop * action)) :
  ∀ a, rows_ok a → rows_ok (run_actions l a).
Proof.
  induction l as [|[d act] l IH]; intros a Ha; [done|].
  apply IH. by apply step_rows.
Qed.

(** X17. Whatever the user does and whatever the worker sends, between two
    handlers the cancel button is enabled exactly when a worker is
    registered, the maximum of the progress bar is at least 1, and every
    row of the file list stands for an Excel file: the identifier of the
    row is mapped to a file with the extension of an Excel file, of which
    the row shows the name and the size, and every file of the map has
    such an extension. *)
Theorem window_invariant (l : list (desktop * action)) :
  let a := run_actions l init in
  (cancel_btn a = true ↔ is_Some (worker a))
  ∧ 1 ≤ pbar_maximum a
  ∧ (∀ iid p, item_to_path a !! iid = Some p → is_excel_file p = true)
  ∧ Forall (λ r, ∃ p, item_to_path a !! r.1.1 = Some p
                      ∧ r.1.2 = path_name (entry_path p)
                      ∧ r.2 = entry_size p
                      ∧ is_excel_file p = true) (tree a).
Proof.
  cbn zeta. destruct (run_actions_ok l init init_ok) as (Hbtn & Hbar & Hmap & _).
  split; [|split; [done|split; [done|]]].
  - rewrite Hbtn. apply bool_decide_eq_true.
  - assert (rows_ok init) as Hinit by constructor.
    eapply Forall_impl; [exact (run_actions_rows l init Hinit)|].
    intros r (_ & p & (Hp & Hn & Hs) & He). by exists p.
Qed.

(** X18. Every worker the window ever starts is given a list of files that is
    not empty, holds Excel files only and is sorted by lower-cased name,
    whether the files come from the folder or from the selection. *)
Theorem started_workers_files (l : list (desktop * action)) :
  Forall (λ x, files x ≠ []
               ∧ Forall (λ p, is_excel_file p = true) (files x)
               ∧ StronglySorted (key_le name_key) (files x))
    (started (run_actions l init)).
Proof.
  destruct (run_actions_ok l init init_ok) as (_ & _ & _ & Hst). exact Hst.
Qed.

(** X19. While a worker is registered, no button and no field starts another
    worker or forgets the registered one: pressing the start button changes
    nothing at all, and only the polling handler, when it reads a completion
    message, ends the registration. *)
Theorem one_worker_at_a_time d (act : action) a :
  is_Some (worker a) →
  (∀ selected_iids, start_merge d selected_iids a = (Returned, a))
  ∧ ((∀ msgs answers, act ≠ PollUiQueue msgs answers) →
     worker (step d act a) = worker a
     ∧ started (step d act a) = started a).
Proof.
  intros [x Hx]. split.
  - intros selected_iids. unfold start_merge. by rewrite Hx.
  - intros Hact.
    destruct act as [text|b|chosen| |selected_iids| |msgs answers];
      cbn [step].
    + done.
    + done.
    + unfold browse_folder. case_bool_decide; [done|].
      destruct (refresh_list_frame d (set_folder_var chosen a))
        as (Hw & _ & _ & _ & Hs & _). done.
    + destruct (refresh_list_frame d a) as (Hw & _ & _ & _ & Hs & _). done.
    + unfold start_merge. by rewrite Hx.
    + unfold cancel_merge. by rewrite Hx.
    + by destruct (Hact msgs answers).
Qed.

Lemma handle_save_request_cases d (name : str)
    (answers : list dialog_answer) a :
  let r := handle_save_request d name answers a in
  match r.1.1 with
  | Returned =>
      ∃ used x,
        answers = used ++ r.2
        ∧ save_queue r.1.2 = save_queue a ++ [x]
        ∧ ∃ r, last used = Some r
               ∧ match x with
                 | None => chosen_path r = [] ∧ retry r = false
                 | Some p =>
                     chosen_path r ≠ []
                     ∧ p = save_path_for d (chosen_path r)
                     ∧ path_exists d (path_parent d p) = true
                 end
  | Waiting => save_queue r.1.2 = save_queue a ∧ r.2 = []
  | Raised => False
  end.
Proof.
  cbn zeta. revert a.
  induction answers as [|r rest IH]; intros a; cbn [handle_save_request];
    [done|].
  assert (∀ a0,
            match (handle_save_request d name rest a0).1.1 with
            | Returned =>
                ∃ used x,
                  r :: rest = used ++ (handle_save_request d name rest a0).2
                  ∧ save_queue (handle_save_request d name rest a0).1.2
                    = save_queue a0 ++ [x]
                  ∧ ∃ r0, last used = Some r0
                      ∧ match x with
                        | None => chosen_path r0 = [] ∧ retry r0 = false
                        | Some p =>
                            chosen_path r0 ≠ []
                            ∧ p = save_path_for d (chosen_path r0)
                            ∧ path_exists d (path_parent d p) = true
                        end
            | Waiting =>
                save_queue (handle_save_request d name rest a0).1.2
                = save_queue a0
                ∧ (handle_save_request d name rest a0).2 = []
            | Raised => False
            end) as Hrec.
  { intros a0. specialize (IH a0).
    destruct (handle_save_request d name rest a0) as [[[| |] a1] rest'];
      cbn [fst snd] in *; [|done|done].
    destruct IH as (used & x & -> & Hq & r0 & Hlast & Hx).
    exists (r :: used), x. split; [done|]. split; [done|].
    exists r0. split; [|done].
    destruct used as [|u used]; [done|]. done. }
  case_bool_decide as Hpath.
  - destruct (path_exists d _) eqn:Hex.
    + cbn [fst snd]. exists [r], (Some (save_path_for d (chosen_path r))).
      split; [done|]. split; [done|]. exists r. done.
    + apply (Hrec (show_box _ a)).
  - destruct (retry r) eqn:Hretry.
    + apply Hrec.
    + cbn [fst snd]. exists [r], None. split; [done|]. split; [done|].
      exists r. split; [done|]. split; [|done].
      destruct (chosen_path r); [done|]. by destruct Hpath.
Qed.

(** X20. The save dialog never raises.  When it returns it has put exactly one
    answer on the queue, decided by the last round of the dialog: the abort
    signal when the dialog was dismissed and the user declined to try
    again; otherwise the chosen path, normalized and given the extension
    [.xlsx] when it had none, and only if the folder of that path exists.
    While it waits for the user it has put nothing. *)
Theorem handle_save_request_spec d (name : str)
    (answers : list dialog_answer) a :
  let r := handle_save_request d name answers a in
  match r.1.1 with
  | Returned =>
      ∃ used x,
        answers = used ++ r.2
        ∧ save_queue r.1.2 = save_queue a ++ [x]
        ∧ ∃ r, last used = Some r
               ∧ match x with
                 | None => chosen_path r = [] ∧ retry r = false
                 | Some p =>
                     chosen_path r ≠ []
                     ∧ p = save_path_for d (chosen_path r)
                     ∧ path_exists d (path_parent d p) = true
                 end
  | Waiting => save_queue r.1.2 = save_queue a ∧ r.2 = []
  | Raised => False
  end.
Proof. apply handle_save_request_cases. Qed.

(** X21. An activation of the polling handler that returns has answered every
    save request it read, each with one answer on the queue. *)
Theorem poll_answers_every_request d (msgs : list event)
    (answers : list dialog_answer) a :
  (poll_ui_queue d msgs answers a).1 = Returned →
  length (save_queue (poll_ui_queue d msgs answers a).2)
  = (length (save_queue a) + length (save_requests msgs))%nat.
Proof.
  revert answers a.
  induction msgs as [|[m|c t f|name|e|st] rest IH]; intros answers a;
    cbn [poll_ui_queue].
  - intros _. simpl. lia.
  - intros Hr. by rewrite IH.
  - intros Hr. by rewrite IH.
  - pose proof (handle_save_request_cases d name answers a) as Hs.
    cbn zeta in Hs.
    destruct (handle_save_request d name answers a) as [[[| |] a1] rest'];
      cbn [fst snd] in *; [|done|done].
    destruct Hs as (used & x & _ & Hq & _).
    intros Hr. rewrite IH by done. rewrite Hq, length_app. simpl. lia.
  - intros Hr. by rewrite IH.
  - destruct (refresh_list_frame d (set_busy false 0 (set_worker None a)))
      as (_ & _ & _ & _ & _ & Hq).
    cbn zeta in Hq. unfold handle_done.
    destruct (refresh_list d _) as [[| |] a1]; cbn [fst snd] in *;
      [|done|done].
    intros Hr. rewrite IH by done. by destruct st; simpl; rewrite Hq.
Qed.

End Facts.

End WindowFacts.

(** ** The properties above, on the scenarios *)

Module MoreScenarios.
Import Demo DemoMore.
Local Existing Instance ascii_runtime.

Lemma valid_Jan : valid_sheet_name (lit "Jan").
Proof.
  split; [discriminate|]. split; [simpl; lia|].
  apply Forall_forall.
  assert (∀ c : char, bool_decide (c ∈ Naming.illegal) = false →
                      c ∉ Naming.illegal) as Hno.
  { intros c Hc Hin. apply (bool_decide_eq_false_1 _ Hc), Hin. }
  change (lit "Jan") with [74%N; 97%N; 110%N].
  repeat constructor; apply Hno; vm_compute; reflexivity.
Qed.

(** With "Jan" taken, the name for "Jan" is "Jan_2". *)
Lemma make_unique_sheet_name_valid_witness :
  Naming.make_unique_sheet_name {[ lit "Jan" ]} (lit "Jan") = Ok (lit "Jan_2")
  ∧ valid_sheet_name (lit "Jan_2")
  ∧ (lit "Jan_2" ∉ ({[ lit "Jan" ]} : gset str)).
Proof.
  assert (Naming.make_unique_sheet_name {[ lit "Jan" ]} (lit "Jan")
          = Ok (lit "Jan_2")) as H by (vm_compute; reflexivity).
  split; [exact H|].
  exact (NamingMore.make_unique_sheet_name_valid _ _ _ H).
Defined.

(** "Jan" on an empty registry stays "Jan". *)
Lemma make_unique_sheet_name_keeps_witness :
  valid_sheet_name (lit "Jan") ∧ trimmed (lit "Jan")
  ∧ (lit "Jan" ∉ (∅ : gset str))
  ∧ Naming.make_unique_sheet_name ∅ (lit "Jan") = Ok (lit "Jan").
Proof.
  assert (trimmed (lit "Jan")) as Ht
    by (split; intros c H; vm_compute in H; injection H as <-; reflexivity).
  assert (lit "Jan" ∉ (∅ : gset str)) as He by apply not_elem_of_empty.
  split; [exact valid_Jan|]. split; [exact Ht|]. split; [exact He|].
  exact (NamingMore.make_unique_sheet_name_keeps ∅ (lit "Jan")
           valid_Jan Ht He).
Defined.

(** An empty registry is far from crowded. *)
Lemma make_unique_sheet_name_succeeds_witness :
  Z.of_nat (size (∅ : gset str)) < 9998
  ∧ ∃ r : str, Naming.make_unique_sheet_name ∅ (lit "Jan") = Ok r.
Proof.
  assert (Z.of_nat (size (∅ : gset str)) < 9998) as H
    by (rewrite size_empty; lia).
  split; [exact H|].
  exact (NamingMore.make_unique_sheet_name_succeeds ∅ (lit "Jan") H).
Defined.


(** The user cancels while the first of the three files is copied: one
    progress message, and the run ends [Cancelled]; it ends [Error] on the
    host that refuses to close the destination. *)
Lemma primary_progress_prefix_witness :
  let files := [fileA; fileB; fileC] in
  let ends closes :=
    last (ui_queue (exec (run (interrupted closes) (lit "C:\in") files)
                      demo_start)) in
  com_available (interrupted (λ _, true)) = true
  ∧ acquisition (interrupted (λ _, true)) = Acquired
  ∧ (∀ k k', (k ≤ k')%nat →
             cancel_event (interrupted (λ _, true)) k = true →
             cancel_event (interrupted (λ _, true)) k' = true)
  ∧ progress_events
      (ui_queue (exec (run (interrupted (λ _, true)) (lit "C:\in") files)
                   demo_start))
    = take 1 (expected_progress 3 1 files)
  ∧ ends (λ _, true) = Some (Done Cancelled)
  ∧ ends (λ _, false) = Some (Done Error).
Proof.
  cbn zeta.
  assert (∀ closes k k', (k ≤ k')%nat →
            cancel_event (interrupted closes) k = true →
            cancel_event (interrupted closes) k' = true) as Hlatch.
  { intros closes k k' Hle Hk. cbn [cancel_event interrupted] in *.
    apply bool_decide_eq_true in Hk. apply bool_decide_eq_true. lia. }
  assert (∀ closes j,
            progress_events
              (ui_queue (exec (run (interrupted closes) (lit "C:\in")
                                 [fileA; fileB; fileC]) demo_start))
            = progress_events (ui_queue demo_start)
              ++ take j (expected_progress
                           (Z.of_nat (length [fileA; fileB; fileC])) 1
                           [fileA; fileB; fileC]) →
            progress_events
              (ui_queue (exec (run (interrupted closes) (lit "C:\in")
                                 [fileA; fileB; fileC]) demo_start))
            = take 1 (expected_progress 3 1 [fileA; fileB; fileC]) →
            (j < length [fileA; fileB; fileC])%nat) as Hshort.
  { intros closes j Hprog Hone. rewrite Hone in Hprog.
    destruct j as [|[|j]]; [discriminate Hprog | simpl; lia
                           | discriminate Hprog]. }
  assert (progress_events
            (ui_queue (exec (run (interrupted (λ _, true)) (lit "C:\in")
                               [fileA; fileB; fileC]) demo_start))
          = take 1 (expected_progress 3 1 [fileA; fileB; fileC])) as Htrue
    by (vm_compute; reflexivity).
  assert (progress_events
            (ui_queue (exec (run (interrupted (λ _, false)) (lit "C:\in")
                               [fileA; fileB; fileC]) demo_start))
          = take 1 (expected_progress 3 1 [fileA; fileB; fileC])) as Hfalse
    by (vm_compute; reflexivity).
  split; [reflexivity|]. split; [reflexivity|].
  split; [exact (Hlatch (λ _, true))|]. split; [exact Htrue|].
  split.
  - destruct (primary_progress_prefix (interrupted (λ _, true)) (lit "C:\in")
                [fileA; fileB; fileC] demo_start eq_refl)
      as (j & _ & Hprog & _ & Hlast).
    exact (Hlast eq_refl (Hlatch (λ _, true)) (Hshort _ j Hprog Htrue)).
  - destruct (primary_progress_prefix (interrupted (λ _, false)) (lit "C:\in")
                [fileA; fileB; fileC] demo_start eq_refl)
      as (j & _ & Hprog & _ & Hlast).
    exact (Hlast eq_refl (Hlatch (λ _, false)) (Hshort _ j Hprog Hfalse)).
Defined.

(** The first worksheet of the first workbook is copied as "Jan". *)
Lemma copy_sheet_result_witness :
  Forall (λ x, (sid x < next_sid demo_start)%nat) (dest demo_start)
  ∧ outcome (copy_sheet demo fileA 1 (lit "Jan")) demo_start = Some (Ok ())
  ∧ ∃ n : str,
      dest (exec (copy_sheet demo fileA 1 (lit "Jan")) demo_start)
      = dest demo_start ++ [{| sid := next_sid demo_start; sheet_name := n |}]
      ∧ valid_sheet_name n.
Proof.
  assert (Forall (λ x, (sid x < next_sid demo_start)%nat) (dest demo_start))
    as Hlt by (repeat constructor).
  assert (outcome (copy_sheet demo fileA 1 (lit "Jan")) demo_start
          = Some (Ok ())) as Hok by (vm_compute; reflexivity).
  split; [exact Hlt|]. split; [exact Hok|].
  destruct (copy_sheet_result demo fileA 1 (lit "Jan") demo_start Hlt Hok)
    as (n & Hd & Hv & _).
  exact (ex_intro _ n (conj Hd Hv)).
Defined.

(** The loop over the three files keeps the placeholder in front. *)
Lemma file_loop_appends_witness :
  Forall (λ x, (sid x < next_sid demo_start)%nat) (dest demo_start)
  ∧ ∃ added,
      dest (exec (file_loop demo 3 1 [fileA; fileB; fileC]) demo_start)
      = dest demo_start ++ added.
Proof.
  assert (Forall (λ x, (sid x < next_sid demo_start)%nat) (dest demo_start))
    as Hlt by (repeat constructor).
  split; [exact Hlt|].
  destruct (file_loop_appends demo 3 1 [fileA; fileB; fileC] demo_start Hlt)
    as (added & Hd & _).
  exact (ex_intro _ added Hd).
Defined.

(** The third workbook cannot be opened. *)
Lemma unopenable_file_skipped_witness :
  open_workbook demo fileC = None
  ∧ process_file demo 3 3 fileC demo_start
    = (Some (Ok ()),
       set_ui_queue
         (ui_queue demo_start
          ++ [Progress 3 3 (path_name fileC); Log (MsgOpen (path_name fileC));
              Log (MsgWarn (path_name fileC) HostError)]) demo_start).
Proof.
  assert (open_workbook demo fileC = None) as H by (vm_compute; reflexivity).
  split; [exact H|].
  exact (proj1 (unopenable_file_skipped demo 3 3 fileC demo_start H)).
Defined.

(** The placeholder goes, the copied worksheet stays. *)
Lemma remove_placeholders_result_witness :
  copied_any copied_state = true
  ∧ (∀ d sh, delete_ok demo d sh = true)
  ∧ (∃ x, x ∈ dest copied_state ∧ sid x ∉ sid <$> [sheet1])
  ∧ dest (exec (remove_placeholders demo [sheet1]) copied_state)
    = filter (λ x, sid x ∉ sid <$> [sheet1]) (dest copied_state).
Proof.
  assert (∃ x, x ∈ dest copied_state ∧ sid x ∉ sid <$> [sheet1]) as Hx.
  { exists jan. split.
    - apply elem_of_cons. right. apply elem_of_cons. by left.
    - intros H. apply list_elem_of_singleton in H. discriminate H. }
  split; [reflexivity|]. split; [intros d sh; reflexivity|].
  split; [exact Hx|].
  exact (proj2 (remove_placeholders_result demo [sheet1] copied_state)
           eq_refl (λ _ _, eq_refl) Hx).
Defined.

(** The script asks where to save and the answer is waiting; on the second
    machine the script does not take the line. *)
Lemma request_save_line_handling_witness :
  let raw := lit "REQUEST_SAVE|merged.xlsx" ++ [newline] in
  let asked :=
    set_save_queue [None]
      (set_ui_queue (ui_queue asking_start ++ [RequestSave (lit "merged.xlsx")])
         asking_start) in
  strip raw = lit "REQUEST_SAVE|" ++ lit "merged.xlsx"
  ∧ handle_line (asking 0) (lit "C:\in") raw asking_start
    = (Some (Ok ()), set_proc_stdin [out2 ++ [newline]] asked)
  ∧ handle_line (asking_pipe (λ _, false) 0) (lit "C:\in") raw asking_start
    = (Some (Raise OSError), asked).
Proof.
  cbn zeta. split; [reflexivity|]. split.
  - exact (request_save_line_handling (asking 0) (lit "C:\in")
             (lit "REQUEST_SAVE|merged.xlsx" ++ [newline]) (lit "merged.xlsx")
             asking_start eq_refl).
  - exact (request_save_line_handling (asking_pipe (λ _, false) 0)
             (lit "C:\in")
             (lit "REQUEST_SAVE|merged.xlsx" ++ [newline]) (lit "merged.xlsx")
             asking_start eq_refl).
Defined.

(** A [LOG] line of the script. *)
Lemma plain_line_handling_witness :
  let raw := lit "LOG|start" ++ [newline] in
  strip raw = lit "LOG|" ++ lit "start"
  ∧ handle_line (asking 0) (lit "C:\in") raw asking_start
    = (Some (Ok ()),
       set_ui_queue
         (ui_queue asking_start ++ [Log (MsgText (lit "start"))])
         asking_start).
Proof.
  cbn zeta. split; [reflexivity|].
  destruct (plain_line_handling (asking 0) (lit "C:\in")
              (lit "LOG|start" ++ [newline]) asking_start) as (_ & Hlog & _).
  exact (Hlog (lit "start") eq_refl).
Defined.

(** One request, one answer taken, one line written. *)
Lemma fallback_answers_relayed_witness :
  com_available (asking 0) = false
  ∧ (∀ k, stdin_write_ok (asking 0) k = true)
  ∧ outcome (run (asking 0) (lit "C:\in") [fileA]) asking_start ≠ None
  ∧ ∃ n, (n ≤ length (save_queue asking_start))%nat
      ∧ proc_stdin (exec (run (asking 0) (lit "C:\in") [fileA]) asking_start)
        = proc_stdin asking_start
          ++ (reply <$> take n (save_queue asking_start)).
Proof.
  assert (outcome (run (asking 0) (lit "C:\in") [fileA]) asking_start ≠ None)
    as Hrun by (vm_compute; discriminate).
  split; [reflexivity|]. split; [intros k; reflexivity|].
  split; [exact Hrun|].
  destruct (fallback_answers_relayed (asking 0) (lit "C:\in") [fileA]
              asking_start eq_refl (λ _, eq_refl) Hrun)
    as (n & Hn & _ & _ & Hin).
  exact (ex_intro _ n (conj Hn Hin)).
Defined.

(** Exit code 1 is reported with its number; a process that cannot be
    started is reported after the line with the number of files. *)
Lemma fallback_errors_reported_witness :
  com_available (scripted 1 100) = false
  ∧ script_exists (scripted 1 100) = true
  ∧ filelist_ok (scripted 1 100) = true
  ∧ popen_ok (scripted 1 100) = true
  ∧ (∀ k, stdin_write_ok (scripted 1 100) k = true)
  ∧ outcome (run (scripted 1 100) (lit "C:\in") [fileA]) (initial_state [] [])
    ≠ None
  ∧ (∃ q, ui_queue (exec (run (scripted 1 100) (lit "C:\in") [fileA])
                      (initial_state [] []))
          = q ++ error_report (RuntimeError (ScriptFailed 1)))
  ∧ popen_ok unstarted = false
  ∧ ui_queue (exec (run unstarted (lit "C:\in") [fileA]) (initial_state [] []))
    = Log (MsgPsFileCount 1) :: error_report OSError.
Proof.
  assert (outcome (run (scripted 1 100) (lit "C:\in") [fileA])
            (initial_state [] []) ≠ None) as Hrun by (vm_compute; discriminate).
  split; [reflexivity|]. split; [reflexivity|]. split; [reflexivity|].
  split; [reflexivity|]. split; [intros k; reflexivity|].
  split; [exact Hrun|].
  destruct (fallback_errors_reported (scripted 1 100) (lit "C:\in") [fileA]
              (initial_state [] []) eq_refl) as (_ & _ & _ & Hrep).
  assert (exit_code (scripted 1 100) ≠ 0) as H0 by discriminate.
  assert (exit_code (scripted 1 100) ≠ 3) as H3 by discriminate.
  assert (exit_code (scripted 1 100) ≠ 2) as H2 by discriminate.
  split; [exact (Hrep eq_refl eq_refl eq_refl (λ _, eq_refl) Hrun eq_refl
                   H0 H3 H2)|].
  split; [reflexivity|].
  destruct (fallback_errors_reported unstarted (lit "C:\in") [fileA]
              (initial_state [] []) eq_refl) as (_ & _ & Hpopen & _).
  exact (f_equal (λ r, ui_queue r.2) (Hpopen eq_refl eq_refl eq_refl)).
Defined.

(** While the merge runs, the cancel button keeps the worker. *)
Lemma one_worker_at_a_time_witness :
  is_Some (Window.worker busy)
  ∧ Window.start_merge desk [] busy = (Window.Returned, busy)
  ∧ Window.worker (Window.step desk Window.CancelMerge busy)
    = Window.worker busy.
Proof.
  assert (is_Some (Window.worker busy)) as Hbusy by (eexists; reflexivity).
  split; [exact Hbusy|].
  destruct (WindowFacts.one_worker_at_a_time desk Window.CancelMerge busy
              Hbusy) as [Hstart Hkeep].
  split; [exact (Hstart [])|].
  assert (∀ msgs answers,
            Window.CancelMerge ≠ Window.PollUiQueue msgs answers) as Hact
    by (intros msgs answers; discriminate).
  exact (proj1 (Hkeep Hact)).
Defined.

(** The user dismisses the dialog once, then chooses a path. *)
Lemma poll_answers_every_request_witness :
  let msgs := [Log MsgMerged; RequestSave (lit "merged.xlsx")] in
  let answers := [Window.Dismissed true; Window.Chosen out2] in
  (Window.poll_ui_queue desk msgs answers busy).1 = Window.Returned
  ∧ length (Window.save_queue (Window.poll_ui_queue desk msgs answers busy).2)
    = (length (Window.save_queue busy) + length (save_requests msgs))%nat.
Proof.
  cbn zeta.
  assert ((Window.poll_ui_queue desk
             [Log MsgMerged; RequestSave (lit "merged.xlsx")]
             [Window.Dismissed true; Window.Chosen out2] busy).1
          = Window.Returned) as Hret by (vm_compute; reflexivity).
  split; [exact Hret|].
  exact (WindowFacts.poll_answers_every_request desk _ _ busy Hret).
Defined.

(** The merge of the three files: four worksheets, no placeholder. *)
Lemma merge_result_witness :
  com_available demo = true
  ∧ acquisition demo = Acquired
  ∧ initial_sheets_ok demo = true
  ∧ (∀ k, cancel_event demo k = false)
  ∧ (∀ p i, copy_ok demo p i = true)
  ∧ (∀ l i (n : str),
       valid_sheet_name n →
       n ∉ sheet_name <$> filter (λ sh, sid sh ≠ i) l →
       rename_ok demo l i n = true)
  ∧ (∀ l sh, delete_ok demo l sh = true)
  ∧ Forall (λ x, (sid x < next_sid demo_start)%nat) (dest demo_start)
  ∧ Z.of_nat (length (dest demo_start)
              + length (source_sheets demo [fileA; fileB; fileC])) < 9998
  ∧ source_sheets demo [fileA; fileB; fileC] ≠ []
  ∧ length (dest (exec (run demo (lit "C:\in") [fileA; fileB; fileC])
                    demo_start))
    = length (source_sheets demo [fileA; fileB; fileC])
  ∧ NoDup (sheet_name <$>
           dest (exec (run demo (lit "C:\in") [fileA; fileB; fileC])
                   demo_start)).
Proof.
  assert (∀ l i (n : str),
            valid_sheet_name n →
            n ∉ sheet_name <$> filter (λ sh, sid sh ≠ i) l →
            rename_ok demo l i n = true) as Hrename.
  { intros l i n _ Hn. cbn [rename_ok demo demo_host].
    by rewrite (bool_decide_eq_false_2 _ Hn). }
  assert (Forall (λ x, (sid x < next_sid demo_start)%nat) (dest demo_start))
    as Hlt by (repeat constructor).
  assert (Z.of_nat (length (dest demo_start)
                    + length (source_sheets demo [fileA; fileB; fileC]))
          < 9998) as Hcap by (vm_compute; reflexivity).
  assert (source_sheets demo [fileA; fileB; fileC] ≠ []) as Hne
    by (vm_compute; discriminate).
  split; [reflexivity|]. split; [reflexivity|]. split; [reflexivity|].
  split; [intros k; reflexivity|]. split; [intros p i; reflexivity|].
  split; [exact Hrename|]. split; [intros l sh; reflexivity|].
  split; [exact Hlt|]. split; [exact Hcap|]. split; [exact Hne|].
  destruct (merge_result demo (lit "C:\in") [fileA; fileB; fileC] demo_start
              eq_refl eq_refl eq_refl (λ _, eq_refl) (λ _ _, eq_refl) Hrename
              (λ _ _, eq_refl) Hlt Hcap) as [_ Hsome].
  destruct (Hsome Hne) as (Hlen & Hnd & _).
  exact (conj Hlen Hnd).
Defined.

(** The window on the desktop: refresh, start, poll. *)
Example window_session :
  let a := Window.run_actions
             [(desk, Window.TypeFolder (lit "C:\in"));
              (desk, Window.RefreshList);
              (desk, Window.StartMerge []);
              (desk, Window.PollUiQueue
                       [Progress 1 2 (lit "a.xls");
                        RequestSave (lit "merged.xlsx"); Done Saved]
                       [Window.Chosen (lit "C:\out\merged")])]
             Window.init in
  (Window.files <$> Window.started a) = [[file "a.xls"; file "B.xlsx"]]
  ∧ Window.save_queue a = [Some (lit "C:\out\merged.xlsx")]
  ∧ Window.worker a = None
  ∧ Window.cancel_btn a = false
  ∧ Window.start_btn a = true
  ∧ Window.status_var a = Window.TxtSaved.
Proof. vm_compute. repeat split; reflexivity. Qed.

End MoreScenarios.
